(** * Procurement field extraction: a shallow embedding of [src/extractor.py]

    The extractor is a pure function from a Python [str] to a record.  Python
    strings are sequences of Unicode code points, the regular expressions of
    the source are [str] patterns (so [\d], [\s], [\b] follow the Unicode
    tables of the interpreter), and the confidence is a binary64 float.  The
    embedding keeps all three: strings are lists of code points, the patterns
    are terms of a small regular-expression language run by a backtracking
    matcher with Python's priorities, and floats are the kernel's binary64
    floats.

    The same strings carry the rest of the repository: the lines the
    extractor works on, the driver of [src/main.py] (the choice of the image
    files, the OCR output and the record read from it), the webhook of
    [src/webhook_server.py] and the upload of [src/feishu_upload.py], whose
    reader, file system and service are parameters. *)

From Stdlib Require Import ZArith NArith List Bool Lia String Ascii.
From Stdlib Require Import PrimFloat SpecFloat FloatOps.
From Stdlib Require Import Sorted Permutation.
Import ListNotations.

Set Warnings "-inexact-float".

Open Scope string_scope.
Open Scope list_scope.

(* ================================================================== *)
(** * Python strings *)
(* ================================================================== *)

(** A code point, and a Python [str]. *)
Definition codepoint := N.
Definition pystr := list codepoint.

(** Python's truth value of a string: empty is false. *)
Definition truthy (s : pystr) : bool :=
  match s with [] => false | _ :: _ => true end.

(** ** String literals

    Rocq string literals are byte strings; the source file is UTF-8, so a
    literal of the source is read back by decoding UTF-8. *)
Fixpoint utf8_go (acc : N) (pending : nat) (s : string) : pystr :=
  match s with
  | EmptyString => []
  | String a tl =>
      let b := N_of_ascii a in
      match pending with
      | O =>
          if (b <? 128)%N then b :: utf8_go 0 0 tl
          else if (b <? 224)%N then utf8_go (b - 192) 1 tl
          else if (b <? 240)%N then utf8_go (b - 224) 2 tl
          else utf8_go (b - 240) 3 tl
      | S O => (acc * 64 + (b - 128))%N :: utf8_go 0 0 tl
      | S n => utf8_go (acc * 64 + (b - 128))%N n tl
      end
  end.

Definition utf8 (s : string) : pystr := utf8_go 0 0 s.

(** The line feed, written [\n] in the source. *)
Definition LF : codepoint := 10%N.

(* ================================================================== *)
(** * The Unicode tables of the interpreter *)
(* ================================================================== *)

Module Unicode.

Local Open Scope N_scope.

Definition in_range (lo hi c : codepoint) : bool := (lo <=? c) && (c <=? hi).

(** [str.isspace] on one character ([Py_UNICODE_ISSPACE]); also the class
    [\s] of a [str] pattern and what [str.strip()] removes. *)
Definition isspace (c : codepoint) : bool :=
  in_range 9 13 c || in_range 28 32 c || (c =? 133) || (c =? 160)
  || (c =? 5760) || in_range 8192 8202 c || (c =? 8232) || (c =? 8233)
  || (c =? 8239) || (c =? 8287) || (c =? 12288).

(** [Py_UNICODE_ISLINEBREAK]: where [str.splitlines] cuts. *)
Definition islinebreak (c : codepoint) : bool :=
  in_range 10 13 c || in_range 28 30 c || (c =? 133) || (c =? 8232)
  || (c =? 8233).

Definition is_ascii (c : codepoint) : bool := c <? 128.

(** CJK unified ideographs U+4E00..U+9FA5: letters (category Lo) in every
    version of Unicode; every ideograph of the source lies in this block. *)
Definition is_cjk (c : codepoint) : bool := in_range 19968 40869 c.

(** The other non-ASCII characters the source writes: the em dash (U+2014),
    the fullwidth comma (U+FF0C), colon (U+FF1A) and yen sign (U+FFE5).
    None is a letter or a digit. *)
Definition is_source_symbol (c : codepoint) : bool :=
  (c =? 8212) || (c =? 65292) || (c =? 65306) || (c =? 65509).

(** The rest of the interpreter's Unicode tables is not part of the
    repository: it is a parameter.  The tables are consulted only for
    non-ASCII characters that are neither whitespace, nor ideographs, nor
    one of the symbols above. *)
Class DB := {
  (** the decimal value of a character of category Nd *)
  db_decimal : codepoint -> option N;
  (** [str.isalpha() or str.isdigit() or str.isnumeric()] *)
  db_alnum : codepoint -> bool;
  (** the full upper-case mapping, which may give several characters *)
  db_upper : codepoint -> pystr;
  (** [float(s)] on the strings that are not plain decimal numerals
      (signs, exponents, [inf], [nan], underscores, padding);
      [None] when it raises *)
  db_float : pystr -> option float
}.

Section Tables.
Context {db : DB}.

Definition known (c : codepoint) : bool :=
  is_ascii c || isspace c || is_cjk c || is_source_symbol c.

(** [Py_UNICODE_TODECIMAL]. *)
Definition todecimal (c : codepoint) : option N :=
  if is_ascii c then (if in_range 48 57 c then Some (c - 48) else None)
  else if known c then None
  else db_decimal c.

(** [str.isdecimal] on one character: the class [\d] of a [str] pattern. *)
Definition isdecimal (c : codepoint) : bool :=
  match todecimal c with Some _ => true | None => false end.

(** [str.isalnum] on one character. *)
Definition isalnum (c : codepoint) : bool :=
  if is_ascii c then in_range 48 57 c || in_range 65 90 c || in_range 97 122 c
  else if isspace c then false
  else if is_cjk c then true
  else if is_source_symbol c then false
  else isdecimal c || db_alnum c.

(** A word character of the [re] module: alphanumeric or underscore. *)
Definition isword (c : codepoint) : bool := isalnum c || (c =? 95).

(** [str.upper] on one character. *)
Definition upper_char (c : codepoint) : pystr :=
  if is_ascii c then [if in_range 97 122 c then c - 32 else c]
  else if known c then [c]
  else db_upper c.

End Tables.

(** A database that knows nothing beyond the fixed part: every other
    character is caseless and is neither a digit nor a letter. *)
Definition plain_db : DB :=
  {| db_decimal := fun _ => None;
     db_alnum := fun _ => false;
     db_upper := fun c => [c];
     db_float := fun _ => None |}.

End Unicode.

Export Unicode (DB, db_decimal, db_alnum, db_upper, db_float).

(* ================================================================== *)
(** * The string methods the extractor calls *)
(* ================================================================== *)

Module Str.

Fixpoint dropwhile (p : codepoint -> bool) (s : pystr) : pystr :=
  match s with
  | [] => []
  | c :: tl => if p c then dropwhile p tl else s
  end.

Definition lstrip_by (p : codepoint -> bool) (s : pystr) : pystr :=
  dropwhile p s.

Definition rstrip_by (p : codepoint -> bool) (s : pystr) : pystr :=
  rev (dropwhile p (rev s)).

Definition strip_by (p : codepoint -> bool) (s : pystr) : pystr :=
  rstrip_by p (lstrip_by p s).

(** [s.strip()] *)
Definition strip (s : pystr) : pystr := strip_by Unicode.isspace s.

Definition mem (c : codepoint) (chars : pystr) : bool :=
  existsb (N.eqb c) chars.

(** [s.strip(chars)] *)
Definition strip_chars (chars s : pystr) : pystr :=
  strip_by (fun c => mem c chars) s.

(** [s.splitlines()]: a line ends at a line break, [\r\n] counts as one
    break, and no empty line follows the last break. *)
Fixpoint splitlines (s : pystr) : list pystr :=
  match s with
  | [] => []
  | c :: tl =>
      if Unicode.islinebreak c then
        [] :: (match tl with
               | n :: tl' =>
                   if (c =? 13)%N && (n =? 10)%N then splitlines tl'
                   else splitlines tl
               | [] => splitlines tl
               end)
      else
        match splitlines tl with
        | [] => [[c]]
        | ln :: rest => (c :: ln) :: rest
        end
  end.

(** [sep.join(parts)] *)
Fixpoint join (sep : pystr) (parts : list pystr) : pystr :=
  match parts with
  | [] => []
  | [p] => p
  | p :: rest => p ++ sep ++ join sep rest
  end.

Fixpoint starts_with (w s : pystr) : bool :=
  match w, s with
  | [], _ => true
  | _ :: _, [] => false
  | a :: w', b :: s' => (a =? b)%N && starts_with w' s'
  end.

(** [w in s] *)
Fixpoint contains (w s : pystr) : bool :=
  starts_with w s ||
  match s with
  | [] => false
  | _ :: tl => contains w tl
  end.

(** [s.replace(w, repl)]: the occurrences of [w] are found from the left
    without overlap and replaced.  [skip] counts the characters of the
    current occurrence still to drop.  An empty [w] occurs before every
    character and at the end. *)
Fixpoint replace_go (w repl : pystr) (skip : nat) (s : pystr) : pystr :=
  match s with
  | [] => []
  | c :: tl =>
      match skip with
      | S n => replace_go w repl n tl
      | O =>
          if starts_with w s
          then repl ++ replace_go w repl (Nat.pred (List.length w)) tl
          else c :: replace_go w repl 0 tl
      end
  end.

Definition replace (w repl s : pystr) : pystr :=
  match w with
  | [] => repl ++ flat_map (fun c => c :: repl) s
  | _ :: _ => replace_go w repl 0 s
  end.

Section WithDB.
Context {db : DB}.

(** [s.upper()] *)
Definition upper (s : pystr) : pystr := flat_map Unicode.upper_char s.

End WithDB.

End Str.

(* ================================================================== *)
(** * Python floats *)
(* ================================================================== *)

Module PyFloat.

(** The binary64 value nearest to [p/q], ties to even: the division of
    IEEE 754 carried out on exact integers of any size. *)
Definition nearest_binary64 (p : N) (q : positive) : float :=
  match p with
  | N0 => 0%float
  | Npos p' =>
      SF2Prim (SFdiv prec emax (S754_finite false p' 0) (S754_finite false q 0))
  end.

(** The value of a run of decimal digits, most significant first. *)
Definition digits_value (ds : list N) : N :=
  fold_left (fun acc d => (10 * acc + d)%N) ds 0%N.

(** [float] of the numeral [ip.fp] (or [ip] when [fp] is empty): the
    conversion of CPython is correctly rounded, and gives [inf] when the
    numeral is too large. *)
Definition float_of_numeral (ip fp : list N) : float :=
  nearest_binary64 (digits_value (ip ++ fp))
                   (Z.to_pos (Z.pow 10 (Z.of_nat (List.length fp)))).

(** The integer nearest to [n/d], ties to even. *)
Definition div_half_even (n : Z) (d : Z) : Z :=
  let q := (n / d)%Z in
  let r := (n mod d)%Z in
  match (2 * r ?= d)%Z with
  | Lt => q
  | Gt => (q + 1)%Z
  | Eq => if Z.even q then q else (q + 1)%Z
  end.

(** [round(x, ndigits)] for a small non-negative [ndigits]: CPython
    writes [x] in decimal, correctly rounded half-even to [ndigits] places,
    and reads the numeral back. *)
Definition round (x : float) (ndigits : nat) : float :=
  match Prim2SF x with
  | S754_finite sg m e =>
      let scale := Z.pow 10 (Z.of_nat ndigits) in
      let n := (Z.pos m * scale)%Z in
      let k := match e with
               | Zneg b => div_half_even n (Z.pow 2 (Z.pos b))
               | _ => (n * Z.pow 2 e)%Z
               end in
      let r := nearest_binary64 (Z.to_N k) (Z.to_pos scale) in
      if sg then (- r)%float else r
  | _ => x
  end.

(** [min(a, b)] and [max(a, b)] of the builtins: the first argument is
    kept unless the second is strictly smaller (greater). *)
Definition min (a b : float) : float := if (b <? a)%float then b else a.
Definition max (a b : float) : float := if (a <? b)%float then b else a.

End PyFloat.

(* ================================================================== *)
(** * Regular expressions *)
(* ================================================================== *)

Module Re.

(** The character classes the patterns of the source use. *)
Inductive cclass : Type :=
| CChar (c : codepoint)      (** one literal character *)
| CDigit                     (** [\d] *)
| CSpace                     (** [\s] *)
| CNotSpace                  (** [\S] *)
| CSet (chars : pystr).      (** [[...]] *)

(** The fragment of the pattern language the source uses.  Repetition is
    only ever applied to a character class. *)
Inductive regex : Type :=
| Eps
| Cls (c : cclass)
| Lit (w : pystr)                    (** a literal string *)
| Seq (a b : regex)
| Alt (a b : regex)                  (** [a|b], [a] first *)
| Opt (a : regex)                    (** [a?], greedy *)
| Star (c : cclass)                  (** [c*], greedy *)
| Plus (c : cclass)                  (** [c+], greedy *)
| Named (name : string) (a : regex)  (** [(?P<name>a)] *)
| Grp (a : regex)                    (** [(a)] and [(?:a)]: the source never
                                         reads a numbered group *)
| WordB.                             (** [\b] *)

(** Patterns without a named group. *)
Fixpoint no_named (r : regex) : bool :=
  match r with
  | Seq a b | Alt a b => no_named a && no_named b
  | Opt a | Grp a => no_named a
  | Named _ _ => false
  | _ => true
  end.

(** Patterns that end with [\b]. *)
Fixpoint ends_with_boundary (r : regex) : bool :=
  match r with
  | Seq _ b => ends_with_boundary b
  | WordB => true
  | _ => false
  end.

Fixpoint seq (rs : list regex) : regex :=
  match rs with
  | [] => Eps
  | [r] => r
  | r :: rs' => Seq r (seq rs')
  end.

(** [w1|w2|...] over literal strings; the list is never empty in the source. *)
Fixpoint alts (ws : list pystr) : regex :=
  match ws with
  | [] => Lit []
  | [w] => Lit w
  | w :: ws' => Alt (Lit w) (alts ws')
  end.

(** A position of the matcher in the subject: the character before it, the
    characters from it on, its index, and the named groups closed so far. *)
Record mstate : Type := MState {
  prev : option codepoint;
  rest : pystr;
  pos : nat;
  caps : list (string * pystr)
}.

(** The result of a successful search: a match object. *)
Record Match : Type := MkMatch {
  m_start : nat;
  m_end : nat;
  m_caps : list (string * pystr)
}.

Fixpoint assoc (name : string) (l : list (string * pystr)) : option pystr :=
  match l with
  | [] => None
  | (k, v) :: l' => if String.eqb name k then Some v else assoc name l'
  end.

(** [m.group(name)] *)
Definition group (m : Match) (name : string) : option pystr :=
  assoc name (m_caps m).

Section WithDB.
Context {db : DB}.

Definition in_class (c : cclass) (x : codepoint) : bool :=
  match c with
  | CChar y => (x =? y)%N
  | CDigit => Unicode.isdecimal x
  | CSpace => Unicode.isspace x
  | CNotSpace => negb (Unicode.isspace x)
  | CSet chars => Str.mem x chars
  end.

Definition word_before (st : mstate) : bool :=
  match prev st with Some c => Unicode.isword c | None => false end.

Definition word_after (st : mstate) : bool :=
  match rest st with c :: _ => Unicode.isword c | [] => false end.

(** [\b]: exactly one of the two neighbours is a word character. *)
Definition boundary (st : mstate) : bool :=
  xorb (word_before st) (word_after st).

(** The positions after [c*], longest run first. *)
Fixpoint star (c : cclass) (pv : option codepoint) (s : pystr) (p : nat)
  (cp : list (string * pystr)) : list mstate :=
  match s with
  | x :: tl =>
      if in_class c x then star c (Some x) tl (S p) cp ++ [MState pv s p cp]
      else [MState pv s p cp]
  | [] => [MState pv s p cp]
  end.

Definition last_char (w : pystr) (pv : option codepoint) : option codepoint :=
  match rev w with c :: _ => Some c | [] => pv end.

(** Every way [r] can match from [st], in the order the backtracking
    matcher of [re] tries them: the head is the match it reports. *)
Fixpoint rmatch (r : regex) (st : mstate) : list mstate :=
  match r with
  | Eps => [st]
  | Cls c =>
      match rest st with
      | x :: tl =>
          if in_class c x then [MState (Some x) tl (S (pos st)) (caps st)]
          else []
      | [] => []
      end
  | Lit w =>
      if Str.starts_with w (rest st)
      then [MState (last_char w (prev st)) (skipn (List.length w) (rest st))
                   (pos st + List.length w) (caps st)]
      else []
  | Seq a b => flat_map (rmatch b) (rmatch a st)
  | Alt a b => rmatch a st ++ rmatch b st
  | Opt a => rmatch a st ++ [st]
  | Star c => star c (prev st) (rest st) (pos st) (caps st)
  | Plus c =>
      match rest st with
      | x :: tl =>
          if in_class c x then star c (Some x) tl (S (pos st)) (caps st)
          else []
      | [] => []
      end
  | Named name a =>
      map (fun st' =>
             MState (prev st') (rest st') (pos st')
                    ((name, firstn (pos st' - pos st) (rest st)) :: caps st'))
          (rmatch a st)
  | Grp a => rmatch a st
  | WordB => if boundary st then [st] else []
  end.

(** The strings [r] can consume, word boundaries aside: what a match of [r]
    looks like, whatever surrounds it. *)
Fixpoint lang (r : regex) (w : pystr) : Prop :=
  match r with
  | Eps => w = []
  | Cls c => exists x, w = [x] /\ in_class c x = true
  | Lit l => w = l
  | Seq a b => exists w1 w2, w = w1 ++ w2 /\ lang a w1 /\ lang b w2
  | Alt a b => lang a w \/ lang b w
  | Opt a => lang a w \/ w = []
  | Star c => forallb (in_class c) w = true
  | Plus c => w <> [] /\ forallb (in_class c) w = true
  | Named _ a => lang a w
  | Grp a => lang a w
  | WordB => w = []
  end.

(** The match that starts at a given position, if any. *)
Definition match_at (r : regex) (pv : option codepoint) (s : pystr) (p : nat)
  : option Match :=
  match rmatch r (MState pv s p []) with
  | st' :: _ => Some (MkMatch p (pos st') (caps st'))
  | [] => None
  end.

Fixpoint search_from (r : regex) (pv : option codepoint) (s : pystr) (p : nat)
  : option Match :=
  match match_at r pv s p with
  | Some m => Some m
  | None =>
      match s with
      | [] => None
      | c :: tl => search_from r (Some c) tl (S p)
      end
  end.

(** [re.search(r, s)]: the leftmost match. *)
Definition search (r : regex) (s : pystr) : option Match :=
  search_from r None s 0.

(** [re.sub(r, repl, s)] for a literal [repl] and a pattern that matches no
    empty string: the matches are found from the left without overlap and
    replaced; each search still sees the character before it.  [skip]
    counts the characters of the current match still to drop. *)
Fixpoint sub_go (r : regex) (repl : pystr) (skip : nat)
  (pv : option codepoint) (s : pystr) (p : nat) : pystr :=
  match s with
  | [] => []
  | c :: tl =>
      match skip with
      | S n => sub_go r repl n (Some c) tl (S p)
      | O =>
          match match_at r pv s p with
          | Some m =>
              match m_end m - p with
              | S n => repl ++ sub_go r repl n (Some c) tl (S p)
              | O => c :: sub_go r repl 0 (Some c) tl (S p)
              end
          | None => c :: sub_go r repl 0 (Some c) tl (S p)
          end
      end
  end.

Definition sub (r : regex) (repl s : pystr) : pystr :=
  sub_go r repl 0 None s 0.

End WithDB.

End Re.

(* ================================================================== *)
(** * The extractor of [src/extractor.py] *)
(* ================================================================== *)

Module Extractor.

Import Re.

(** The dictionary the extractor returns: its seven keys are fixed, so it is
    a record; [None] is an unset field. *)
Record ProcurementRecord : Type := MkRecord {
  item_name : option pystr;
  specification : option pystr;
  quantity : option float;
  unit_price : option float;
  currency : pystr;
  source_text : pystr;
  confidence : float
}.

(** The assignments [result[key] = v] of the source. *)
Definition set_item_name (r : ProcurementRecord) (v : pystr) :=
  MkRecord (Some v) (specification r) (quantity r) (unit_price r)
           (currency r) (source_text r) (confidence r).
Definition set_specification (r : ProcurementRecord) (v : pystr) :=
  MkRecord (item_name r) (Some v) (quantity r) (unit_price r)
           (currency r) (source_text r) (confidence r).
Definition set_quantity (r : ProcurementRecord) (v : float) :=
  MkRecord (item_name r) (specification r) (Some v) (unit_price r)
           (currency r) (source_text r) (confidence r).
Definition set_unit_price (r : ProcurementRecord) (v : float) :=
  MkRecord (item_name r) (specification r) (quantity r) (Some v)
           (currency r) (source_text r) (confidence r).
Definition set_currency (r : ProcurementRecord) (v : pystr) :=
  MkRecord (item_name r) (specification r) (quantity r) (unit_price r)
           v (source_text r) (confidence r).
Definition set_confidence (r : ProcurementRecord) (v : float) :=
  MkRecord (item_name r) (specification r) (quantity r) (unit_price r)
           (currency r) (source_text r) v.

(** [result["confidence"] += b] *)
Definition add_confidence (r : ProcurementRecord) (b : float) :=
  set_confidence r (confidence r + b)%float.

(** [\d+(?:\.\d+)?], the numeral every pattern shares. *)
Definition number : regex :=
  Seq (Plus CDigit) (Opt (Grp (Seq (Cls (CChar 46%N)) (Plus CDigit)))).

(** The unit vocabularies, as the alternations of the source list them. *)
Definition yuan_words : list pystr := [utf8 "元"; utf8 "块"].
Definition metre_units : list pystr := [utf8 "米"; utf8 "m"; utf8 "M"].
Definition small_length_units : list pystr :=
  [utf8 "cm"; utf8 "CM"; utf8 "毫米"; utf8 "mm"; utf8 "MM"].
Definition watt_units : list pystr := [utf8 "瓦"; utf8 "W"; utf8 "w"].
Definition spec_labels : list pystr := [utf8 "型号"; utf8 "规格"; utf8 "尺寸"].
Definition first_line_units : list pystr :=
  [utf8 "米"; utf8 "m"; utf8 "cm"; utf8 "mm"; utf8 "瓦"; utf8 "W"].
Definition countable_units : list pystr :=
  [utf8 "个"; utf8 "条"; utf8 "套"; utf8 "箱"; utf8 "件"; utf8 "只";
   utf8 "根"; utf8 "卷"].

(** [[:：]?] *)
Definition opt_colon : regex := Opt (Cls (CSet (utf8 ":："))).

(** [(?P<price>\d+(?:\.\d+)?)\s*(元|块)\b] *)
Definition price_yuan_pattern : regex :=
  seq [Named "price" number; Star CSpace; Grp (alts yuan_words); WordB].
(** [￥\s*(?P<price>\d+(?:\.\d+)?)\b] *)
Definition price_sign_pattern : regex :=
  seq [Lit (utf8 "￥"); Star CSpace; Named "price" number; WordB].
(** [RMB\s*(?P<price>\d+(?:\.\d+)?)\b] *)
Definition price_rmb_pattern : regex :=
  seq [Lit (utf8 "RMB"); Star CSpace; Named "price" number; WordB].

Definition price_patterns : list regex :=
  [price_yuan_pattern; price_sign_pattern; price_rmb_pattern].

(** A numeral, blanks, one of [units], a word boundary. *)
Definition unit_pattern (units : list pystr) : regex :=
  seq [number; Star CSpace; Grp (alts units); WordB].

(** [(型号|规格|尺寸)\s*[:：]?\s*\S+] *)
Definition spec_label_pattern : regex :=
  seq [Grp (alts spec_labels); Star CSpace; opt_colon; Star CSpace;
       Plus CNotSpace].

Definition spec_patterns : list regex :=
  [ unit_pattern metre_units;          (* \d+(?:\.\d+)?\s*(米|m|M)\b *)
    unit_pattern small_length_units;   (* \d+(?:\.\d+)?\s*(cm|CM|毫米|mm|MM)\b *)
    unit_pattern watt_units;           (* \d+(?:\.\d+)?\s*(瓦|W|w)\b *)
    spec_label_pattern ].

(** [\d+(?:\.\d+)?\s*(米|m|cm|mm|瓦|W)\b], written twice in the source: for
    the first-line fallback of the specification and for cleaning the item
    name. *)
Definition first_line_spec_pattern : regex := unit_pattern first_line_units.

(** [(?P<qty>\d+(?:\.\d+)?)\s*(个|条|套|箱|件|只|根|卷)\b] *)
Definition qty_unit_pattern : regex :=
  seq [Named "qty" number; Star CSpace; Grp (alts countable_units); WordB].
(** [数量\s*[:：]?\s*(?P<qty>\d+(?:\.\d+)?)\b] *)
Definition qty_label_pattern : regex :=
  seq [Lit (utf8 "数量"); Star CSpace; opt_colon; Star CSpace;
       Named "qty" number; WordB].

Definition qty_patterns : list regex := [qty_unit_pattern; qty_label_pattern].

Definition noisy_words : list pystr :=
  [utf8 "价格"; utf8 "便宜"; utf8 "要不要"; utf8 "看看"; utf8 "可以吗";
   utf8 "行不行"; utf8 "怎么样"; utf8 "报个价"].

(** The characters of [cleaned.strip(" ,，:：-—/")]. *)
Definition name_strip_chars : pystr := utf8 " ,，:：-—/".

Definition CNY : pystr := utf8 "CNY".
Definition USD : pystr := utf8 "USD".

Section WithDB.
Context {db : DB}.

(** A maximal run of decimal digits at the head of [s], as values. *)
Fixpoint span_digits (s : pystr) : list N * pystr :=
  match s with
  | [] => ([], [])
  | c :: tl =>
      match Unicode.todecimal c with
      | Some d => let (ds, r) := span_digits tl in (d :: ds, r)
      | None => ([], s)
      end
  end.

(** [float(s)], with [None] for the exception.  A plain numeral
    (digits, or digits, a dot and digits) is converted here; the rest of the
    grammar of [float] is the interpreter's. *)
Definition py_float (s : pystr) : option float :=
  let (ip, r) := span_digits s in
  match ip, r with
  | _ :: _, [] => Some (PyFloat.float_of_numeral ip [])
  | _ :: _, c :: r' =>
      if (c =? 46)%N then
        let (fp, r'') := span_digits r' in
        match fp, r'' with
        | _ :: _, [] => Some (PyFloat.float_of_numeral ip fp)
        | _, _ => db_float s
        end
      else db_float s
  | [], _ => db_float s
  end.

(** [try: return float(s) / except Exception: return None] *)
Definition _to_float (s : pystr) : option float := py_float s.

(** The inner loop of the price and quantity scans: the first pattern that
    matches the line decides ([break]), and its group is converted.  The
    outer [Some] says that a pattern matched.  A group that did not take part
    is Python's [None], on which [float] raises. *)
Fixpoint first_pattern (name : string) (pats : list regex) (ln : pystr)
  : option (option float) :=
  match pats with
  | [] => None
  | pat :: pats' =>
      match search pat ln with
      | Some m =>
          Some (match group m name with
                | Some s => _to_float s
                | None => None
                end)
      | None => first_pattern name pats' ln
      end
  end.

(** The outer loop: it stops at the first line that gave a number. *)
Fixpoint scan_lines (name : string) (pats : list regex) (lines : list pystr)
  : option float :=
  match lines with
  | [] => None
  | ln :: lines' =>
      match first_pattern name pats ln with
      | Some (Some v) => Some v
      | _ => scan_lines name pats lines'
      end
  end.

(** The truth value of [re.search(pat, ln)]. *)
Definition matches (pat : regex) (ln : pystr) : bool :=
  match search pat ln with Some _ => true | None => false end.

(** The specification: the first line some pattern matches, else the first
    line when the narrower pattern matches it. *)
Definition find_spec (lines : list pystr) : option pystr :=
  match find (fun ln => existsb (fun pat => matches pat ln) spec_patterns) lines with
  | Some ln => Some ln
  | None =>
      match lines with
      | first :: _ =>
          if matches first_line_spec_pattern first then Some first else None
      | [] => None
      end
  end.

(** The cleaning of the first line. *)
Definition clean_name (first : pystr) : pystr :=
  let cleaned := fold_left (fun acc w => Str.replace w [] acc) noisy_words first in
  let cleaned := sub first_line_spec_pattern [] cleaned in
  Str.strip_chars name_strip_chars cleaned.

(** [[ln.strip() for ln in text.splitlines() if ln.strip()]] *)
Definition normalize_lines (text : pystr) : list pystr :=
  map Str.strip (filter (fun ln => truthy (Str.strip ln)) (Str.splitlines text)).

(** Step 1: the default output. *)
Definition default_record (text : pystr) (lines : list pystr)
  : ProcurementRecord :=
  {| item_name := None;
     specification := None;
     quantity := None;
     unit_price := None;
     currency := CNY;
     source_text := match lines with
                    | [] => text
                    | _ :: _ => Str.join (utf8 " ") lines
                    end;
     confidence := 0.50%float |}.

(** Step 2: the price, then the currency. *)
Definition price_step (lines : list pystr) (result : ProcurementRecord) :=
  match scan_lines "price" price_patterns lines with
  | Some found_price =>
      add_confidence (set_unit_price result found_price) 0.20%float
  | None => result
  end.

Definition currency_step (text : pystr) (result : ProcurementRecord) :=
  if Str.contains (utf8 "$") text || Str.contains USD (Str.upper text)
  then set_currency result USD
  else result.

(** Step 3: the specification. *)
Definition spec_step (lines : list pystr) (result : ProcurementRecord) :=
  match find_spec lines with
  | Some found_spec =>
      add_confidence (set_specification result found_spec) 0.15%float
  | None => result
  end.

(** Step 4: the quantity. *)
Definition qty_step (lines : list pystr) (result : ProcurementRecord) :=
  match scan_lines "qty" qty_patterns lines with
  | Some found_qty => add_confidence (set_quantity result found_qty) 0.10%float
  | None => result
  end.

(** Step 5: the item name, from the first line. *)
Definition name_step (first : pystr) (result : ProcurementRecord) :=
  let cleaned := clean_name first in
  if truthy cleaned
  then add_confidence (set_item_name result cleaned) 0.15%float
  else add_confidence (set_item_name result first) 0.05%float.

(** Step 6: [max(0.0, min(1.0, round(confidence, 2)))]. *)
Definition clamp_confidence (c : float) : float :=
  PyFloat.max 0.0%float (PyFloat.min 1.0%float (PyFloat.round c 2)).

Definition clamp_step (result : ProcurementRecord) :=
  set_confidence result (clamp_confidence (confidence result)).

Definition extract_procurement_fields (raw_text : option pystr)
  : ProcurementRecord :=
  (* raw_text or "" *)
  let text := Str.strip (match raw_text with Some s => s | None => [] end) in
  let lines := normalize_lines text in
  let result := default_record text lines in
  match lines with
  | [] => set_confidence result 0.0%float
  | first :: _ =>
      let result := price_step lines result in
      let result := currency_step text result in
      let result := spec_step lines result in
      let result := qty_step lines result in
      let result := name_step first result in
      clamp_step result
  end.

(** The interface of the specification: [extract(raw_text)]. *)
Definition extract (raw_text : pystr) : ProcurementRecord :=
  extract_procurement_fields (Some raw_text).

End WithDB.

End Extractor.

Import Extractor.

(* ================================================================== *)
(** * The words of the specification *)
(* ================================================================== *)

(** What the specification speaks of and the source does not name: the score as a
    sum, the first match of a scan, numerals, vocabularies, and the reading
    of the item-name cleaning that trims all whitespace. *)
Module Spec.

Import Re.

(** ** The confidence score *)

(** The sum of the base and of the bonuses of the extractors that succeeded,
    added in the order of the extractors. *)
Definition bonus (applies : bool) (b : float) (c : float) : float :=
  if applies then (c + b)%float else c.

Definition score (price spec qty cleaned : bool) : float :=
  let c := 0.50%float in
  let c := bonus price 0.20%float c in
  let c := bonus spec 0.15%float c in
  let c := bonus qty 0.10%float c in
  if cleaned then (c + 0.15)%float else (c + 0.05)%float.

(** The same sum in exact hundredths. *)
Definition score_hundredths (price spec qty cleaned : bool) : Z :=
  50 + (if price then 20 else 0) + (if spec then 15 else 0)
  + (if qty then 10 else 0) + (if cleaned then 15 else 5).

(** The float written [k/100] with two decimals. *)
Definition hundredths (k : Z) : float :=
  PyFloat.nearest_binary64 (Z.to_N k) 100.

(** The clamp to [0,1], applied before rounding. *)
Definition clamp01 (c : float) : float :=
  PyFloat.max 0.0%float (PyFloat.min 1.0%float c).

Definition is_set {A : Type} (o : option A) : bool :=
  match o with Some _ => true | None => false end.

(** ** Vocabularies *)

(** The first characters of the words of a vocabulary. *)
Definition initials (ws : list pystr) : pystr := flat_map (firstn 1) ws.

(** The unit lists of the specification patterns. *)
Definition length_power_units : list (list pystr) :=
  [metre_units; small_length_units; watt_units; first_line_units].

(** The characters one of which a specification match must contain, and
    likewise for a quantity match. *)
Definition spec_vocabulary : pystr :=
  initials (List.concat length_power_units ++ spec_labels).
Definition qty_vocabulary : pystr :=
  initials (countable_units ++ [utf8 "数量"]).

(** The first element that is set. *)
Fixpoint first_some {A : Type} (l : list (option A)) : option A :=
  match l with
  | [] => None
  | Some a :: _ => Some a
  | None :: l' => first_some l'
  end.

(** ** Sample inputs: the sample of the source, which is the first scenario
    of the specification, and its second and third scenarios. *)
Definition scenario1 : pystr :=
  utf8 "灯带3.4米" ++ [LF] ++ utf8 "价格已经很便宜了," ++ [LF] ++
  utf8 "3.8元" ++ [LF] ++ utf8 "你要不要".
Definition scenario2 : pystr :=
  utf8 "数量：5" ++ [LF] ++ utf8 "型号：ABC-100" ++ [LF] ++ utf8 "￥120".
Definition scenario3 : pystr := utf8 "$9.99 each, 2 pieces".

Section WithDB.
Context {db : DB}.

(** The values of the digits of a run of decimal digits. *)
Definition digit_values (ds : pystr) : list N := fst (span_digits ds).

(** [s] is the numeral with integer digits [ds] and fraction digits [fs]
    (no fraction when [fs] is empty). *)
Definition is_numeral (s ds fs : pystr) : Prop :=
  forallb Unicode.isdecimal ds = true /\ ds <> [] /\
  forallb Unicode.isdecimal fs = true /\
  ((fs = [] /\ s = ds) \/ (fs <> [] /\ s = ds ++ 46%N :: fs)).

(** What a match gives for the number: its named group, converted. *)
Definition captured_value (name : string) (m : Match) : option float :=
  match group m name with
  | Some s => _to_float s
  | None => None
  end.

(** The first match in line-major, pattern-minor order. *)
Definition first_match (pats : list regex) (lines : list pystr)
  : option Match :=
  first_some (flat_map (fun ln => map (fun pat => search pat ln) pats) lines).

(** The three forms of a price: a numeral and a yuan word, the yuan sign and
    a numeral, [RMB] and a numeral, with blanks allowed in between. *)
Definition price_shape (w : pystr) : Prop :=
  exists s ds fs sp,
    is_numeral s ds fs /\ forallb Unicode.isspace sp = true /\
    ((exists u, In u yuan_words /\ w = s ++ sp ++ u) \/
     w = utf8 "￥" ++ sp ++ s \/
     w = utf8 "RMB" ++ sp ++ s).

(** The characters a numeral and the blanks after it are made of. *)
Definition numeral_or_blank (c : codepoint) : bool :=
  Unicode.isdecimal c || (c =? 46)%N || Unicode.isspace c.

(** A match of the pattern [r] sets the group [n] to a word of [a]. *)
Definition sets_group (n : string) (a r : regex) : Prop :=
  forall st st',
    In st' (rmatch r st) ->
    exists w, lang a w /\ caps st' = (n, w) :: caps st.

(** The name the fifth step writes. *)
Definition name_of (first : pystr) : pystr :=
  if truthy (clean_name first) then clean_name first else first.

(** The first line before its ends are trimmed. *)
Definition untrimmed_name (first : pystr) : pystr :=
  sub first_line_spec_pattern []
    (fold_left (fun acc w => Str.replace w [] acc) noisy_words first).

(** The cleaning as the specification words its fourth step, trimming
    whitespace of any kind together with the punctuation; and the name that
    would follow from it. *)
Definition clean_name_spec (first : pystr) : pystr :=
  Str.strip_by (fun c => Unicode.isspace c || Str.mem c name_strip_chars)
               (untrimmed_name first).

Definition name_of_spec (first : pystr) : pystr :=
  if truthy (clean_name_spec first) then clean_name_spec first else first.

End WithDB.

End Spec.

Import Spec.

(* ================================================================== *)
(** * Lines, one character at a time *)
(* ================================================================== *)

(** The two moves of [Str.splitlines] on a character, named. *)
Module Lines.

(** A character that is no line break joins the line that follows it. *)
Definition cons_head (c : codepoint) (l : list pystr) : list pystr :=
  match l with
  | [] => [[c]]
  | ln :: rest => (c :: ln) :: rest
  end.

(** What is left after the break [c]: [\r\n] is one break. *)
Definition after_break (c : codepoint) (tl : pystr) : pystr :=
  match tl with
  | n :: tl' => if (c =? 13)%N && (n =? 10)%N then tl' else tl
  | [] => tl
  end.

(** A text put before the first line. *)
Definition app_head (pre : pystr) (l : list pystr) : list pystr :=
  match l with
  | [] => [pre]
  | ln :: rest => (pre ++ ln) :: rest
  end.

(** The comprehension of the extractor on lines already split. *)
Definition norm_list (l : list pystr) : list pystr :=
  map Str.strip (filter (fun ln => truthy (Str.strip ln)) l).

Definition blank (ln : pystr) : Prop := forallb Unicode.isspace ln = true.

(** The word [w] occurs in [s] once every character is replaced by [g]. *)
Definition hit (g : codepoint -> pystr) (w s : pystr) : bool :=
  Str.contains w (flat_map g s).

End Lines.

(* ================================================================== *)
(** * More words for the extractor *)
(* ================================================================== *)

Module Spec2.

Import Re.

(** A line as the extractor keeps it: not empty, and trimmed. *)
Definition trimmed (ln : pystr) : Prop := ln <> [] /\ Str.strip ln = ln.

(** [a] is [b] with some characters left out. *)
Inductive Subseq : pystr -> pystr -> Prop :=
| subseq_nil : Subseq [] []
| subseq_skip (x : codepoint) (a b : pystr) : Subseq a b -> Subseq a (x :: b)
| subseq_keep (x : codepoint) (a b : pystr) :
    Subseq a b -> Subseq (x :: a) (x :: b).

(** The colon the labelled patterns allow: none, or one of [:] and [：]. *)
Definition colon_opt (w : pystr) : Prop :=
  w = [] \/ exists x, w = [x] /\ In x (utf8 ":：").

Section WithDB.
Context {db : DB}.

(** The two forms of a quantity: a numeral and a countable unit, or the
    label, an optional colon and a numeral, with blanks allowed in between. *)
Definition qty_shape (w : pystr) : Prop :=
  exists s ds fs sp,
    is_numeral s ds fs /\ forallb Unicode.isspace sp = true /\
    ((exists u, In u countable_units /\ w = s ++ sp ++ u) \/
     (exists sp1 col, forallb Unicode.isspace sp1 = true /\ colon_opt col /\
                      w = utf8 "数量" ++ sp1 ++ col ++ sp ++ s)).

(** The units of the three unit patterns of the specification. *)
Definition spec_units : list pystr :=
  metre_units ++ small_length_units ++ watt_units.

(** The two forms of a specification token: a numeral and a unit of length
    or power, or a label, an optional colon and a run of characters that are
    no whitespace, with blanks allowed in between. *)
Definition spec_unit_shape (w : pystr) : Prop :=
  exists s ds fs sp u,
    is_numeral s ds fs /\ forallb Unicode.isspace sp = true /\
    In u spec_units /\ w = s ++ sp ++ u.

Definition spec_label_shape (w : pystr) : Prop :=
  exists lab sp1 col sp2 tok,
    In lab spec_labels /\ forallb Unicode.isspace sp1 = true /\
    colon_opt col /\ forallb Unicode.isspace sp2 = true /\
    tok <> [] /\ forallb (fun c => negb (Unicode.isspace c)) tok = true /\
    w = lab ++ sp1 ++ col ++ sp2 ++ tok.

(** Some pattern of the list matches the line. *)
Definition any_match (pats : list regex) (ln : pystr) : bool :=
  existsb (fun pat => matches pat ln) pats.

End WithDB.

End Spec2.

Import Spec2.


(* ================================================================== *)
(** * The driver of [src/main.py] *)
(* ================================================================== *)

Module Main.

(** ** [is_image_file] *)

Definition image_suffixes : list pystr :=
  [utf8 ".png"; utf8 ".jpg"; utf8 ".jpeg"; utf8 ".webp"; utf8 ".bmp";
   utf8 ".tiff"].

(** [s.endswith(suffix)] *)
Definition ends_with (suffix s : pystr) : bool :=
  Str.starts_with (rev suffix) (rev s).

(** [str.lower] on an ASCII character. *)
Definition ascii_lower (c : codepoint) : codepoint :=
  if Unicode.in_range 65%N 90%N c then (c + 32)%N else c.

Section WithLower.

(** [str.lower] on a character outside ASCII: what it gives may depend on
    the characters before and after (the final sigma) and may be several
    characters. *)
Variable lower_other : pystr -> codepoint -> pystr -> pystr.

Definition lower_char (before : pystr) (c : codepoint) (after : pystr)
  : pystr :=
  if Unicode.is_ascii c then [ascii_lower c]
  else lower_other before c after.

Fixpoint lower_go (before s : pystr) : pystr :=
  match s with
  | [] => []
  | c :: tl => lower_char before c tl ++ lower_go (before ++ [c]) tl
  end.

(** [s.lower()] *)
Definition lower (s : pystr) : pystr := lower_go [] s.

(** [filename.lower().endswith((".png", ...))]: one of the suffixes ends
    the lowered name. *)
Definition is_image_file (filename : pystr) : bool :=
  existsb (fun suffix => ends_with suffix (lower filename)) image_suffixes.

End WithLower.

(** ** [ocr_one_image] *)

(** One entry of [items]: the keys [text] and [conf]. *)
Record OcrItem : Type := MkItem {
  item_text : pystr;
  item_conf : float
}.

(** The dictionary [ocr_one_image] returns. *)
Record OcrOutput : Type := MkOutput {
  image : pystr;
  path : pystr;
  raw_text : pystr;
  items : list OcrItem
}.

Fixpoint takewhile (p : codepoint -> bool) (s : pystr) : pystr :=
  match s with
  | [] => []
  | c :: tl => if p c then c :: takewhile p tl else []
  end.

(** [os.path.basename] of [posixpath]: what follows the last slash. *)
Definition basename (p : pystr) : pystr :=
  rev (takewhile (fun c => negb (c =? 47)%N) (rev p)).

Section WithReader.

(** The boxes of the reader are carried along and never read. *)
Variable Box : Type.

(** One result of [reader.readtext(path, detail=1)]: the box, the text,
    which [text or ""] allows to be [None], and the confidence, a float
    that [float(conf)] leaves as it is. *)
Definition OcrResult : Type := (Box * option pystr * float)%type.

(** The loop over the results: a text that is empty once trimmed is
    skipped. *)
Fixpoint ocr_items (results : list OcrResult) : list OcrItem :=
  match results with
  | [] => []
  | (_, text, conf) :: results' =>
      let text := Str.strip (match text with Some t => t | None => [] end) in
      if truthy text
      then MkItem text conf :: ocr_items results'
      else ocr_items results'
  end.

Variable readtext : pystr -> list OcrResult.

Definition ocr_one_image (image_path : pystr) : OcrOutput :=
  let results := readtext image_path in
  let items := ocr_items results in
  let raw_text := Str.join [LF] (map item_text items) in
  {| image := basename image_path;
     path := image_path;
     raw_text := raw_text;
     items := items |}.

Context {db : DB}.

(** The loop of [main]: each image is read and its text extracted from;
    [out.get("raw_text", "")] finds the key, which is always there. *)
Definition process_images (images : list pystr)
  : list OcrOutput * list ProcurementRecord :=
  let outputs := map ocr_one_image images in
  (outputs,
   map (fun out => extract_procurement_fields (Some (raw_text out))) outputs).

End WithReader.

(** ** [collect_images] *)

(** What [collect_images] asks of the file system. *)
Record FileSystem : Type := MkFS {
  isdir : pystr -> bool;           (** [os.path.isdir] *)
  isfile : pystr -> bool;          (** [os.path.isfile] *)
  listdir : pystr -> list pystr    (** [os.listdir], of a directory *)
}.

(** [os.path.join(a, b)] of [posixpath]. *)
Definition path_join (a b : pystr) : pystr :=
  if Str.starts_with [47%N] b then b
  else if negb (truthy a) || ends_with [47%N] a then a ++ b
  else a ++ [47%N] ++ b.

(** [a <= b] on strings: by code points, the shorter of a string and its
    extension first. *)
Fixpoint str_leb (a b : pystr) : bool :=
  match a, b with
  | [], _ => true
  | _ :: _, [] => false
  | x :: a', y :: b' =>
      if (x <? y)%N then true
      else if (y <? x)%N then false
      else str_leb a' b'
  end.

Fixpoint insert_sorted (x : pystr) (l : list pystr) : list pystr :=
  match l with
  | [] => [x]
  | y :: l' => if str_leb x y then x :: l else y :: insert_sorted x l'
  end.

(** [sorted(names)]: the order on strings is total and equal strings are
    the same string, so the sorted list does not depend on the method. *)
Definition sorted (names : list pystr) : list pystr :=
  fold_right insert_sorted [] names.

Section WithFS.

Variable lower_other : pystr -> codepoint -> pystr -> pystr.
Variable fs : FileSystem.

Definition collect_images (input_path : pystr) : list pystr :=
  if isdir fs input_path then
    flat_map (fun fn =>
                let full := path_join input_path fn in
                if isfile fs full && is_image_file lower_other fn
                then [full] else [])
             (sorted (listdir fs input_path))
  else if isfile fs input_path && is_image_file lower_other input_path
  then [input_path]
  else [].

End WithFS.

End Main.

(* ================================================================== *)
(** * Parsed JSON, and what Python does with it *)
(* ================================================================== *)

Module Json.

(** What [json.loads] gives: [None], a bool, an int, a float, a [str], a
    list or a dict.  A dict is the list of its items, each key once. *)
#[warnings="-register-all"] Inductive json : Type :=
| JNull
| JBool (b : bool)
| JInt (n : Z)
| JFloat (x : float)
| JStr (s : pystr)
| JArr (l : list json)
| JObj (kv : list (pystr * json)).

(** The exceptions the two services can end with; what [requests] raises
    is kept as it is. *)
Inductive exn : Type :=
| TypeError
| KeyError
| AttributeError
| RuntimeError (message : pystr) (data : json)
| RequestError (code : N).

(** A call returns or raises. *)
Inductive outcome (A : Type) : Type :=
| Returns (a : A)
| Raises (e : exn).

Arguments Returns {A} a.
Arguments Raises {A} e.

Fixpoint str_eqb (a b : pystr) : bool :=
  match a, b with
  | [], [] => true
  | x :: a', y :: b' => (x =? y)%N && str_eqb a' b'
  | _, _ => false
  end.

(** The value of a key of a dict. *)
Fixpoint lookup (key : pystr) (kv : list (pystr * json)) : option json :=
  match kv with
  | [] => None
  | (k, v) :: kv' => if str_eqb key k then Some v else lookup key kv'
  end.


(** [data[key]] for a [str] key: only a dict is indexed by a string. *)
Definition py_getitem (data : json) (key : pystr) : outcome json :=
  match data with
  | JObj kv =>
      match lookup key kv with
      | Some v => Returns v
      | None => Raises KeyError
      end
  | _ => Raises TypeError
  end.

(** [data.get(key)]: a method of dicts only. *)
Definition py_get (data : json) (key : pystr) : outcome (option json) :=
  match data with
  | JObj kv => Returns (lookup key kv)
  | _ => Raises AttributeError
  end.

(** [v != 0], where [v] may be the [None] of a missing key: the values
    equal to [0] are the int [0], the floats [0.0] and [-0.0], and
    [False]. *)
Definition ne_zero (v : option json) : bool :=
  match v with
  | Some (JInt n) => negb (n =? 0)%Z
  | Some (JFloat x) => negb (x =? 0)%float
  | Some (JBool b) => b
  | _ => true
  end.

End Json.

(* ================================================================== *)
(** * The webhook of [src/webhook_server.py] *)
(* ================================================================== *)

Module Webhook.

Import Json.


End Webhook.

(* ================================================================== *)
(** * The upload of [src/feishu_upload.py] *)
(* ================================================================== *)

Module Feishu.

Import Json.

(** A call [requests.post(url, headers=..., json=..., timeout=...)]: the
    headers given by the caller and the body as [json.dumps] writes it. *)
Record Request : Type := MkRequest {
  url : pystr;
  headers : list (pystr * pystr);
  body : json;
  timeout : N
}.

Definition token_url : pystr :=
  utf8 "https://open.feishu.cn/open-apis/auth/v3/tenant_access_token/internal".

Section WithService.

(** The module constants, read with [os.getenv]: [None] when unset. *)
Variables APP_ID APP_SECRET BASE_APP_TOKEN TABLE_ID RAW_TEXT_FIELD
  : option pystr.

(** [str(v)] for a value that is no string. *)
Variable str_other : json -> pystr.

(** The service: what [requests.post(...)] followed by [resp.json()] gives
    for a request, after the requests made before it. *)
Variable post : list Request -> Request -> outcome json.

(** A constant as a value of a JSON body, inside an f-string, and as a key
    of a JSON body. *)
Definition env_value (v : option pystr) : json :=
  match v with Some s => JStr s | None => JNull end.
Definition env_format (v : option pystr) : pystr :=
  match v with Some s => s | None => utf8 "None" end.
Definition env_key (v : option pystr) : pystr :=
  match v with Some s => s | None => utf8 "null" end.

(** [f"{v}"] *)
Definition format (v : json) : pystr :=
  match v with JStr s => s | _ => str_other v end.

Definition token_request : Request :=
  {| url := token_url;
     headers := [];
     body := JObj [(utf8 "app_id", env_value APP_ID);
                   (utf8 "app_secret", env_value APP_SECRET)];
     timeout := 15 |}.

(** The check both functions make on an answer: [data.get("code") != 0]
    raises [RuntimeError] with the given message and the data. *)
Definition check_code (message : pystr) (data : json) : outcome json :=
  match py_get data (utf8 "code") with
  | Raises e => Raises e
  | Returns code =>
      if ne_zero code then Raises (RuntimeError message data)
      else Returns data
  end.

(** The functions take the requests made so far and give them back with
    their own. *)
Definition get_tenant_access_token (log : list Request)
  : outcome json * list Request :=
  let log' := log ++ [token_request] in
  match post log token_request with
  | Raises e => (Raises e, log')
  | Returns data =>
      match check_code (utf8 "获取 tenant_access_token 失败：") data with
      | Raises e => (Raises e, log')
      | Returns data => (py_getitem data (utf8 "tenant_access_token"), log')
      end
  end.

Definition record_request (token : json) (raw_text : pystr) : Request :=
  {| url := utf8 "https://open.feishu.cn/open-apis/bitable/v1/apps/"
            ++ env_format BASE_APP_TOKEN ++ utf8 "/tables/"
            ++ env_format TABLE_ID ++ utf8 "/records";
     headers := [(utf8 "Authorization", utf8 "Bearer " ++ format token);
                 (utf8 "Content-Type", utf8 "application/json; charset=utf-8")];
     body := JObj [(utf8 "fields",
                    JObj [(env_key RAW_TEXT_FIELD, JStr raw_text)])];
     timeout := 15 |}.

Definition create_record (raw_text : pystr) (log : list Request)
  : outcome json * list Request :=
  match get_tenant_access_token log with
  | (Raises e, log1) => (Raises e, log1)
  | (Returns token, log1) =>
      let request := record_request token raw_text in
      let log2 := log1 ++ [request] in
      match post log1 request with
      | Raises e => (Raises e, log2)
      | Returns data => (check_code (utf8 "写入记录失败：") data, log2)
      end
  end.

End WithService.

End Feishu.
(* ================================================================== *)
(** * Tactics *)
(* ================================================================== *)

(** Boolean tests on code points, read as propositions. *)
Ltac bool_to_prop :=
  repeat match goal with
    | H : _ || _ = true |- _ => apply orb_prop in H; destruct H as [H|H]
    | H : _ && _ = true |- _ => apply andb_prop in H; destruct H as [? H]
    | H : (_ <=? _)%N = true |- _ => apply N.leb_le in H
    | H : (_ =? _)%N = true |- _ => apply N.eqb_eq in H
    | H : (_ <? _)%N = true |- _ => apply N.ltb_lt in H
    end.

(** Membership in a list that computes. *)
Ltac decide_in :=
  vm_compute; repeat (first [left; reflexivity | right]).

(** Every element of one computed list belongs to another. *)
Ltac vocab_sub :=
  let c := fresh "c" in let H := fresh "H" in
  intros c H; vm_compute in H;
  repeat (destruct H as [<-|H]; [decide_in|]); contradiction.

(** The empty word is not in a computed list of words. *)
Ltac no_empty_word :=
  let H := fresh "H" in
  intros H; vm_compute in H;
  repeat (destruct H as [H|H]; [discriminate|]); contradiction.

(* ================================================================== *)
(** * Facts about the string methods *)
(* ================================================================== *)

Module StrFacts.

Import Str.

Lemma dropwhile_all (p : codepoint -> bool) (s : pystr) :
  forallb p s = true -> dropwhile p s = [].
Proof.
  induction s as [|c tl IH]; simpl; [reflexivity|].
  intros H. apply andb_prop in H as [Hc Htl]. rewrite Hc. auto.
Qed.

Lemma dropwhile_nil_all (p : codepoint -> bool) (s : pystr) :
  dropwhile p s = [] -> forallb p s = true.
Proof.
  induction s as [|c tl IH]; simpl; [reflexivity|].
  destruct (p c); simpl; [exact IH | discriminate].
Qed.

Lemma forallb_rev (p : codepoint -> bool) (s : pystr) :
  forallb p (rev s) = forallb p s.
Proof.
  induction s as [|c tl IH]; simpl; [reflexivity|].
  rewrite forallb_app, IH. simpl. rewrite andb_true_r. apply andb_comm.
Qed.

Lemma strip_by_all (p : codepoint -> bool) (s : pystr) :
  forallb p s = true -> strip_by p s = [].
Proof.
  intros H. unfold strip_by, rstrip_by, lstrip_by.
  rewrite (dropwhile_all p s H). reflexivity.
Qed.

Lemma dropwhile_suffix (p : codepoint -> bool) (s : pystr) :
  exists pre, s = pre ++ dropwhile p s /\ forallb p pre = true.
Proof.
  induction s as [|c tl IH]; simpl.
  - exists []. split; reflexivity.
  - destruct (p c) eqn:Hc.
    + destruct IH as [pre [E F]]. exists (c :: pre). simpl.
      rewrite Hc, F. split; [f_equal; exact E | reflexivity].
    + exists []. split; reflexivity.
Qed.

Lemma strip_by_nil (p : codepoint -> bool) (s : pystr) :
  strip_by p s = [] -> forallb p s = true.
Proof.
  unfold strip_by, rstrip_by, lstrip_by. intros H.
  assert (H1 : dropwhile p (rev (dropwhile p s)) = []).
  { destruct (dropwhile p (rev (dropwhile p s))) as [|x l]; [reflexivity|].
    simpl in H. destruct (rev l); discriminate. }
  apply dropwhile_nil_all in H1. rewrite forallb_rev in H1.
  destruct (dropwhile_suffix p s) as [pre [E F]].
  rewrite E, forallb_app, F, H1. reflexivity.
Qed.

Lemma strip_by_nil_iff (p : codepoint -> bool) (s : pystr) :
  strip_by p s = [] <-> forallb p s = true.
Proof. split; [apply strip_by_nil | apply strip_by_all]. Qed.

Lemma join_nonempty (sep : pystr) (l : pystr) (ls : list pystr) :
  l <> [] -> join sep (l :: ls) <> [].
Proof.
  intros Hl. simpl. destruct ls as [|l' ls'].
  - exact Hl.
  - destruct l; [contradiction | discriminate].
Qed.

Lemma truthy_true (s : pystr) : truthy s = true <-> s <> [].
Proof. destruct s; simpl; split; congruence. Qed.

Lemma contains_single (c : codepoint) (s : pystr) :
  contains [c] s = true <-> In c s.
Proof.
  induction s as [|x tl IH]; simpl.
  - split; [discriminate | contradiction].
  - rewrite andb_true_r. split.
    + intros H. apply orb_prop in H as [H|H].
      * left. apply N.eqb_eq in H. congruence.
      * right. apply IH. exact H.
    + intros [H|H].
      * subst. rewrite N.eqb_refl. reflexivity.
      * apply orb_true_iff. right. apply IH. exact H.
Qed.

Lemma starts_with_app (w s : pystr) : starts_with w (w ++ s) = true.
Proof.
  induction w as [|a w IH]; simpl; [reflexivity|].
  rewrite N.eqb_refl. exact IH.
Qed.

Lemma contains_app (w a b : pystr) : contains w (a ++ w ++ b) = true.
Proof.
  induction a as [|x a IH]; simpl.
  - destruct (w ++ b) eqn:E; simpl.
    + destruct w; [reflexivity | discriminate].
    + rewrite <- E, starts_with_app. reflexivity.
  - rewrite IH. apply orb_true_r.
Qed.

Lemma dropwhile_before (p : codepoint -> bool) (a r : pystr) (x : codepoint) :
  p x = false -> exists a', dropwhile p (a ++ x :: r) = a' ++ x :: r.
Proof.
  intros Hx. induction a as [|c a IH]; simpl.
  - rewrite Hx. exists []. reflexivity.
  - destruct (p c).
    + exact IH.
    + exists (c :: a). reflexivity.
Qed.

(** Stripping keeps whatever lies between two characters it does not
    remove. *)
Lemma strip_by_keeps (p : codepoint -> bool) (a b mid : pystr)
  (x y : codepoint) :
  p x = false -> p y = false ->
  exists a' b', strip_by p (a ++ (x :: mid ++ [y]) ++ b)
                = a' ++ (x :: mid ++ [y]) ++ b'.
Proof.
  intros Hx Hy. unfold strip_by, rstrip_by, lstrip_by.
  simpl. destruct (dropwhile_before p a ((mid ++ [y]) ++ b) x Hx) as [a' Ea].
  rewrite Ea.
  replace (rev (a' ++ x :: (mid ++ [y]) ++ b))
    with (rev b ++ y :: rev (a' ++ x :: mid)).
  2:{ rewrite !rev_app_distr. simpl. rewrite !rev_app_distr. simpl.
      rewrite <- !app_assoc. reflexivity. }
  destruct (dropwhile_before p (rev b) (rev (a' ++ x :: mid)) y Hy) as [b' Eb].
  rewrite Eb. exists a', (rev b').
  rewrite rev_app_distr. simpl. rewrite rev_involutive.
  repeat (rewrite <- app_assoc; simpl). reflexivity.
Qed.

Lemma dropwhile_head (p : codepoint -> bool) (s r : pystr) (x : codepoint) :
  dropwhile p s = x :: r -> p x = false.
Proof.
  induction s as [|c tl IH]; simpl; [discriminate|].
  destruct (p c) eqn:Hc; [exact IH|]. intros E. injection E as -> _. exact Hc.
Qed.

(** A stripped string made of removable characters only is empty. *)
Lemma strip_by_all_nil (p : codepoint -> bool) (s : pystr) :
  forallb p (strip_by p s) = true -> strip_by p s = [].
Proof.
  unfold strip_by, rstrip_by, lstrip_by.
  destruct (dropwhile p (rev (dropwhile p s))) as [|x l] eqn:E;
    [reflexivity|].
  rewrite forallb_rev. simpl. rewrite (dropwhile_head _ _ _ _ E). discriminate.
Qed.

Lemma linebreak_isspace (c : codepoint) :
  Unicode.islinebreak c = true -> Unicode.isspace c = true.
Proof.
  unfold Unicode.islinebreak, Unicode.isspace, Unicode.in_range. intros H.
  bool_to_prop; subst; try reflexivity.
  - replace (9 <=? c)%N with true by (symmetry; apply N.leb_le; lia).
    replace (c <=? 13)%N with true by (symmetry; apply N.leb_le; lia).
    reflexivity.
  - replace (28 <=? c)%N with true by (symmetry; apply N.leb_le; lia).
    replace (c <=? 32)%N with true by (symmetry; apply N.leb_le; lia).
    destruct ((9 <=? c)%N && (c <=? 13)%N); reflexivity.
Qed.

(** Every character that is not a line break lands in a line. *)
Lemma splitlines_keeps_aux (n : nat) :
  forall (s : pystr) (c : codepoint),
    (List.length s <= n)%nat -> In c s -> Unicode.islinebreak c = false ->
    exists ln, In ln (splitlines s) /\ In c ln.
Proof.
  induction n as [|n IH]; intros s c Hn Hin Hc.
  - destruct s; [contradiction | simpl in Hn; lia].
  - destruct s as [|c0 tl]; [contradiction|]. simpl in Hn.
    simpl. destruct (Unicode.islinebreak c0) eqn:H0.
    + destruct Hin as [->|Hin]; [congruence|].
      destruct tl as [|x tl']; [contradiction|].
      destruct ((c0 =? 13)%N && (x =? 10)%N) eqn:Hcr.
      * apply andb_prop in Hcr as [_ Hx]. apply N.eqb_eq in Hx. subst x.
        destruct Hin as [<-|Hin]; [discriminate Hc|].
        destruct (IH tl' c) as [ln [L1 L2]]; auto; [simpl in Hn; lia|].
        exists ln. split; [right; exact L1 | exact L2].
      * destruct (IH (x :: tl') c) as [ln [L1 L2]]; auto; [lia|].
        exists ln. split; [right; exact L1 | exact L2].
    + destruct Hin as [->|Hin].
      * destruct (splitlines tl) as [|l0 rest].
        -- exists [c]. split; left; reflexivity.
        -- exists (c :: l0). split; left; reflexivity.
      * destruct (IH tl c) as [ln [L1 L2]]; auto; [lia|].
        destruct (splitlines tl) as [|l0 rest]; [contradiction|].
        destruct L1 as [<-|L1].
        -- exists (c0 :: l0). split; [left; reflexivity | right; exact L2].
        -- exists ln. split; [right; exact L1 | exact L2].
Qed.

Lemma splitlines_keeps (s : pystr) (c : codepoint) :
  In c s -> Unicode.islinebreak c = false ->
  exists ln, In ln (splitlines s) /\ In c ln.
Proof. apply (splitlines_keeps_aux (List.length s)). apply Nat.le_refl. Qed.

Lemma dropwhile_sub (p : codepoint -> bool) (s : pystr) (c : codepoint) :
  In c (dropwhile p s) -> In c s.
Proof.
  induction s as [|x tl IH]; simpl; [auto|].
  destruct (p x); [intros H; right; exact (IH H) | auto].
Qed.

Lemma strip_by_sub (p : codepoint -> bool) (s : pystr) (c : codepoint) :
  In c (strip_by p s) -> In c s.
Proof.
  unfold strip_by, rstrip_by, lstrip_by. intros H.
  apply in_rev in H. apply dropwhile_sub in H. apply in_rev in H.
  apply dropwhile_sub in H. exact H.
Qed.

(** Every character of a line is a character of the text. *)
Lemma splitlines_sub_aux (n : nat) :
  forall (s ln : pystr) (c : codepoint),
    (List.length s <= n)%nat -> In ln (splitlines s) -> In c ln -> In c s.
Proof.
  induction n as [|n IH]; intros s ln c Hn Hl Hc.
  - destruct s; [contradiction | simpl in Hn; lia].
  - destruct s as [|c0 tl]; [contradiction|]. simpl in Hn, Hl.
    destruct (Unicode.islinebreak c0).
    + destruct Hl as [<-|Hl]; [contradiction|]. right.
      destruct tl as [|x tl']; [contradiction|].
      destruct ((c0 =? 13)%N && (x =? 10)%N).
      * right. apply (IH tl' ln c); auto. simpl in Hn. lia.
      * apply (IH (x :: tl') ln c); auto. lia.
    + destruct (splitlines tl) as [|l0 rest] eqn:E.
      * destruct Hl as [<-|[]]. destruct Hc as [->|[]]. left. reflexivity.
      * destruct Hl as [<-|Hl].
        -- destruct Hc as [->|Hc]; [left; reflexivity|]. right.
           apply (IH tl l0 c); auto; [lia|]. rewrite E. left. reflexivity.
        -- right. apply (IH tl ln c); auto; [lia|]. rewrite E. right.
           exact Hl.
Qed.

Lemma splitlines_sub (s ln : pystr) (c : codepoint) :
  In ln (splitlines s) -> In c ln -> In c s.
Proof. apply (splitlines_sub_aux (List.length s)). apply Nat.le_refl. Qed.

(** The first character outside a class is the same however the run before
    it is cut. *)
Lemma first_outside (q : codepoint -> bool) (a : pystr) :
  forall (b t1 t2 : pystr) (c1 c2 : codepoint),
    forallb q a = true -> forallb q b = true ->
    q c1 = false -> q c2 = false ->
    a ++ c1 :: t1 = b ++ c2 :: t2 -> c1 = c2.
Proof.
  induction a as [|x a IH]; intros b t1 t2 c1 c2 Ha Hb H1 H2 E.
  - destruct b as [|y b]; simpl in E.
    + congruence.
    + simpl in Hb. apply andb_prop in Hb as [Hy _].
      injection E as -> _. congruence.
  - simpl in Ha. apply andb_prop in Ha as [Hx Ha].
    destruct b as [|y b]; simpl in E.
    + injection E as -> _. congruence.
    + simpl in Hb. apply andb_prop in Hb as [_ Hb].
      injection E as _ E. exact (IH _ _ _ _ _ Ha Hb H1 H2 E).
Qed.

Lemma strip_by_split (p : codepoint -> bool) (s : pystr) :
  exists a b, s = a ++ strip_by p s ++ b /\
              forallb p a = true /\ forallb p b = true.
Proof.
  unfold strip_by, rstrip_by, lstrip_by.
  destruct (dropwhile_suffix p s) as [a [Ea Fa]].
  destruct (dropwhile_suffix p (rev (dropwhile p s))) as [b [Eb Fb]].
  exists a, (rev b). rewrite forallb_rev. repeat split; auto.
  rewrite <- rev_app_distr, <- Eb, rev_involutive. exact Ea.
Qed.

Lemma strip_by_last (p : codepoint -> bool) (s init : pystr) (c : codepoint) :
  strip_by p s = init ++ [c] -> p c = false.
Proof.
  unfold strip_by, rstrip_by, lstrip_by. intros H.
  apply (f_equal (@rev codepoint)) in H.
  rewrite rev_involutive, rev_app_distr in H. simpl in H.
  exact (dropwhile_head _ _ _ _ H).
Qed.

Lemma strip_by_first (p : codepoint -> bool) (s tl : pystr) (c : codepoint) :
  strip_by p s = c :: tl -> p c = false.
Proof.
  intros H. destruct (strip_by_split p s) as [a [b [E [Fa Fb]]]].
  unfold strip_by, rstrip_by in *. set (l := lstrip_by p s) in *.
  destruct (dropwhile_suffix p (rev l)) as [b' [Eb Fb']].
  assert (El : l = (c :: tl) ++ rev b').
  { rewrite <- H, <- rev_app_distr, <- Eb, rev_involutive. reflexivity. }
  unfold l, lstrip_by in El. simpl in El.
  exact (dropwhile_head _ _ _ _ El).
Qed.

End StrFacts.

(* ================================================================== *)
(** * Facts about the matcher *)
(* ================================================================== *)

Module ReFacts.

Import Re.

Section WithDB.
Context {db : DB}.

Lemma starts_with_split (w s : pystr) :
  Str.starts_with w s = true -> s = w ++ skipn (List.length w) s.
Proof.
  revert s. induction w as [|a w IH]; intros s H; simpl; [reflexivity|].
  destruct s as [|b s]; simpl in H; [discriminate|].
  apply andb_prop in H as [E H]. apply N.eqb_eq in E. subst b.
  simpl. f_equal. apply IH. exact H.
Qed.

Lemma star_sound (c : cclass) (s : pystr) :
  forall pv p cp st',
    In st' (star c pv s p cp) ->
    exists w, s = w ++ rest st' /\ pos st' = (p + List.length w)%nat /\
              caps st' = cp /\ forallb (in_class c) w = true.
Proof.
  induction s as [|x tl IH]; intros pv p cp st' H; simpl in H.
  - destruct H as [<-|[]]. exists []. simpl. auto.
  - destruct (in_class c x) eqn:Hx.
    + apply in_app_or in H as [H|[<-|[]]].
      * destruct (IH _ _ _ _ H) as [w [E [P [C F]]]].
        exists (x :: w). simpl. rewrite Hx, F. repeat split; auto.
        -- f_equal. exact E.
        -- lia.
      * exists []. simpl. auto.
    + destruct H as [<-|[]]. exists []. simpl. auto.
Qed.

(** Soundness of the matcher: a reported position lies after a word of the
    pattern's language. *)
Lemma rmatch_sound (r : regex) :
  forall st st',
    In st' (rmatch r st) ->
    exists w, rest st = w ++ rest st' /\
              pos st' = (pos st + List.length w)%nat /\ lang r w.
Proof.
  induction r as [|c|l|a IHa b IHb|a IHa b IHb|a IHa|c|c|n a IHa|a IHa|];
    intros st st' H; simpl in H.
  - destruct H as [<-|[]]. exists []. simpl. auto.
  - destruct (rest st) as [|x tl] eqn:E; [contradiction|].
    destruct (in_class c x) eqn:Hx; [|contradiction].
    destruct H as [<-|[]]. exists [x]. simpl. repeat split; [lia|].
    exists x. auto.
  - destruct (Str.starts_with l (rest st)) eqn:Hs; [|contradiction].
    destruct H as [<-|[]]. exists l. simpl. repeat split.
    apply starts_with_split. exact Hs.
  - apply in_flat_map in H as [mid [H1 H2]].
    destruct (IHa _ _ H1) as [w1 [E1 [P1 L1]]].
    destruct (IHb _ _ H2) as [w2 [E2 [P2 L2]]].
    exists (w1 ++ w2). rewrite E1, E2, P2, P1, length_app, <- app_assoc.
    repeat split; [lia|]. exists w1, w2. auto.
  - apply in_app_or in H as [H|H].
    + destruct (IHa _ _ H) as [w [E [P L]]]. exists w. simpl. auto.
    + destruct (IHb _ _ H) as [w [E [P L]]]. exists w. simpl. auto.
  - apply in_app_or in H as [H|[<-|[]]].
    + destruct (IHa _ _ H) as [w [E [P L]]]. exists w. simpl. auto.
    + exists []. simpl. auto.
  - destruct (star_sound _ _ _ _ _ _ H) as [w [E [P [C F]]]].
    exists w. simpl. auto.
  - destruct (rest st) as [|x tl] eqn:E; [contradiction|].
    destruct (in_class c x) eqn:Hx; [|contradiction].
    destruct (star_sound _ _ _ _ _ _ H) as [w [E' [P [C F]]]].
    exists (x :: w). simpl. rewrite Hx, F. repeat split.
    + f_equal. exact E'.
    + lia.
    + discriminate.
  - apply in_map_iff in H as [s1 [<- H]]. simpl.
    destruct (IHa _ _ H) as [w [E [P L]]]. exists w. auto.
  - apply IHa. exact H.
  - destruct (boundary st); [|contradiction].
    destruct H as [<-|[]]. exists []. simpl. auto.
Qed.

(** A pattern without named group leaves the groups as they were. *)
Lemma rmatch_caps (r : regex) :
  no_named r = true ->
  forall st st', In st' (rmatch r st) -> caps st' = caps st.
Proof.
  induction r as [|c|l|a IHa b IHb|a IHa b IHb|a IHa|c|c|n a IHa|a IHa|];
    intros N st st' H; simpl in H, N.
  - destruct H as [<-|[]]. reflexivity.
  - destruct (rest st) as [|x tl]; [contradiction|].
    destruct (in_class c x); [|contradiction]. destruct H as [<-|[]].
    reflexivity.
  - destruct (Str.starts_with l (rest st)); [|contradiction].
    destruct H as [<-|[]]. reflexivity.
  - apply andb_prop in N as [Na Nb].
    apply in_flat_map in H as [mid [H1 H2]].
    rewrite (IHb Nb _ _ H2). apply (IHa Na _ _ H1).
  - apply andb_prop in N as [Na Nb].
    apply in_app_or in H as [H|H]; [apply (IHa Na) | apply (IHb Nb)]; exact H.
  - apply in_app_or in H as [H|[<-|[]]]; [apply (IHa N); exact H | reflexivity].
  - destruct (star_sound _ _ _ _ _ _ H) as [w [_ [_ [C _]]]]. exact C.
  - destruct (rest st) as [|x tl]; [contradiction|].
    destruct (in_class c x); [|contradiction].
    destruct (star_sound _ _ _ _ _ _ H) as [w [_ [_ [C _]]]]. exact C.
  - discriminate.
  - apply (IHa N). exact H.
  - destruct (boundary st); [|contradiction]. destruct H as [<-|[]].
    reflexivity.
Qed.

(** A named group records the word its pattern consumed. *)
Lemma rmatch_named (n : string) (a : regex) (st st' : mstate) :
  no_named a = true ->
  In st' (rmatch (Named n a) st) ->
  exists w, lang a w /\ caps st' = (n, w) :: caps st /\
            rest st = w ++ rest st' /\
            pos st' = (pos st + List.length w)%nat.
Proof.
  intros N H. simpl in H. apply in_map_iff in H as [s1 [<- H]]. simpl.
  destruct (rmatch_sound _ _ _ H) as [w [E [P L]]].
  exists w. rewrite (rmatch_caps _ N _ _ H). repeat split; auto.
  f_equal. f_equal. rewrite P, E.
  replace (pos st + List.length w - pos st)%nat with (List.length w) by lia.
  rewrite firstn_app, firstn_all, Nat.sub_diag. simpl. apply app_nil_r.
Qed.

Lemma rmatch_seq (a b : regex) (st st' : mstate) :
  In st' (rmatch (Seq a b) st) <->
  exists mid, In mid (rmatch a st) /\ In st' (rmatch b mid).
Proof. simpl. apply in_flat_map. Qed.

(** Soundness of the search: the match it reports starts somewhere in the
    subject and is the first the matcher finds there. *)
Lemma search_from_sound (r : regex) (s : pystr) :
  forall pv p m,
    search_from r pv s p = Some m ->
    exists pre suf pv' st',
      s = pre ++ suf /\
      hd_error (rmatch r (MState pv' suf (p + List.length pre) [])) = Some st' /\
      m = MkMatch (p + List.length pre) (pos st') (caps st').
Proof.
  induction s as [|c tl IH]; intros pv p m H; simpl in H.
  - unfold match_at in H.
    destruct (rmatch r (MState pv [] p [])) as [|st' l] eqn:E; [discriminate|].
    injection H as <-. exists [], [], pv, st'. simpl.
    rewrite Nat.add_0_r, E. auto.
  - unfold match_at in H.
    destruct (rmatch r (MState pv (c :: tl) p [])) as [|st' l] eqn:E.
    + destruct (IH _ _ _ H) as [pre [suf [pv' [st' [E1 [E2 E3]]]]]].
      exists (c :: pre), suf, pv', st'. simpl.
      replace (p + S (List.length pre))%nat with (S p + List.length pre)%nat
        by lia.
      subst tl. auto.
    + injection H as <-. exists [], (c :: tl), pv, st'. simpl.
      rewrite Nat.add_0_r, E. auto.
Qed.

Lemma search_sound (r : regex) (s : pystr) (m : Match) :
  search r s = Some m ->
  exists pre w suf st',
    s = pre ++ w ++ suf /\ lang r w /\ m_caps m = caps st' /\
    exists pv, In st' (rmatch r (MState pv (w ++ suf) (List.length pre) [])).
Proof.
  intros H. apply search_from_sound in H
    as [pre [suf [pv' [st' [E1 [E2 E3]]]]]].
  simpl in E2.
  assert (Hin : In st' (rmatch r (MState pv' suf (List.length pre) []))).
  { destruct (rmatch r (MState pv' suf (List.length pre) []));
      [discriminate|]. injection E2 as ->. left. reflexivity. }
  destruct (rmatch_sound _ _ _ Hin) as [w [E [P L]]]. simpl in E.
  exists pre, w, (rest st'), st'. subst m. simpl. rewrite <- E.
  repeat split; auto. exists pv'. exact Hin.
Qed.

Lemma last_char_cons (x : codepoint) (w : pystr) (pv : option codepoint) :
  last_char (x :: w) pv = last_char w (Some x).
Proof.
  unfold last_char. simpl. destruct (rev w); reflexivity.
Qed.

Lemma last_char_app (w1 w2 : pystr) :
  forall pv, last_char (w1 ++ w2) pv = last_char w2 (last_char w1 pv).
Proof.
  induction w1 as [|x w1 IH]; intros pv; [reflexivity|].
  simpl app. rewrite !last_char_cons. apply IH.
Qed.

Lemma last_char_forallb (q : codepoint -> bool) (w : pystr)
  (pv : option codepoint) :
  w <> [] -> forallb q w = true ->
  exists c, last_char w pv = Some c /\ q c = true.
Proof.
  revert pv. induction w as [|x w IH]; intros pv N F; [contradiction|].
  simpl in F. apply andb_prop in F as [Fx F]. rewrite last_char_cons.
  destruct w as [|y w'].
  - exists x. auto.
  - apply IH; [discriminate | exact F].
Qed.

Lemma star_prev (c : cclass) (s : pystr) :
  forall pv p cp st',
    In st' (star c pv s p cp) ->
    exists w, s = w ++ rest st' /\ prev st' = last_char w pv.
Proof.
  induction s as [|x tl IH]; intros pv p cp st' H; simpl in H.
  - destruct H as [<-|[]]. exists []. auto.
  - destruct (in_class c x).
    + apply in_app_or in H as [H|[<-|[]]].
      * destruct (IH _ _ _ _ H) as [w [E P]]. exists (x :: w).
        rewrite last_char_cons. split; [simpl; f_equal; exact E | exact P].
      * exists []. auto.
    + destruct H as [<-|[]]. exists []. auto.
Qed.

(** The matcher keeps track of the character before its position. *)
Lemma rmatch_prev (r : regex) :
  forall st st',
    In st' (rmatch r st) ->
    exists w, rest st = w ++ rest st' /\ prev st' = last_char w (prev st).
Proof.
  induction r as [|c|l|a IHa b IHb|a IHa b IHb|a IHa|c|c|n a IHa|a IHa|];
    intros st st' H; simpl in H.
  - destruct H as [<-|[]]. exists []. auto.
  - destruct (rest st) as [|x tl] eqn:E; [contradiction|].
    destruct (in_class c x); [|contradiction].
    destruct H as [<-|[]]. exists [x]. auto.
  - destruct (Str.starts_with l (rest st)) eqn:Hs; [|contradiction].
    destruct H as [<-|[]]. exists l. simpl. split; [|reflexivity].
    apply starts_with_split. exact Hs.
  - apply in_flat_map in H as [mid [H1 H2]].
    destruct (IHa _ _ H1) as [w1 [E1 P1]].
    destruct (IHb _ _ H2) as [w2 [E2 P2]].
    exists (w1 ++ w2). rewrite last_char_app, <- P1, <- app_assoc, <- E2.
    auto.
  - apply in_app_or in H as [H|H]; [apply IHa | apply IHb]; exact H.
  - apply in_app_or in H as [H|[<-|[]]]; [apply IHa; exact H|].
    exists []. auto.
  - apply (star_prev _ _ _ _ _ _ H).
  - destruct (rest st) as [|x tl] eqn:E; [contradiction|].
    destruct (in_class c x); [|contradiction].
    destruct (star_prev _ _ _ _ _ _ H) as [w [E' P]].
    exists (x :: w). rewrite last_char_cons.
    split; [simpl; f_equal; exact E' | exact P].
  - apply in_map_iff in H as [s1 [<- H]]. simpl. apply IHa. exact H.
  - apply IHa. exact H.
  - destruct (boundary st); [|contradiction].
    destruct H as [<-|[]]. exists []. auto.
Qed.

(** A pattern that ends with [\b] stops at a word boundary. *)
Lemma rmatch_boundary (r : regex) :
  ends_with_boundary r = true ->
  forall st st', In st' (rmatch r st) -> boundary st' = true.
Proof.
  induction r as [|c|l|a IHa b IHb|a IHa b IHb|a IHa|c|c|n a IHa|a IHa|];
    intros B st st' H; simpl in B; try discriminate.
  - apply rmatch_seq in H as [mid [_ H]]. apply (IHb B _ _ H).
  - simpl in H. destruct (boundary st) eqn:E; [|contradiction].
    destruct H as [<-|[]]. exact E.
Qed.

(** After a word character, a boundary means that no word character follows. *)
Lemma boundary_after_word (st : mstate) (c : codepoint) :
  prev st = Some c -> Unicode.isword c = true -> boundary st = true ->
  match rest st with [] => True | x :: _ => Unicode.isword x = false end.
Proof.
  unfold boundary, word_before, word_after. intros -> -> H.
  destruct (rest st) as [|x tl]; [exact I|].
  simpl in H. apply negb_true_iff in H. exact H.
Qed.

(** The search, with the end of the match: a match that ends with [\b] on a
    word character is not followed by a word character. *)
Lemma search_sound_boundary (r : regex) (s : pystr) (m : Match) :
  ends_with_boundary r = true ->
  search r s = Some m ->
  exists pre w suf,
    s = pre ++ w ++ suf /\ lang r w /\
    forall c, last_char w None = Some c -> w <> [] ->
              Unicode.isword c = true ->
              match suf with [] => True | x :: _ => Unicode.isword x = false end.
Proof.
  intros B H. apply search_from_sound in H
    as [pre [suf0 [pv' [st' [E1 [E2 E3]]]]]].
  simpl in E2.
  assert (Hin : In st' (rmatch r (MState pv' suf0 (List.length pre) []))).
  { destruct (rmatch r (MState pv' suf0 (List.length pre) []));
      [discriminate|]. injection E2 as ->. left. reflexivity. }
  destruct (rmatch_sound _ _ _ Hin) as [w [E [P L]]]. simpl in E.
  destruct (rmatch_prev _ _ _ Hin) as [w' [E' P']]. simpl in E', P'.
  assert (w' = w) by (apply (app_inv_tail (rest st')); congruence). subst w'.
  exists pre, w, (rest st'). rewrite <- E. repeat split; auto.
  intros c Hc Hw Hword.
  apply (boundary_after_word st' c); auto.
  - rewrite P'. destruct w as [|x w0]; [contradiction|].
    rewrite last_char_cons in *. exact Hc.
  - apply (rmatch_boundary r B _ _ Hin).
Qed.

Lemma lang_alts (ws : list pystr) (w : pystr) :
  ws <> [] -> lang (alts ws) w -> In w ws.
Proof.
  induction ws as [|u ws IH]; intros N H; [contradiction|].
  destruct ws as [|v ws'].
  - simpl in H. left. auto.
  - change (lang (Alt (Lit u) (alts (v :: ws'))) w) in H.
    simpl in H. destruct H as [H|H].
    + left. auto.
    + right. apply IH; [discriminate | exact H].
Qed.

End WithDB.

End ReFacts.

(* ================================================================== *)
(** * Properties of the extractor *)
(* ================================================================== *)

Section ExtractorFacts.
Context {db : DB}.

Lemma normalize_lines_nonempty (text ln : pystr) :
  In ln (normalize_lines text) -> ln <> [].
Proof.
  unfold normalize_lines. intros H. apply in_map_iff in H as [x [E H]].
  apply filter_In in H as [_ H]. subst ln. apply StrFacts.truthy_true. exact H.
Qed.

(** The record in one piece: each field as a function of the lines. *)
Lemma extract_unfold (raw : pystr) :
  extract raw =
  let text := Str.strip raw in
  let lines := normalize_lines text in
  match lines with
  | [] => MkRecord None None None None CNY text 0.0%float
  | first :: _ =>
      let price := scan_lines "price" price_patterns lines in
      let spec := find_spec lines in
      let qty := scan_lines "qty" qty_patterns lines in
      MkRecord (Some (name_of first)) spec qty price
        (if Str.contains (utf8 "$") text || Str.contains USD (Str.upper text)
         then USD else CNY)
        (Str.join (utf8 " ") lines)
        (clamp_confidence
           (score (is_set price) (is_set spec) (is_set qty)
                  (truthy (clean_name first))))
  end.
Proof.
  unfold extract, extract_procurement_fields. cbv zeta.
  destruct (normalize_lines (Str.strip raw)) as [|first rest] eqn:El.
  - reflexivity.
  - unfold price_step, currency_step, spec_step, qty_step, name_step,
      clamp_step, name_of, score, bonus, default_record.
    destruct (scan_lines "price" price_patterns (first :: rest));
    destruct (Str.contains (utf8 "$") (Str.strip raw)
              || Str.contains USD (Str.upper (Str.strip raw)));
    destruct (find_spec (first :: rest));
    destruct (scan_lines "qty" qty_patterns (first :: rest));
    destruct (truthy (clean_name first)); reflexivity.
Qed.

Lemma clamp_score (a b c d : bool) :
  clamp_confidence (score a b c d)
  = hundredths (Z.min 100 (score_hundredths a b c d)).
Proof. destruct a, b, c, d; vm_compute; reflexivity. Qed.

Lemma score_hundredths_bounds (a b c d : bool) :
  (55 <= score_hundredths a b c d <= 110)%Z.
Proof. destruct a, b, c, d; cbv; split; congruence. Qed.

(** ** Numerals *)

Lemma span_digits_run (ds r : pystr) :
  forallb Unicode.isdecimal ds = true ->
  match r with [] => True | c :: _ => Unicode.todecimal c = None end ->
  span_digits (ds ++ r) = (digit_values ds, r) /\
  List.length (digit_values ds) = List.length ds.
Proof.
  intros Hd Hr. unfold digit_values.
  induction ds as [|c ds IH]; simpl.
  - destruct r as [|x r]; [auto|]. simpl. rewrite Hr. auto.
  - simpl in Hd. apply andb_prop in Hd as [Hc Hd].
    unfold Unicode.isdecimal in Hc.
    destruct (Unicode.todecimal c) as [d|]; [|discriminate].
    destruct (IH Hd) as [E L]. rewrite E.
    destruct (span_digits ds) as [vs r0]. simpl in *. split; congruence.
Qed.

Lemma number_lang (w : pystr) :
  Re.lang number w -> exists ds fs, is_numeral w ds fs.
Proof.
  intros [w1 [w2 [E [[N1 D1] H2]]]]. simpl in H2. destruct H2 as [H2| ->].
  - destruct H2 as [a [fs [E2 [[x [-> Hx]] [N2 D2]]]]].
    simpl in Hx. apply N.eqb_eq in Hx. subst x.
    exists w1, fs. unfold is_numeral. repeat split; auto.
    right. split; [exact N2|]. subst. reflexivity.
  - exists w1, []. unfold is_numeral. repeat split; auto.
    left. split; [reflexivity|]. rewrite E. apply app_nil_r.
Qed.

(** A numeral always converts, to the float nearest to its value. *)
Lemma numeral_float (s ds fs : pystr) :
  is_numeral s ds fs ->
  _to_float s =
  Some (PyFloat.float_of_numeral (digit_values ds) (digit_values fs)).
Proof.
  intros [D [N [F H]]]. unfold _to_float, py_float.
  destruct H as [[-> ->]|[NF ->]].
  - destruct (span_digits_run ds [] D I) as [E L].
    rewrite app_nil_r in E. rewrite E.
    destruct (digit_values ds) eqn:V.
    + destruct ds; [contradiction | discriminate L].
    + reflexivity.
  - destruct (span_digits_run ds (46%N :: fs) D eq_refl) as [E L].
    rewrite E.
    destruct (digit_values ds) eqn:V.
    + destruct ds; [contradiction | discriminate L].
    + rewrite N.eqb_refl.
      destruct (span_digits_run fs [] F I) as [E' L'].
      rewrite app_nil_r in E'. rewrite E'.
      destruct (digit_values fs) eqn:V'.
      * destruct fs; [contradiction | discriminate L'].
      * reflexivity.
Qed.

(** ** The named group of the price and quantity patterns *)

Lemma sets_group_here (n : string) (a b : Re.regex) :
  Re.no_named a = true -> Re.no_named b = true ->
  sets_group n a (Re.Seq (Re.Named n a) b).
Proof.
  intros Na Nb st st' H. apply ReFacts.rmatch_seq in H as [mid [H1 H2]].
  destruct (ReFacts.rmatch_named _ _ _ _ Na H1) as [w [L [C _]]].
  exists w. split; [exact L|].
  rewrite (ReFacts.rmatch_caps _ Nb _ _ H2). exact C.
Qed.

Lemma sets_group_last (n : string) (a : Re.regex) :
  Re.no_named a = true -> sets_group n a (Re.Named n a).
Proof.
  intros Na st st' H.
  destruct (ReFacts.rmatch_named _ _ _ _ Na H) as [w [L [C _]]].
  exists w. auto.
Qed.

Lemma sets_group_later (n : string) (a x r : Re.regex) :
  Re.no_named x = true -> sets_group n a r ->
  sets_group n a (Re.Seq x r).
Proof.
  intros Nx Hr st st' H. apply ReFacts.rmatch_seq in H as [mid [H1 H2]].
  destruct (Hr _ _ H2) as [w [L C]]. exists w. split; [exact L|].
  rewrite C, (ReFacts.rmatch_caps _ Nx _ _ H1). reflexivity.
Qed.

Lemma price_patterns_group (pat : Re.regex) :
  In pat price_patterns -> sets_group "price" number pat.
Proof.
  intros [<-|[<-|[<-|[]]]].
  - apply sets_group_here; reflexivity.
  - repeat (apply sets_group_later; [reflexivity|]).
    apply sets_group_here; reflexivity.
  - repeat (apply sets_group_later; [reflexivity|]).
    apply sets_group_here; reflexivity.
Qed.

Lemma qty_patterns_group (pat : Re.regex) :
  In pat qty_patterns -> sets_group "qty" number pat.
Proof.
  intros [<-|[<-|[]]].
  - apply sets_group_here; reflexivity.
  - repeat (apply sets_group_later; [reflexivity|]).
    apply sets_group_here; reflexivity.
Qed.

(** Whatever such a pattern captures is a numeral, and converts. *)
Lemma group_is_numeral (n : string) (pat : Re.regex) (ln : pystr)
  (m : Re.Match) :
  sets_group n number pat ->
  Re.search pat ln = Some m ->
  exists s ds fs,
    Re.group m n = Some s /\ is_numeral s ds fs /\
    captured_value n m =
    Some (PyFloat.float_of_numeral (digit_values ds) (digit_values fs)).
Proof.
  intros G H. apply ReFacts.search_sound in H
    as [pre [w [suf [st' [_ [_ [C [pv Hin]]]]]]]].
  destruct (G _ _ Hin) as [s [L Cs]]. simpl in Cs.
  destruct (number_lang s L) as [ds [fs Hn]].
  exists s, ds, fs.
  assert (Hg : Re.group m n = Some s).
  { unfold Re.group. rewrite C, Cs. simpl. rewrite String.eqb_refl.
    reflexivity. }
  split; [exact Hg|]. split; [exact Hn|].
  unfold captured_value. rewrite Hg. apply numeral_float. exact Hn.
Qed.

(** ** The scans against the first match *)

Lemma first_some_app {A : Type} (a b : list (option A)) :
  first_some (a ++ b) =
  match first_some a with Some x => Some x | None => first_some b end.
Proof.
  induction a as [|[x|] a IH]; simpl; auto.
Qed.

Lemma first_pattern_spec (name : string) (pats : list Re.regex) (ln : pystr) :
  first_pattern name pats ln =
  option_map (captured_value name)
             (first_some (map (fun pat => Re.search pat ln) pats)).
Proof.
  induction pats as [|pat pats IH]; simpl; [reflexivity|].
  destruct (Re.search pat ln); [reflexivity | exact IH].
Qed.

Lemma first_some_in {A : Type} (l : list (option A)) (x : A) :
  first_some l = Some x -> In (Some x) l.
Proof.
  induction l as [|[y|] l IH]; simpl; intros H.
  - discriminate.
  - left. exact H.
  - right. apply IH. exact H.
Qed.

(** When every capture converts, the scan returns the converted group of the
    first match in line-major, pattern-minor order. *)
Lemma scan_lines_first_match (name : string) (pats : list Re.regex)
  (lines : list pystr) :
  (forall pat ln m, In pat pats -> Re.search pat ln = Some m ->
                    captured_value name m <> None) ->
  scan_lines name pats lines =
  match first_match pats lines with
  | Some m => captured_value name m
  | None => None
  end.
Proof.
  intros Hc. unfold first_match.
  induction lines as [|ln lines IH]; simpl; [reflexivity|].
  rewrite first_some_app, first_pattern_spec.
  destruct (first_some (map (fun pat => Re.search pat ln) pats)) as [m|] eqn:E.
  - simpl. apply first_some_in in E. apply in_map_iff in E as [pat [Es Hp]].
    specialize (Hc pat ln m Hp Es).
    destruct (captured_value name m); [reflexivity | contradiction].
  - simpl. exact IH.
Qed.

(** C1.  An input that is empty or made of whitespace only gives the default
    record: the four optional fields unset, the currency CNY, the confidence
    exactly 0.0 and the trimmed input, which is empty, as source text; no
    extractor has written to it. *)
Theorem C1_blank_input (raw : pystr) :
  forallb Unicode.isspace raw = true ->
  Str.strip raw = [] /\
  extract raw =
  {| item_name := None; specification := None; quantity := None;
     unit_price := None; currency := CNY; source_text := Str.strip raw;
     confidence := 0.0%float |}.
Proof.
  intros H. pose proof (StrFacts.strip_by_all _ _ H) as E.
  fold (Str.strip raw) in E. split; [exact E|].
  rewrite extract_unfold. rewrite E. reflexivity.
Qed.

(** C2.  The confidence lies in [0,1] and is a whole number of hundredths;
    without lines it is exactly 0.0, and otherwise it is the sum of the base
    0.50 and of the bonuses of the extractors that succeeded (0.20 price,
    0.15 specification, 0.10 quantity, 0.15 or 0.05 item name), rounded to
    two decimals and clamped to [0,1]; rounding and clamping commute on
    these sums, and the value is the exact decimal sum capped at 1.00. *)
Theorem C2_confidence (raw : pystr) :
  let r := extract raw in
  ((0 <=? confidence r)%float = true /\ (confidence r <=? 1)%float = true) /\
  (exists k : Z, (0 <= k <= 100)%Z /\ confidence r = hundredths k) /\
  match normalize_lines (Str.strip raw) with
  | [] => confidence r = 0.0%float
  | first :: _ =>
      let sum := score (is_set (unit_price r)) (is_set (specification r))
                       (is_set (quantity r)) (truthy (clean_name first)) in
      confidence r = clamp01 (PyFloat.round sum 2) /\
      confidence r = PyFloat.round (clamp01 sum) 2 /\
      confidence r =
      hundredths (Z.min 100
        (score_hundredths (is_set (unit_price r)) (is_set (specification r))
                          (is_set (quantity r)) (truthy (clean_name first))))
  end.
Proof.
  cbv zeta. rewrite extract_unfold. cbv zeta.
  destruct (normalize_lines (Str.strip raw)) as [|first rest].
  - simpl. repeat split.
    exists 0%Z. split; [lia | reflexivity].
  - cbn [confidence unit_price specification quantity].
    set (a := is_set (scan_lines "price" price_patterns (first :: rest))).
    set (b := is_set (find_spec (first :: rest))).
    set (c := is_set (scan_lines "qty" qty_patterns (first :: rest))).
    set (d := truthy (clean_name first)).
    repeat split.
    + destruct a, b, c, d; vm_compute; reflexivity.
    + destruct a, b, c, d; vm_compute; reflexivity.
    + exists (Z.min 100 (score_hundredths a b c d)). split.
      * pose proof (score_hundredths_bounds a b c d). lia.
      * apply clamp_score.
    + destruct a, b, c, d; vm_compute; reflexivity.
    + apply clamp_score.
Qed.

(** C4, as the code has it.  The source text is the normalized lines joined
    by single spaces, or the trimmed input when there is no line; it is
    empty exactly when the input is empty or made of whitespace only. *)
Theorem C4_source_text (raw : pystr) :
  source_text (extract raw) =
    match normalize_lines (Str.strip raw) with
    | [] => Str.strip raw
    | _ :: _ => Str.join (utf8 " ") (normalize_lines (Str.strip raw))
    end /\
  (source_text (extract raw) = [] <-> forallb Unicode.isspace raw = true).
Proof.
  rewrite extract_unfold. cbv zeta.
  destruct (normalize_lines (Str.strip raw)) as [|first rest] eqn:El.
  - simpl. split; [reflexivity|]. apply StrFacts.strip_by_nil_iff.
  - cbn [source_text]. split; [reflexivity|]. split.
    + intros H. exfalso. revert H. apply StrFacts.join_nonempty.
      apply (normalize_lines_nonempty (Str.strip raw)). rewrite El. left.
      reflexivity.
    + intros H. apply StrFacts.strip_by_all in H. fold (Str.strip raw) in H.
      rewrite H in El. discriminate.
Qed.

(** C9.  When at least one line survives normalization the item name is set:
    it is the cleaned first line, or the first line itself when cleaning
    leaves nothing, and it is not empty. *)
Theorem C9_item_name_set (raw : pystr) :
  normalize_lines (Str.strip raw) <> [] ->
  exists first name,
    hd_error (normalize_lines (Str.strip raw)) = Some first /\
    item_name (extract raw) = Some name /\
    name <> [] /\
    (name = clean_name first \/ (clean_name first = [] /\ name = first)).
Proof.
  intros Hl. rewrite extract_unfold. cbv zeta.
  destruct (normalize_lines (Str.strip raw)) as [|first rest] eqn:El;
    [contradiction|].
  exists first, (name_of first). cbn [item_name hd_error].
  repeat split.
  - unfold name_of. destruct (truthy (clean_name first)) eqn:T.
    + apply StrFacts.truthy_true. exact T.
    + apply (normalize_lines_nonempty (Str.strip raw)). rewrite El. left.
      reflexivity.
  - unfold name_of. destruct (clean_name first) eqn:E; simpl.
    + right. split; reflexivity.
    + left. reflexivity.
Qed.

(** C10.  When at least one line survives normalization the confidence is at
    least 0.55: the base and the smaller item-name bonus always apply. *)
Theorem C10_confidence_floor (raw : pystr) :
  normalize_lines (Str.strip raw) <> [] ->
  (0.55 <=? confidence (extract raw))%float = true /\
  exists k : Z, (55 <= k <= 100)%Z /\ confidence (extract raw) = hundredths k.
Proof.
  intros Hl. rewrite extract_unfold. cbv zeta.
  destruct (normalize_lines (Str.strip raw)) as [|first rest] eqn:El;
    [contradiction|].
  cbn [confidence].
  set (a := is_set (scan_lines "price" price_patterns (first :: rest))).
  set (b := is_set (find_spec (first :: rest))).
  set (c := is_set (scan_lines "qty" qty_patterns (first :: rest))).
  set (d := truthy (clean_name first)).
  split.
  - destruct a, b, c, d; vm_compute; reflexivity.
  - exists (Z.min 100 (score_hundredths a b c d)). split.
    + pose proof (score_hundredths_bounds a b c d). lia.
    + apply clamp_score.
Qed.

Lemma upper_app (a b : pystr) : Str.upper (a ++ b) = Str.upper a ++ Str.upper b.
Proof. unfold Str.upper. apply flat_map_app. Qed.

(** No line survives exactly when the trimmed text is empty. *)
Lemma normalize_lines_nil (raw : pystr) :
  normalize_lines (Str.strip raw) = [] -> Str.strip raw = [].
Proof.
  intros Hl. apply StrFacts.strip_by_all_nil. apply forallb_forall.
  intros c Hc. destruct (Unicode.islinebreak c) eqn:Hb.
  - apply StrFacts.linebreak_isspace. exact Hb.
  - destruct (StrFacts.splitlines_keeps _ _ Hc Hb) as [ln [L1 L2]].
    fold (Str.strip raw) in L1.
    destruct (truthy (Str.strip ln)) eqn:T.
    + exfalso. unfold normalize_lines in Hl.
      assert (In (Str.strip ln)
                (map Str.strip
                   (filter (fun ln => truthy (Str.strip ln))
                      (Str.splitlines (Str.strip raw))))) as HI.
      { apply in_map. apply filter_In. split; assumption. }
      rewrite Hl in HI. contradiction.
    + assert (E : Str.strip ln = []) by (destruct (Str.strip ln); [reflexivity | discriminate]).
      apply StrFacts.strip_by_nil in E.
      apply (proj1 (forallb_forall _ _) E). exact L2.
Qed.

Lemma lines_nil_iff (raw : pystr) :
  normalize_lines (Str.strip raw) = [] <-> forallb Unicode.isspace raw = true.
Proof.
  split.
  - intros H. apply StrFacts.strip_by_nil. exact (normalize_lines_nil raw H).
  - intros H. apply StrFacts.strip_by_all in H. fold (Str.strip raw) in H.
    rewrite H. reflexivity.
Qed.

Lemma currency_usd_iff (raw : pystr) :
  currency (extract raw) = USD <->
  In 36%N (Str.strip raw) \/ Str.contains USD (Str.upper (Str.strip raw)) = true.
Proof.
  rewrite extract_unfold. cbv zeta.
  destruct (normalize_lines (Str.strip raw)) as [|first rest] eqn:El.
  - cbn [currency]. split; [discriminate|].
    rewrite (normalize_lines_nil raw El).
    intros [H|H]; [contradiction | discriminate].
  - cbn [currency]. rewrite <- StrFacts.contains_single.
    change [36%N] with (utf8 "$").
    destruct (Str.contains (utf8 "$") (Str.strip raw)); simpl.
    + split; auto.
    + destruct (Str.contains USD (Str.upper (Str.strip raw))); simpl.
      * split; auto.
      * split; [discriminate | intros [H|H]; discriminate].
Qed.

(** C5.  The currency is USD exactly when the trimmed text contains a dollar
    sign or, once upper-cased, the token USD, and it is CNY otherwise; any
    mix of upper and lower case letters u, s, d in the input triggers it; the
    price patterns play no part: on "$9.99 each, 2 pieces" the unit price is
    unset and the currency is USD. *)
Theorem C5_currency (raw : pystr) :
  let text := Str.strip raw in
  let r := extract raw in
  (currency r = USD <->
   In 36%N text \/ Str.contains USD (Str.upper text) = true) /\
  (currency r = USD \/ currency r = CNY) /\
  (forall pre suf c1 c2 c3,
      In c1 (utf8 "Uu") -> In c2 (utf8 "Ss") -> In c3 (utf8 "Dd") ->
      currency (extract (pre ++ [c1; c2; c3] ++ suf)) = USD) /\
  (unit_price (extract scenario3) = None /\
   currency (extract scenario3) = USD).
Proof.
  cbv zeta. split; [|split; [|split]].
  - apply currency_usd_iff.
  - rewrite extract_unfold. cbv zeta.
    destruct (normalize_lines (Str.strip raw)); cbn [currency].
    + right. reflexivity.
    + destruct (_ || _); [left | right]; reflexivity.
  - intros pre suf c1 c2 c3 H1 H2 H3. apply currency_usd_iff. right.
    assert (S1 : Unicode.isspace c1 = false).
    { simpl in H1. destruct H1 as [<-|[<-|[]]]; reflexivity. }
    assert (S3 : Unicode.isspace c3 = false).
    { simpl in H3. destruct H3 as [<-|[<-|[]]]; reflexivity. }
    destruct (StrFacts.strip_by_keeps Unicode.isspace pre suf [c2] c1 c3 S1 S3)
      as [a' [b' E]].
    unfold Str.strip. simpl in E. simpl. rewrite E.
    change (a' ++ c1 :: c2 :: c3 :: b') with (a' ++ [c1; c2; c3] ++ b').
    rewrite !upper_app.
    replace (Str.upper [c1; c2; c3]) with USD.
    + apply StrFacts.contains_app.
    + simpl in H1, H2, H3.
      destruct H1 as [<-|[<-|[]]]; destruct H2 as [<-|[<-|[]]];
        destruct H3 as [<-|[<-|[]]]; reflexivity.
  - vm_compute. split; reflexivity.
Qed.

(** C8.  On the sample of the source the specification is the first line,
    the unit price 3.8, the currency CNY, the item name the first line
    without its length token, the quantity unset, and the confidence the
    base plus the price, specification and item-name bonuses, which is 1.0. *)
Theorem C8_scenario1 :
  let r := extract scenario1 in
  specification r = Some (utf8 "灯带3.4米") /\
  unit_price r = Some 3.8%float /\
  currency r = CNY /\
  item_name r = Some (utf8 "灯带") /\
  item_name r = Some (clean_name (utf8 "灯带3.4米")) /\
  quantity r = None /\
  confidence r = clamp_confidence (0.50 + 0.20 + 0.15 + 0.15)%float /\
  confidence r = clamp_confidence (score true true false true) /\
  confidence r = hundredths (50 + 20 + 15 + 15) /\
  confidence r = 1.0%float.
Proof. vm_compute. repeat split; reflexivity. Qed.

(** The second and fourth scenarios of the specification. *)
Example scenario2_record :
  extract scenario2 =
  {| item_name := Some (utf8 "数量：5");
     specification := Some (utf8 "型号：ABC-100");
     quantity := Some 5.0%float;
     unit_price := Some 120.0%float;
     currency := CNY;
     source_text := utf8 "数量：5 型号：ABC-100 ￥120";
     confidence := 1.0%float |}.
Proof. vm_compute. reflexivity. Qed.

Example scenario4_record :
  extract [] =
  {| item_name := None; specification := None; quantity := None;
     unit_price := None; currency := CNY; source_text := [];
     confidence := 0.0%float |}.
Proof. vm_compute. reflexivity. Qed.

Lemma isdecimal_isword (c : codepoint) :
  Unicode.isdecimal c = true -> Unicode.isword c = true.
Proof.
  unfold Unicode.isword, Unicode.isalnum. intros H.
  destruct (Unicode.is_ascii c) eqn:A.
  - unfold Unicode.isdecimal, Unicode.todecimal in H. rewrite A in H.
    destruct (Unicode.in_range 48%N 57%N c); [reflexivity | discriminate].
  - assert (K : Unicode.known c = false).
    { unfold Unicode.isdecimal, Unicode.todecimal in H. rewrite A in H.
      destruct (Unicode.known c); [discriminate | reflexivity]. }
    unfold Unicode.known in K. rewrite A in K. simpl in K.
    apply orb_false_iff in K as [K K3]. apply orb_false_iff in K as [K1 K2].
    rewrite K1, K2, K3, H. reflexivity.
Qed.

Lemma numeral_last (s ds fs : pystr) (pv : option codepoint) :
  is_numeral s ds fs ->
  s <> [] /\ exists c, Re.last_char s pv = Some c /\ Unicode.isword c = true.
Proof.
  intros [D [N [F E]]]. destruct E as [[_ ->]|[NF ->]].
  - split; [exact N|].
    destruct (ReFacts.last_char_forallb _ ds pv N D) as [c [L Hc]].
    exists c. split; [exact L | apply isdecimal_isword; exact Hc].
  - split; [destruct ds; discriminate|].
    rewrite ReFacts.last_char_app, ReFacts.last_char_cons.
    destruct (ReFacts.last_char_forallb _ fs (Some 46%N) NF F) as [c [L Hc]].
    exists c. split; [exact L | apply isdecimal_isword; exact Hc].
Qed.

(** What the three price patterns match: one of the three forms, ending on
    a word character. *)
Lemma price_patterns_shape (pat : Re.regex) (w : pystr) :
  In pat price_patterns -> Re.lang pat w ->
  price_shape w /\ w <> [] /\
  exists c, Re.last_char w None = Some c /\ Unicode.isword c = true.
Proof.
  intros [<-|[<-|[<-|[]]]] H.
  - unfold price_yuan_pattern in H. cbn [Re.seq Re.lang] in H.
    destruct H as [n [w2 [-> [Ln [sp [w4 [-> [Hs [u [w6 [-> [Hu ->]]]]]]]]]]]].
    apply ReFacts.lang_alts in Hu; [|discriminate].
    destruct (number_lang n Ln) as [ds [fs Hn]].
    rewrite app_nil_r. split; [|split].
    + exists n, ds, fs, sp. split; [exact Hn|]. split; [exact Hs|].
      left. exists u. auto.
    + destruct (numeral_last n ds fs None Hn) as [N _].
      destruct n; [contradiction | discriminate].
    + rewrite !ReFacts.last_char_app. vm_compute in Hu.
      destruct Hu as [<-|[<-|[]]]; eexists; split; reflexivity.
  - unfold price_sign_pattern in H. cbn [Re.seq Re.lang] in H.
    destruct H as [l [w2 [-> [-> [sp [w4 [-> [Hs [n [w6 [-> [Ln ->]]]]]]]]]]]].
    destruct (number_lang n Ln) as [ds [fs Hn]].
    rewrite app_nil_r. split; [|split].
    + exists n, ds, fs, sp. split; [exact Hn|]. split; [exact Hs|].
      right. left. reflexivity.
    + discriminate.
    + rewrite !ReFacts.last_char_app.
      destruct (numeral_last n ds fs
                  (Re.last_char sp (Re.last_char (utf8 "￥") None)) Hn)
        as [_ Hc]. exact Hc.
  - unfold price_rmb_pattern in H. cbn [Re.seq Re.lang] in H.
    destruct H as [l [w2 [-> [-> [sp [w4 [-> [Hs [n [w6 [-> [Ln ->]]]]]]]]]]]].
    destruct (number_lang n Ln) as [ds [fs Hn]].
    rewrite app_nil_r. split; [|split].
    + exists n, ds, fs, sp. split; [exact Hn|]. split; [exact Hs|].
      right. right. reflexivity.
    + discriminate.
    + rewrite !ReFacts.last_char_app.
      destruct (numeral_last n ds fs
                  (Re.last_char sp (Re.last_char (utf8 "RMB") None)) Hn)
        as [_ Hc]. exact Hc.
Qed.

Lemma price_patterns_boundary (pat : Re.regex) :
  In pat price_patterns -> Re.ends_with_boundary pat = true.
Proof. intros [<-|[<-|[<-|[]]]]; reflexivity. Qed.

Lemma scan_price_first_match (lines : list pystr) :
  scan_lines "price" price_patterns lines =
  match first_match price_patterns lines with
  | Some m => captured_value "price" m
  | None => None
  end.
Proof.
  apply scan_lines_first_match. intros pat ln m Hp Hs.
  destruct (group_is_numeral "price" pat ln m (price_patterns_group pat Hp) Hs)
    as [s [ds [fs [_ [_ E]]]]].
  rewrite E. discriminate.
Qed.

Lemma unit_price_scan (raw : pystr) :
  unit_price (extract raw) =
  scan_lines "price" price_patterns (normalize_lines (Str.strip raw)).
Proof.
  rewrite extract_unfold. cbv zeta.
  destruct (normalize_lines (Str.strip raw)); reflexivity.
Qed.

(** C6.  The price is decided by the first match in line-major,
    pattern-minor order over the three patterns; a match is a numeral and a
    yuan word, or the yuan sign and a numeral, or RMB and a numeral, and no
    word character follows it; the unit price is the captured numeral
    converted to the nearest float; a capture that does not convert leaves
    its line without a price instead of failing; and the price step sets
    the unit price and adds 0.20 to the confidence exactly when a price was
    found. *)
Theorem C6_price_extractor (raw : pystr) :
  let lines := normalize_lines (Str.strip raw) in
  let r := extract raw in
  price_patterns = [price_yuan_pattern; price_sign_pattern; price_rmb_pattern] /\
  unit_price r =
    match first_match price_patterns lines with
    | Some m => captured_value "price" m
    | None => None
    end /\
  (forall m, first_match price_patterns lines = Some m ->
     exists s ds fs,
       Re.group m "price" = Some s /\ is_numeral s ds fs /\
       unit_price r =
       Some (PyFloat.float_of_numeral (digit_values ds) (digit_values fs))) /\
  (forall pat ln m,
     In pat price_patterns -> Re.search pat ln = Some m ->
     exists pre w suf,
       ln = pre ++ w ++ suf /\ price_shape w /\
       match suf with [] => True | x :: _ => Unicode.isword x = false end) /\
  (forall ln rest,
     first_pattern "price" price_patterns ln = Some None ->
     scan_lines "price" price_patterns (ln :: rest)
     = scan_lines "price" price_patterns rest) /\
  (forall res,
     price_step lines res =
     match unit_price r with
     | Some v => add_confidence (set_unit_price res v) 0.20%float
     | None => res
     end).
Proof.
  cbv zeta. split; [reflexivity|]. split; [|split; [|split; [|split]]].
  - rewrite unit_price_scan. apply scan_price_first_match.
  - intros m Hm. rewrite unit_price_scan, scan_price_first_match, Hm.
    unfold first_match in Hm. apply first_some_in in Hm.
    apply in_flat_map in Hm as [ln [_ Hm]].
    apply in_map_iff in Hm as [pat [Hs Hp]].
    destruct (group_is_numeral "price" pat ln m (price_patterns_group pat Hp) Hs)
      as [s [ds [fs [G [Hn E]]]]].
    exists s, ds, fs. auto.
  - intros pat ln m Hp Hs.
    destruct (ReFacts.search_sound_boundary pat ln m
                (price_patterns_boundary pat Hp) Hs)
      as [pre [w [suf [E [L B]]]]].
    destruct (price_patterns_shape pat w Hp L) as [Sh [N [c [Lc Wc]]]].
    exists pre, w, suf. repeat split; auto. exact (B c Lc N Wc).
  - intros ln rest H. cbn [scan_lines]. rewrite H. reflexivity.
  - intros res. rewrite unit_price_scan. reflexivity.
Qed.

(** ** The unit vocabularies *)

Lemma lang_unit_pattern (units : list pystr) (w : pystr) :
  units <> [] -> Re.lang (unit_pattern units) w ->
  exists n sp u, w = n ++ sp ++ u /\ Re.lang number n /\
                 forallb Unicode.isspace sp = true /\ In u units.
Proof.
  intros N H. unfold unit_pattern in H. cbn [Re.seq Re.lang] in H.
  destruct H as [n [w2 [-> [Ln [sp [w4 [-> [Hs [u [w6 [-> [Hu ->]]]]]]]]]]]].
  exists n, sp, u. rewrite app_nil_r. repeat split; auto.
  apply ReFacts.lang_alts; assumption.
Qed.

Lemma lang_qty_unit_pattern (w : pystr) :
  Re.lang qty_unit_pattern w ->
  exists n sp u, w = n ++ sp ++ u /\ Re.lang number n /\
                 forallb Unicode.isspace sp = true /\ In u countable_units.
Proof.
  intros H. apply (lang_unit_pattern countable_units); [discriminate|].
  exact H.
Qed.

Lemma initials_in (ws : list pystr) (c : codepoint) (u : pystr) :
  In (c :: u) ws -> In c (initials ws).
Proof.
  intros H. unfold initials. apply in_flat_map. exists (c :: u).
  split; [exact H | left; reflexivity].
Qed.

(** A pattern whose every match contains a character of [vocab] finds
    nothing in a line without such characters. *)
Lemma no_vocab_no_match (pat : Re.regex) (vocab ln : pystr) :
  (forall w, Re.lang pat w -> exists c, In c w /\ In c vocab) ->
  (forall c, In c ln -> ~ In c vocab) ->
  Re.search pat ln = None.
Proof.
  intros Hp Hl. destruct (Re.search pat ln) as [m|] eqn:E; [|reflexivity].
  exfalso. apply ReFacts.search_sound in E
    as [pre [w [suf [st' [-> [L _]]]]]].
  destruct (Hp w L) as [c [Hc Hv]]. apply (Hl c); [|exact Hv].
  apply in_or_app. right. apply in_or_app. left. exact Hc.
Qed.

Lemma unit_pattern_vocab (units : list pystr) (vocab : pystr) (w : pystr) :
  units <> [] -> ~ In [] units ->
  (forall c, In c (initials units) -> In c vocab) ->
  Re.lang (unit_pattern units) w -> exists c, In c w /\ In c vocab.
Proof.
  intros N NE Hv H.
  destruct (lang_unit_pattern units w N H) as [n [sp [u [-> [_ [_ Hu]]]]]].
  destruct u as [|c u]; [contradiction|]. exists c. split.
  - apply in_or_app. right. apply in_or_app. right. left. reflexivity.
  - apply Hv. apply (initials_in units c u). exact Hu.
Qed.

Lemma spec_patterns_vocab (pat : Re.regex) (w : pystr) :
  In pat (first_line_spec_pattern :: spec_patterns) ->
  Re.lang pat w -> exists c, In c w /\ In c spec_vocabulary.
Proof.
  intros [<-|[<-|[<-|[<-|[<-|[]]]]]].
  - apply unit_pattern_vocab; [discriminate | no_empty_word | vocab_sub].
  - apply unit_pattern_vocab; [discriminate | no_empty_word | vocab_sub].
  - apply unit_pattern_vocab; [discriminate | no_empty_word | vocab_sub].
  - apply unit_pattern_vocab; [discriminate | no_empty_word | vocab_sub].
  - intros H. unfold spec_label_pattern in H. cbn [Re.seq Re.lang] in H.
    destruct H as [u [w2 [-> [Hu _]]]].
    apply ReFacts.lang_alts in Hu; [|discriminate].
    vm_compute in Hu.
    repeat (destruct Hu as [<-|Hu];
            [eexists; split; [left; reflexivity | decide_in]|]).
    contradiction.
Qed.

Lemma qty_patterns_vocab (pat : Re.regex) (w : pystr) :
  In pat qty_patterns ->
  Re.lang pat w -> exists c, In c w /\ In c qty_vocabulary.
Proof.
  intros [<-|[<-|[]]].
  - intros H. apply (unit_pattern_vocab countable_units);
      [discriminate | no_empty_word | vocab_sub | exact H].
  - intros H. unfold qty_label_pattern in H. cbn [Re.seq Re.lang] in H.
    destruct H as [u [w2 [-> [-> _]]]].
    eexists. split; [left; reflexivity | decide_in].
Qed.

Lemma normalize_lines_sub (raw ln : pystr) (c : codepoint) :
  In ln (normalize_lines (Str.strip raw)) -> In c ln -> In c raw.
Proof.
  unfold normalize_lines. intros Hl Hc.
  apply in_map_iff in Hl as [l0 [<- Hl]]. apply filter_In in Hl as [Hl _].
  apply StrFacts.strip_by_sub in Hc.
  apply (StrFacts.splitlines_sub _ _ _ Hl) in Hc.
  apply StrFacts.strip_by_sub in Hc. exact Hc.
Qed.

Lemma find_spec_none (lines : list pystr) :
  (forall ln c, In ln lines -> In c ln -> ~ In c spec_vocabulary) ->
  find_spec lines = None.
Proof.
  intros H.
  assert (M : forall pat ln, In pat (first_line_spec_pattern :: spec_patterns) ->
                             In ln lines -> matches pat ln = false).
  { intros pat ln Hp Hl. unfold matches.
    rewrite (no_vocab_no_match pat spec_vocabulary ln); [reflexivity | |].
    - intros w. apply spec_patterns_vocab. exact Hp.
    - intros c. apply H. exact Hl. }
  unfold find_spec.
  assert (F : find (fun ln => existsb (fun pat => matches pat ln) spec_patterns)
                   lines = None).
  { clear H. induction lines as [|ln lines IH]; [reflexivity|]. cbn [find].
    destruct (existsb (fun pat => @matches db pat ln) spec_patterns) eqn:E.
    - exfalso. apply existsb_exists in E as [pat [Hp E]].
      rewrite (M pat ln) in E;
        [discriminate | right; exact Hp | left; reflexivity].
    - apply IH. intros pat l Hp Hl. apply M; [exact Hp | right; exact Hl]. }
  rewrite F. destruct lines as [|first rest]; [reflexivity|].
  rewrite (M first_line_spec_pattern first); [reflexivity | left | left];
    reflexivity.
Qed.

Lemma scan_qty_none (lines : list pystr) :
  (forall ln c, In ln lines -> In c ln -> ~ In c qty_vocabulary) ->
  scan_lines "qty" qty_patterns lines = None.
Proof.
  intros H. induction lines as [|ln lines IH]; [reflexivity|].
  cbn [scan_lines]. rewrite first_pattern_spec.
  unfold qty_patterns at 1. cbn [map first_some].
  rewrite (no_vocab_no_match qty_unit_pattern qty_vocabulary ln).
  - rewrite (no_vocab_no_match qty_label_pattern qty_vocabulary ln).
    + simpl. apply IH. intros l c Hl. apply H. right. exact Hl.
    + intros w. apply qty_patterns_vocab. right. left. reflexivity.
    + intros c. apply H. left. reflexivity.
  - intros w. apply qty_patterns_vocab. left. reflexivity.
  - intros c. apply H. left. reflexivity.
Qed.

Lemma number_chars (n : pystr) :
  Re.lang number n -> forallb numeral_or_blank n = true.
Proof.
  intros H. destruct (number_lang n H) as [ds [fs [D [_ [F E]]]]].
  assert (G : forall l, forallb Unicode.isdecimal l = true ->
                        forallb numeral_or_blank l = true).
  { intros l Hl. apply forallb_forall. intros c Hc.
    unfold numeral_or_blank.
    rewrite (proj1 (forallb_forall _ _) Hl c Hc). reflexivity. }
  destruct E as [[_ ->]|[_ ->]].
  - apply G. exact D.
  - rewrite forallb_app. rewrite (G ds D). cbn [forallb andb].
    rewrite (G fs F). unfold numeral_or_blank. rewrite N.eqb_refl.
    rewrite orb_true_r. reflexivity.
Qed.

Lemma blank_chars (sp : pystr) :
  forallb Unicode.isspace sp = true -> forallb numeral_or_blank sp = true.
Proof.
  intros H. apply forallb_forall. intros c Hc. unfold numeral_or_blank.
  rewrite (proj1 (forallb_forall _ _) H c Hc). apply orb_true_r.
Qed.

(** The units are apart: no countable unit begins like a length or power
    unit, and none of these characters can belong to a numeral or to the
    blanks after it. *)
Lemma units_apart :
  forallb (fun c1 =>
             negb (numeral_or_blank c1) &&
             forallb (fun c2 => negb (numeral_or_blank c2) && negb (c1 =? c2)%N)
                     (initials (List.concat length_power_units)))
          (initials countable_units) = true.
Proof. vm_compute. reflexivity. Qed.

Lemma units_apart_at (c1 c2 : codepoint) :
  In c1 (initials countable_units) ->
  In c2 (initials (List.concat length_power_units)) ->
  numeral_or_blank c1 = false /\ numeral_or_blank c2 = false /\ c1 <> c2.
Proof.
  intros H1 H2. pose proof units_apart as A.
  apply (proj1 (forallb_forall _ _)) with (x := c1) in A; [|exact H1].
  apply andb_prop in A as [A1 A].
  apply (proj1 (forallb_forall _ _)) with (x := c2) in A; [|exact H2].
  apply andb_prop in A as [A2 A3].
  apply negb_true_iff in A1, A2, A3. apply N.eqb_neq in A3. auto.
Qed.

(** Where a unit pattern matches, the first character that is neither
    numeral nor blank begins one of its units. *)
Lemma unit_pattern_first_unit (units : list pystr) (st st' : Re.mstate) :
  units <> [] -> ~ In [] units ->
  In st' (Re.rmatch (unit_pattern units) st) ->
  exists a c t, Re.rest st = a ++ c :: t /\
                forallb numeral_or_blank a = true /\ In c (initials units).
Proof.
  intros N NE H. destruct (ReFacts.rmatch_sound _ _ _ H) as [w [E [_ L]]].
  destruct (lang_unit_pattern units w N L) as [n [sp [u [-> [Ln [Hs Hu]]]]]].
  destruct u as [|c u]; [contradiction|].
  exists (n ++ sp), c, (u ++ Re.rest st'). repeat split.
  - rewrite E. rewrite <- !app_assoc. reflexivity.
  - rewrite forallb_app, (number_chars n Ln), (blank_chars sp Hs). reflexivity.
  - apply (initials_in units c u). exact Hu.
Qed.

Lemma qty_unit_pattern_first_unit (st st' : Re.mstate) :
  In st' (Re.rmatch qty_unit_pattern st) ->
  exists a c t, Re.rest st = a ++ c :: t /\
                forallb numeral_or_blank a = true /\
                In c (initials countable_units).
Proof.
  intros H. destruct (ReFacts.rmatch_sound _ _ _ H) as [w [E [_ L]]].
  destruct (lang_qty_unit_pattern w L) as [n [sp [u [-> [Ln [Hs Hu]]]]]].
  destruct u as [|c u].
  - exfalso. revert Hu. no_empty_word.
  - exists (n ++ sp), c, (u ++ Re.rest st'). repeat split.
    + rewrite E. rewrite <- !app_assoc. reflexivity.
    + rewrite forallb_app, (number_chars n Ln), (blank_chars sp Hs).
      reflexivity.
    + apply (initials_in countable_units c u). exact Hu.
Qed.

(** No position starts both a match of the countable-unit pattern and a
    match of a length or power pattern. *)
Lemma unit_patterns_exclusive (units : list pystr) (pv : option codepoint)
  (s : pystr) (p : nat) :
  In units length_power_units ->
  Re.match_at qty_unit_pattern pv s p <> None ->
  Re.match_at (unit_pattern units) pv s p = None.
Proof.
  intros Hu Hq. unfold Re.match_at in *.
  destruct (Re.rmatch qty_unit_pattern (Re.MState pv s p [])) as [|st1 l1] eqn:E1;
    [contradiction|].
  destruct (Re.rmatch (unit_pattern units) (Re.MState pv s p [])) as [|st2 l2] eqn:E2;
    [reflexivity|].
  exfalso.
  assert (H1 : In st1 (Re.rmatch qty_unit_pattern (Re.MState pv s p [])))
    by (rewrite E1; left; reflexivity).
  assert (H2 : In st2 (Re.rmatch (unit_pattern units) (Re.MState pv s p [])))
    by (rewrite E2; left; reflexivity).
  apply qty_unit_pattern_first_unit in H1 as [a1 [c1 [t1 [R1 [F1 I1]]]]].
  apply unit_pattern_first_unit in H2 as [a2 [c2 [t2 [R2 [F2 I2]]]]].
  - assert (I2' : In c2 (initials (List.concat length_power_units))).
    { unfold initials in *. apply in_flat_map in I2 as [u [Hu1 Hu2]].
      apply in_flat_map. exists u. split; [|exact Hu2].
      apply in_concat. exists units. auto. }
    destruct (units_apart_at c1 c2 I1 I2') as [S1 [S2 D]].
    apply D. simpl in R1, R2. rewrite R1 in R2.
    exact (StrFacts.first_outside numeral_or_blank _ _ _ _ _ _ F1 F2 S1 S2 R2).
  - vm_compute in Hu. intros ->.
    repeat (destruct Hu as [Hu|Hu]; [discriminate|]). contradiction.
  - vm_compute in Hu.
    repeat (destruct Hu as [<-|Hu]; [no_empty_word|]). contradiction.
Qed.

Lemma specification_find_spec (raw : pystr) :
  specification (extract raw) = find_spec (normalize_lines (Str.strip raw)).
Proof.
  rewrite extract_unfold. cbv zeta.
  destruct (normalize_lines (Str.strip raw)); reflexivity.
Qed.

Lemma quantity_scan (raw : pystr) :
  quantity (extract raw) =
  scan_lines "qty" qty_patterns (normalize_lines (Str.strip raw)).
Proof.
  rewrite extract_unfold. cbv zeta.
  destruct (normalize_lines (Str.strip raw)); reflexivity.
Qed.

Lemma specification_needs_vocabulary (raw : pystr) :
  (forall c, In c raw -> ~ In c spec_vocabulary) ->
  specification (extract raw) = None.
Proof.
  intros H. rewrite specification_find_spec. apply find_spec_none.
  intros ln c Hl Hc. apply H. exact (normalize_lines_sub raw ln c Hl Hc).
Qed.

Lemma quantity_needs_vocabulary (raw : pystr) :
  (forall c, In c raw -> ~ In c qty_vocabulary) ->
  quantity (extract raw) = None.
Proof.
  intros H. rewrite quantity_scan. apply scan_qty_none.
  intros ln c Hl Hc. apply H. exact (normalize_lines_sub raw ln c Hl Hc).
Qed.

Lemma numeral_chars (s ds fs : pystr) :
  is_numeral s ds fs -> forallb numeral_or_blank s = true.
Proof.
  intros [D [_ [F E]]].
  assert (G : forall l, forallb Unicode.isdecimal l = true ->
                        forallb numeral_or_blank l = true).
  { intros l Hl. apply forallb_forall. intros c Hc.
    unfold numeral_or_blank.
    rewrite (proj1 (forallb_forall _ _) Hl c Hc). reflexivity. }
  destruct E as [[_ ->]|[_ ->]].
  - apply G. exact D.
  - rewrite forallb_app. rewrite (G ds D). cbn [forallb andb].
    rewrite (G fs F). unfold numeral_or_blank. rewrite N.eqb_refl.
    rewrite orb_true_r. reflexivity.
Qed.

Lemma mem_in (c : codepoint) (l : pystr) : Str.mem c l = true <-> In c l.
Proof.
  unfold Str.mem. rewrite existsb_exists. split.
  - intros [x [Hx E]]. apply N.eqb_eq in E. subst. exact Hx.
  - intros H. exists c. split; [exact H | apply N.eqb_refl].
Qed.

(** No character of the specification vocabulary is part of a numeral, a
    blank or a countable unit; and likewise for the quantity vocabulary and
    the length and power units. *)
Lemma spec_vocabulary_apart :
  forallb (fun c => negb (numeral_or_blank c) &&
                    negb (Str.mem c (List.concat countable_units)))
          spec_vocabulary = true.
Proof. vm_compute. reflexivity. Qed.

Lemma qty_vocabulary_apart :
  forallb (fun c => negb (numeral_or_blank c) &&
                    negb (Str.mem c (List.concat (List.concat length_power_units))))
          qty_vocabulary = true.
Proof. vm_compute. reflexivity. Qed.

(** A token made of a numeral, blanks and a unit has no character of the
    vocabulary of the other extractor. *)
Lemma token_outside (vocab others s ds fs sp u : pystr) :
  forallb (fun c => negb (numeral_or_blank c) && negb (Str.mem c others))
          vocab = true ->
  is_numeral s ds fs -> forallb Unicode.isspace sp = true ->
  (forall c, In c u -> In c others) ->
  forall c, In c (s ++ sp ++ u) -> ~ In c vocab.
Proof.
  intros V Hn Hs Hu c Hc Hv.
  apply (proj1 (forallb_forall _ _) V) in Hv.
  apply andb_prop in Hv as [V1 V2]. apply negb_true_iff in V1, V2.
  apply in_app_or in Hc as [Hc|Hc]; [|apply in_app_or in Hc as [Hc|Hc]].
  - rewrite (proj1 (forallb_forall _ _) (numeral_chars s ds fs Hn) c Hc) in V1.
    discriminate.
  - rewrite (proj1 (forallb_forall _ _) (blank_chars sp Hs) c Hc) in V1.
    discriminate.
  - apply Hu in Hc. apply mem_in in Hc. congruence.
Qed.

(** C3, as the code has it.  The countable units and the length and power
    units are disjoint vocabularies, and no position of a line starts both
    a match of the countable-unit quantity pattern and a match of a length
    or power pattern.  An input made of a numeral and a countable unit
    ("3个") has no specification, and one made of a numeral and a length or
    power unit ("3.4米", "5W") has no quantity; more generally the
    specification stays unset without a character of the specification
    vocabulary, and the quantity without a countable unit or the label.
    The labelled quantity pattern is not bound to a unit: "数量：5 米" has
    the quantity 5.0. *)
Theorem C3_unit_vocabularies :
  (forall c, In c (initials countable_units) ->
             ~ In c (initials (List.concat length_power_units))) /\
  (forall units pv s p,
      In units length_power_units ->
      Re.match_at qty_unit_pattern pv s p <> None ->
      Re.match_at (unit_pattern units) pv s p = None) /\
  (forall s ds fs sp u,
      is_numeral s ds fs -> forallb Unicode.isspace sp = true ->
      In u countable_units ->
      specification (extract (s ++ sp ++ u)) = None) /\
  (forall s ds fs sp u units,
      is_numeral s ds fs -> forallb Unicode.isspace sp = true ->
      In units length_power_units -> In u units ->
      quantity (extract (s ++ sp ++ u)) = None) /\
  (forall raw, (forall c, In c raw -> ~ In c spec_vocabulary) ->
               specification (extract raw) = None) /\
  (forall raw, (forall c, In c raw -> ~ In c qty_vocabulary) ->
               quantity (extract raw) = None) /\
  (specification (extract (utf8 "3个")) = None /\
   quantity (extract (utf8 "3个")) = Some 3%float) /\
  (quantity (extract (utf8 "3.4米")) = None /\
   specification (extract (utf8 "3.4米")) = Some (utf8 "3.4米")) /\
  (quantity (extract (utf8 "5W")) = None /\
   specification (extract (utf8 "5W")) = Some (utf8 "5W")) /\
  quantity (extract (utf8 "数量：5 米")) = Some 5%float.
Proof.
  repeat apply conj.
  - intros c H1 H2. destruct (units_apart_at c c H1 H2) as [_ [_ D]].
    apply D. reflexivity.
  - apply unit_patterns_exclusive.
  - intros s ds fs sp u Hn Hs Hu. apply specification_needs_vocabulary.
    apply (token_outside spec_vocabulary (List.concat countable_units)
             s ds fs sp u spec_vocabulary_apart Hn Hs).
    intros c Hc. apply in_concat. exists u. auto.
  - intros s ds fs sp u units Hn Hs Hus Hu. apply quantity_needs_vocabulary.
    apply (token_outside qty_vocabulary
             (List.concat (List.concat length_power_units))
             s ds fs sp u qty_vocabulary_apart Hn Hs).
    intros c Hc. apply in_concat. exists u. split; [|exact Hc].
    apply in_concat. exists units. auto.
  - apply specification_needs_vocabulary.
  - apply quantity_needs_vocabulary.
  - vm_compute. reflexivity.
  - vm_compute. reflexivity.
  - vm_compute. reflexivity.
  - vm_compute. reflexivity.
  - vm_compute. reflexivity.
  - vm_compute. reflexivity.
  - vm_compute. reflexivity.
Qed.

Lemma item_name_first (raw : pystr) :
  item_name (extract raw) =
  option_map name_of (hd_error (normalize_lines (Str.strip raw))).
Proof.
  rewrite extract_unfold. cbv zeta.
  destruct (normalize_lines (Str.strip raw)); reflexivity.
Qed.

(** C7, as the code has it.  The item name is read from the first line
    alone: the filler phrases are removed one after the other in the order
    of the list, then the numerals followed by a length or power unit, then
    the space character (U+0020, no other whitespace) and the punctuation
    [,，:：-—/] are trimmed at both ends; what remains is the item name with
    a bonus of 0.15, and when nothing remains the item name is the first
    line as it was, with a bonus of 0.05. *)
Theorem C7_item_name (raw : pystr) :
  let lines := normalize_lines (Str.strip raw) in
  let r := extract raw in
  item_name r = option_map name_of (hd_error lines) /\
  (forall raw', hd_error (normalize_lines (Str.strip raw')) = hd_error lines ->
                item_name (extract raw') = item_name r) /\
  (forall first,
     untrimmed_name first =
     Re.sub first_line_spec_pattern []
       (Str.replace (utf8 "报个价") [] (Str.replace (utf8 "怎么样") []
       (Str.replace (utf8 "行不行") [] (Str.replace (utf8 "可以吗") []
       (Str.replace (utf8 "看看") [] (Str.replace (utf8 "要不要") []
       (Str.replace (utf8 "便宜") [] (Str.replace (utf8 "价格") []
          first)))))))) /\
     (exists a b,
        untrimmed_name first = a ++ clean_name first ++ b /\
        forallb (fun c => Str.mem c (utf8 " ,，:：-—/")) a = true /\
        forallb (fun c => Str.mem c (utf8 " ,，:：-—/")) b = true) /\
     (forall c tl, clean_name first = c :: tl ->
                   Str.mem c (utf8 " ,，:：-—/") = false) /\
     (forall c init, clean_name first = init ++ [c] ->
                     Str.mem c (utf8 " ,，:：-—/") = false) /\
     (clean_name first <> [] ->
      name_of first = clean_name first /\
      forall res, name_step first res =
                  add_confidence (set_item_name res (clean_name first))
                                 0.15%float) /\
     (clean_name first = [] ->
      name_of first = first /\
      forall res, name_step first res =
                  add_confidence (set_item_name res first) 0.05%float)).
Proof.
  cbv zeta. split; [apply item_name_first|]. split.
  - intros raw' H. rewrite !item_name_first, H. reflexivity.
  - intros first. repeat apply conj.
    + reflexivity.
    + apply (StrFacts.strip_by_split
               (fun c => Str.mem c name_strip_chars) (untrimmed_name first)).
    + intros c tl H.
      exact (StrFacts.strip_by_first
               (fun c => Str.mem c name_strip_chars) _ _ _ H).
    + intros c init H.
      exact (StrFacts.strip_by_last
               (fun c => Str.mem c name_strip_chars) _ _ _ H).
    + intros H. unfold name_of, name_step.
      destruct (clean_name first); [contradiction|]. simpl. auto.
    + intros H. unfold name_of, name_step. rewrite H. simpl. auto.
Qed.

End ExtractorFacts.

(* ================================================================== *)
(** * Instances at concrete inputs *)
(* ================================================================== *)

(** The theorems hold for every Unicode database; the instances below take
    the plain one.  U+3000 is the ideographic space and U+0009 the tab. *)

(** C1 at an input of a space, a tab, a line feed and an ideographic space. *)
Lemma C1_blank_input_witness :
  forallb Unicode.isspace [32; 9; 10; 12288]%N = true /\
  (Str.strip [32; 9; 10; 12288]%N = [] /\
   @extract Unicode.plain_db [32; 9; 10; 12288]%N =
   {| item_name := None; specification := None; quantity := None;
      unit_price := None; currency := CNY;
      source_text := Str.strip [32; 9; 10; 12288]%N;
      confidence := 0.0%float |}).
Proof.
  split; [reflexivity|].
  apply (@C1_blank_input Unicode.plain_db [32; 9; 10; 12288]%N).
  reflexivity.
Defined.

(** C9 at the sample of the source. *)
Lemma C9_item_name_set_witness :
  normalize_lines (Str.strip scenario1) <> [] /\
  exists first name,
    hd_error (normalize_lines (Str.strip scenario1)) = Some first /\
    item_name (@extract Unicode.plain_db scenario1) = Some name /\
    name <> [] /\
    (name = @clean_name Unicode.plain_db first \/
     (@clean_name Unicode.plain_db first = [] /\ name = first)).
Proof.
  assert (H : normalize_lines (Str.strip scenario1) <> [])
    by (vm_compute; discriminate).
  split; [exact H|].
  exact (@C9_item_name_set Unicode.plain_db scenario1 H).
Defined.

(** C10 at the third sample of the specification. *)
Lemma C10_confidence_floor_witness :
  normalize_lines (Str.strip scenario3) <> [] /\
  ((0.55 <=? confidence (@extract Unicode.plain_db scenario3))%float = true /\
   exists k : Z, (55 <= k <= 100)%Z /\
                 confidence (@extract Unicode.plain_db scenario3) = hundredths k).
Proof.
  assert (H : normalize_lines (Str.strip scenario3) <> [])
    by (vm_compute; discriminate).
  split; [exact H|].
  exact (@C10_confidence_floor Unicode.plain_db scenario3 H).
Defined.

(** C3 as stated fails.  In "数量：5 米" the numeral 5, at index 3, is
    followed by a length unit: the metre pattern matches "5 米" from index 3
    to 6, and the line is the specification.  The labelled quantity pattern
    matches from index 0 to 4 and captures the same numeral, and the
    quantity is 5.0. *)
Lemma C3_counterexample :
  @Re.search Unicode.plain_db (unit_pattern metre_units) (utf8 "数量：5 米")
  = Some (Re.MkMatch 3 6 []) /\
  @Re.search Unicode.plain_db qty_label_pattern (utf8 "数量：5 米")
  = Some (Re.MkMatch 0 4 [("qty", utf8 "5")]) /\
  specification (@extract Unicode.plain_db (utf8 "数量：5 米"))
  = Some (utf8 "数量：5 米") /\
  quantity (@extract Unicode.plain_db (utf8 "数量：5 米")) = Some 5%float.
Proof. vm_compute. repeat split; reflexivity. Qed.

(** C4 as stated fails.  The input of one space is not empty, and its source
    text is the empty string. *)
Lemma C4_counterexample :
  utf8 " " <> [] /\
  source_text (@extract Unicode.plain_db (utf8 " ")) = [].
Proof. split; [discriminate | vm_compute; reflexivity]. Qed.

(** C7 as stated fails.  In "灯带<U+3000>3.4米" the length token is removed
    and the ideographic space before it stays: the item name ends with
    whitespace, where trimming whitespace would give "灯带".  In
    "价格<tab>便宜" the fillers are removed and the tab stays: the item name
    is the tab, with the larger bonus, where trimming whitespace would leave
    nothing and fall back to the first line. *)
Lemma C7_counterexample :
  (item_name (@extract Unicode.plain_db (utf8 "灯带" ++ [12288%N] ++ utf8 "3.4米"))
   = Some (utf8 "灯带" ++ [12288%N]) /\
   Unicode.isspace 12288%N = true /\
   @name_of_spec Unicode.plain_db (utf8 "灯带" ++ [12288%N] ++ utf8 "3.4米")
   = utf8 "灯带") /\
  (item_name (@extract Unicode.plain_db (utf8 "价格" ++ [9%N] ++ utf8 "便宜"))
   = Some [9%N] /\
   Unicode.isspace 9%N = true /\
   confidence (@extract Unicode.plain_db (utf8 "价格" ++ [9%N] ++ utf8 "便宜"))
   = hundredths 65 /\
   @name_of_spec Unicode.plain_db (utf8 "价格" ++ [9%N] ++ utf8 "便宜")
   = utf8 "价格" ++ [9%N] ++ utf8 "便宜").
Proof. vm_compute. repeat split; reflexivity. Qed.

(* ================================================================== *)
(** * Facts about lines *)
(* ================================================================== *)

Module LineFacts.

Import Str Lines.

Lemma splitlines_break (c : codepoint) (tl : pystr) :
  Unicode.islinebreak c = true ->
  splitlines (c :: tl) = [] :: splitlines (after_break c tl).
Proof.
  intros H. simpl. rewrite H. f_equal. unfold after_break.
  destruct tl as [|n tl']; [reflexivity|].
  destruct ((c =? 13)%N && (n =? 10)%N); reflexivity.
Qed.

Lemma splitlines_nobreak (c : codepoint) (tl : pystr) :
  Unicode.islinebreak c = false ->
  splitlines (c :: tl) = cons_head c (splitlines tl).
Proof. intros H. simpl. rewrite H. reflexivity. Qed.

Lemma after_break_length (c : codepoint) (tl : pystr) :
  (List.length (after_break c tl) <= List.length tl)%nat.
Proof.
  unfold after_break. destruct tl as [|n tl']; [apply Nat.le_refl|].
  destruct ((c =? 13)%N && (n =? 10)%N); simpl; lia.
Qed.

Lemma after_break_sub (c x : codepoint) (tl : pystr) :
  In x (after_break c tl) -> In x tl.
Proof.
  unfold after_break. destruct tl as [|n tl']; [auto|].
  destruct ((c =? 13)%N && (n =? 10)%N); simpl; auto.
Qed.

Lemma after_break_app (c : codepoint) (tl x : pystr) :
  tl <> [] -> after_break c (tl ++ x) = after_break c tl ++ x.
Proof.
  destruct tl as [|n tl']; [contradiction|]. intros _. simpl.
  destruct ((c =? 13)%N && (n =? 10)%N); reflexivity.
Qed.

(** Induction along the way [splitlines] reads its argument. *)
Lemma splitlines_ind (P : pystr -> Prop) :
  P [] ->
  (forall c tl, Unicode.islinebreak c = true ->
                P (after_break c tl) -> P (c :: tl)) ->
  (forall c tl, Unicode.islinebreak c = false -> P tl -> P (c :: tl)) ->
  forall s, P s.
Proof.
  intros H0 Hb Hn s.
  assert (G : forall n s, (List.length s <= n)%nat -> P s).
  { clear s. induction n as [|n IH]; intros s Hl.
    - destruct s; [exact H0 | simpl in Hl; lia].
    - destruct s as [|c tl]; [exact H0|]. simpl in Hl.
      destruct (Unicode.islinebreak c) eqn:E.
      + apply Hb; [exact E|]. apply IH.
        pose proof (after_break_length c tl). lia.
      + apply Hn; [exact E|]. apply IH. lia. }
  apply (G (List.length s)). apply Nat.le_refl.
Qed.

Lemma splitlines_nonempty (s : pystr) : s <> [] -> splitlines s <> [].
Proof.
  destruct s as [|c tl]; [contradiction|]. intros _.
  destruct (Unicode.islinebreak c) eqn:E.
  - rewrite (splitlines_break _ _ E). discriminate.
  - rewrite (splitlines_nobreak _ _ E).
    destruct (splitlines tl); discriminate.
Qed.

Lemma cons_head_app (c : codepoint) (l r : list pystr) :
  l <> [] -> cons_head c (l ++ r) = cons_head c l ++ r.
Proof. destruct l; [contradiction | reflexivity]. Qed.

Lemma splitlines_lf (b : pystr) : splitlines (LF :: b) = [] :: splitlines b.
Proof.
  rewrite splitlines_break by reflexivity. f_equal.
  destruct b; reflexivity.
Qed.

Lemma after_break_lf (c : codepoint) (b : pystr) :
  after_break c (LF :: b) = if (c =? 13)%N then b else LF :: b.
Proof.
  unfold after_break, LF. rewrite N.eqb_refl, andb_true_r. reflexivity.
Qed.

(** A line feed between two texts separates their lines. *)
Lemma splitlines_app_lf (a b : pystr) :
  splitlines (a ++ LF :: b) = splitlines (a ++ [LF]) ++ splitlines b.
Proof.
  revert b. pattern a. apply splitlines_ind; clear a.
  - intros b. cbn [app]. rewrite !splitlines_lf. reflexivity.
  - intros c tl Hc IH b. rewrite <- !app_comm_cons.
    rewrite !(splitlines_break _ _ Hc). rewrite <- app_comm_cons. f_equal.
    destruct tl as [|n tl'].
    + cbn [app]. rewrite !after_break_lf.
      destruct (c =? 13)%N; [reflexivity|].
      rewrite !splitlines_lf. reflexivity.
    + rewrite !after_break_app by discriminate. apply IH.
  - intros c tl Hc IH b. rewrite <- !app_comm_cons.
    rewrite !(splitlines_nobreak _ _ Hc), IH.
    apply cons_head_app. apply splitlines_nonempty.
    destruct tl; discriminate.
Qed.

(** A final line feed adds at most one empty line. *)
Lemma splitlines_close (a : pystr) :
  exists E, (E = [] \/ E = [[]]) /\
            splitlines (a ++ [LF]) = splitlines a ++ E.
Proof.
  pattern a. apply splitlines_ind; clear a.
  - exists [[]]. split; [right|]; reflexivity.
  - intros c tl Hc [E [HE IH]]. rewrite <- !app_comm_cons.
    rewrite !(splitlines_break _ _ Hc).
    destruct tl as [|n tl'].
    + cbn [app]. rewrite after_break_lf.
      replace (after_break c []) with (@nil codepoint) by reflexivity.
      destruct (c =? 13)%N.
      * exists []. split; [left|]; reflexivity.
      * exists [[]]. split; [right; reflexivity|].
        rewrite splitlines_lf. reflexivity.
    + rewrite after_break_app by discriminate. rewrite IH.
      exists E. split; [exact HE | reflexivity].
  - intros c tl Hc [E [HE IH]]. rewrite <- !app_comm_cons.
    rewrite !(splitlines_nobreak _ _ Hc), IH.
    destruct tl as [|n tl'].
    + exists []. split; [left; reflexivity|].
      cbn [app] in IH. rewrite splitlines_lf in IH.
      replace (splitlines []) with (@nil pystr) in * by reflexivity.
      cbn [app] in *. rewrite <- IH. reflexivity.
    + exists E. split; [exact HE|]. apply cons_head_app.
      apply splitlines_nonempty. discriminate.
Qed.

Lemma norm_list_app (l r : list pystr) :
  norm_list (l ++ r) = norm_list l ++ norm_list r.
Proof. unfold norm_list. rewrite filter_app, map_app. reflexivity. Qed.

Lemma normalize_lines_norm (t : pystr) :
  normalize_lines t = norm_list (splitlines t).
Proof. reflexivity. Qed.

Lemma normalize_lines_app_lf (a b : pystr) :
  normalize_lines (a ++ LF :: b) = normalize_lines a ++ normalize_lines b.
Proof.
  rewrite !normalize_lines_norm, splitlines_app_lf, norm_list_app.
  f_equal. destruct (splitlines_close a) as [E [[-> | ->] H]];
    rewrite H, norm_list_app; simpl; apply app_nil_r.
Qed.

(** ** Stripping *)

Lemma dropwhile_app_all (p : codepoint -> bool) (a b : pystr) :
  forallb p a = true -> dropwhile p (a ++ b) = dropwhile p b.
Proof.
  induction a as [|x a IH]; simpl; [reflexivity|].
  intros H. apply andb_prop in H as [Hx H]. rewrite Hx. auto.
Qed.

Lemma dropwhile_app_keep (p : codepoint -> bool) (a b : pystr) :
  dropwhile p a <> [] -> dropwhile p (a ++ b) = dropwhile p a ++ b.
Proof.
  induction a as [|x a IH]; simpl; [contradiction|].
  destruct (p x); [exact IH | reflexivity].
Qed.

Lemma strip_by_cons (p : codepoint -> bool) (c : codepoint) (s : pystr) :
  p c = true -> strip_by p (c :: s) = strip_by p s.
Proof.
  intros H. unfold strip_by, rstrip_by, lstrip_by. simpl. rewrite H.
  reflexivity.
Qed.

Lemma strip_by_app (p : codepoint -> bool) (s w : pystr) :
  forallb p w = true -> strip_by p (s ++ w) = strip_by p s.
Proof.
  intros H. unfold strip_by, rstrip_by, lstrip_by.
  destruct (dropwhile p s) as [|x d] eqn:E.
  - apply StrFacts.dropwhile_nil_all in E.
    rewrite (dropwhile_app_all p s w E), (StrFacts.dropwhile_all p w H).
    reflexivity.
  - rewrite dropwhile_app_keep by (rewrite E; discriminate). rewrite E.
    rewrite rev_app_distr, dropwhile_app_all; [reflexivity|].
    rewrite StrFacts.forallb_rev. exact H.
Qed.

Lemma dropwhile_fixed (p : codepoint -> bool) (c : codepoint) (s : pystr) :
  p c = false -> dropwhile p (c :: s) = c :: s.
Proof. intros H. simpl. rewrite H. reflexivity. Qed.

(** Stripping twice is stripping once. *)
Lemma strip_by_idem (p : codepoint -> bool) (s : pystr) :
  strip_by p (strip_by p s) = strip_by p s.
Proof.
  destruct (strip_by p s) as [|c tl] eqn:E; [reflexivity|].
  pose proof (StrFacts.strip_by_first p s tl c E) as Hc.
  destruct (@exists_last _ (c :: tl)) as [init [l El]]; [discriminate|].
  rewrite El in E. pose proof (StrFacts.strip_by_last p s init l E) as Hl.
  unfold strip_by at 1. unfold rstrip_by, lstrip_by.
  rewrite (dropwhile_fixed p c tl Hc), El, rev_app_distr. simpl.
  rewrite Hl. simpl. rewrite rev_involutive. reflexivity.
Qed.

(** ** What a line is made of *)

Lemma splitlines_no_break (s : pystr) :
  forall ln c, In ln (splitlines s) -> In c ln ->
               Unicode.islinebreak c = false.
Proof.
  pattern s. apply splitlines_ind; clear s.
  - intros ln c [].
  - intros c0 tl H0 IH ln c Hl Hc. rewrite (splitlines_break _ _ H0) in Hl.
    destruct Hl as [<-|Hl]; [contradiction|]. exact (IH ln c Hl Hc).
  - intros c0 tl H0 IH ln c Hl Hc. rewrite (splitlines_nobreak _ _ H0) in Hl.
    destruct (splitlines tl) as [|l0 rest]; simpl in Hl.
    + destruct Hl as [<-|[]]. destruct Hc as [<-|[]]. exact H0.
    + destruct Hl as [<-|Hl].
      * destruct Hc as [<-|Hc]; [exact H0|].
        apply (IH l0 c); [left; reflexivity | exact Hc].
      * apply (IH ln c); [right; exact Hl | exact Hc].
Qed.

(** A text without line break is its own single line. *)
Lemma splitlines_single (s : pystr) :
  s <> [] -> (forall c, In c s -> Unicode.islinebreak c = false) ->
  splitlines s = [s].
Proof.
  induction s as [|c tl IH]; [contradiction|]. intros _ H.
  rewrite splitlines_nobreak by (apply H; left; reflexivity).
  destruct tl as [|n tl']; [reflexivity|].
  rewrite IH; [reflexivity | discriminate |].
  intros x Hx. apply H. right. exact Hx.
Qed.

Lemma blank_strip (ln : pystr) : blank ln -> strip ln = [].
Proof. apply StrFacts.strip_by_all. Qed.

Lemma norm_list_blank (W : list pystr) : Forall blank W -> norm_list W = [].
Proof.
  induction 1 as [|w W Hw _ IH]; [reflexivity|].
  unfold norm_list in *. simpl. rewrite (blank_strip w Hw). simpl. exact IH.
Qed.

Lemma splitlines_blank (b : pystr) :
  blank b -> Forall blank (splitlines b).
Proof.
  intros H. apply Forall_forall. intros ln Hl. apply forallb_forall.
  intros c Hc. apply (proj1 (forallb_forall _ _) H).
  exact (StrFacts.splitlines_sub _ _ _ Hl Hc).
Qed.

Lemma norm_list_cons_head_space (c : codepoint) (l : list pystr) :
  Unicode.isspace c = true -> norm_list (cons_head c l) = norm_list l.
Proof.
  intros H. destruct l as [|ln rest]; unfold norm_list; simpl.
  - unfold strip. rewrite (strip_by_cons _ c [] H). reflexivity.
  - unfold strip. rewrite (strip_by_cons _ c ln H).
    destruct (truthy (strip_by Unicode.isspace ln)); simpl;
      [rewrite (strip_by_cons _ c ln H)|]; reflexivity.
Qed.

(** Whitespace before a text does not change its lines. *)
Lemma normalize_lines_leading (a : pystr) :
  blank a -> forall t, normalize_lines (a ++ t) = normalize_lines t.
Proof.
  pattern a. apply splitlines_ind; clear a.
  - reflexivity.
  - intros c tl Hc IH Ha t. rewrite <- app_comm_cons.
    rewrite normalize_lines_norm, (splitlines_break _ _ Hc).
    assert (Htl : blank (after_break c tl)).
    { apply forallb_forall. intros x Hx.
      apply (proj1 (forallb_forall _ _) Ha). right.
      exact (after_break_sub _ _ _ Hx). }
    change (norm_list ([] :: ?l)) with (norm_list l).
    destruct tl as [|n tl'].
    + cbn [app]. unfold after_break.
      destruct t as [|x t']; [reflexivity|].
      destruct ((c =? 13)%N && (x =? 10)%N) eqn:E; [|reflexivity].
      apply andb_prop in E as [_ E]. apply N.eqb_eq in E. subst x.
      fold LF. rewrite normalize_lines_norm, splitlines_lf. reflexivity.
    + rewrite after_break_app by discriminate.
      rewrite <- normalize_lines_norm. apply IH. exact Htl.
  - intros c tl Hc IH Ha t. rewrite <- app_comm_cons.
    rewrite normalize_lines_norm, (splitlines_nobreak _ _ Hc).
    simpl in Ha. apply andb_prop in Ha as [Hs Ha].
    rewrite (norm_list_cons_head_space _ _ Hs).
    rewrite <- normalize_lines_norm. apply IH. exact Ha.
Qed.

(** Whitespace after a text lengthens its last line by whitespace and adds
    blank lines. *)
Lemma splitlines_trailing (b : pystr) :
  blank b ->
  forall t,
    exists w W, blank w /\ Forall blank W /\
      ((splitlines t = [] /\ splitlines (t ++ b) = W) \/
       (exists init lst,
          splitlines t = init ++ [lst] /\
          splitlines (t ++ b) = init ++ [lst ++ w] ++ W)).
Proof.
  intros Hb t. pattern t. apply splitlines_ind; clear t.
  - exists [], (splitlines b). split; [reflexivity|].
    split; [apply splitlines_blank; exact Hb|]. left. auto.
  - intros c tl Hc [w [W [Hw [HW IH]]]]. rewrite <- app_comm_cons.
    rewrite !(splitlines_break _ _ Hc).
    destruct tl as [|n tl'].
    + exists [], (splitlines (after_break c b)).
      split; [reflexivity|]. split.
      * apply splitlines_blank. apply forallb_forall. intros x Hx.
        apply (proj1 (forallb_forall _ _) Hb).
        exact (after_break_sub _ _ _ Hx).
      * right. exists [], []. auto.
    + rewrite after_break_app by discriminate.
      destruct IH as [[E1 E2]|[init [lst [E1 E2]]]].
      * exists [], W. split; [reflexivity|]. split; [exact HW|].
        right. exists [], []. rewrite E1, E2. auto.
      * exists w, W. split; [exact Hw|]. split; [exact HW|].
        right. exists ([] :: init), lst. rewrite E1, E2. auto.
  - intros c tl Hc [w [W [Hw [HW IH]]]]. rewrite <- app_comm_cons.
    rewrite !(splitlines_nobreak _ _ Hc).
    destruct IH as [[E1 E2]|[init [lst [E1 E2]]]].
    + rewrite E1, E2. destruct W as [|w0 W'].
      * exists [], []. split; [reflexivity|]. split; [constructor|].
        right. exists [], [c]. auto.
      * exists w0, W'. inversion HW; subst. split; [assumption|].
        split; [assumption|]. right. exists [], [c]. auto.
    + rewrite E1, E2. exists w, W. split; [exact Hw|]. split; [exact HW|].
      right. destruct init as [|i0 init'].
      * exists [], (c :: lst). auto.
      * exists ((c :: i0) :: init'), lst. auto.
Qed.

(** Whitespace after a text does not change its lines. *)
Lemma normalize_lines_trailing (t b : pystr) :
  blank b -> normalize_lines (t ++ b) = normalize_lines t.
Proof.
  intros Hb. rewrite !normalize_lines_norm.
  destruct (splitlines_trailing b Hb t)
    as [w [W [Hw [HW [[E1 E2]|[init [lst [E1 E2]]]]]]]].
  - rewrite E1, E2. apply norm_list_blank. exact HW.
  - rewrite E1, E2, !norm_list_app, (norm_list_blank W HW), app_nil_r.
    f_equal. unfold norm_list. simpl. unfold strip.
    rewrite (strip_by_app _ lst w Hw).
    destruct (truthy (strip_by Unicode.isspace lst)); simpl;
      [rewrite (strip_by_app _ lst w Hw)|]; reflexivity.
Qed.

(** The trimming of the whole text does not change its lines. *)
Lemma normalize_lines_strip (t : pystr) :
  normalize_lines (strip t) = normalize_lines t.
Proof.
  destruct (StrFacts.strip_by_split Unicode.isspace t) as [a [b [E [Ha Hb]]]].
  fold (strip t) in E. rewrite E at 2.
  rewrite (normalize_lines_leading a Ha), (normalize_lines_trailing _ b Hb).
  reflexivity.
Qed.

Lemma normalize_lines_join (ls : list pystr) :
  normalize_lines (join [LF] ls) = flat_map normalize_lines ls.
Proof.
  induction ls as [|p ls IH]; [reflexivity|].
  destruct ls as [|q ls'].
  - simpl. rewrite app_nil_r. reflexivity.
  - change (join [LF] (p :: q :: ls')) with (p ++ LF :: join [LF] (q :: ls')).
    rewrite normalize_lines_app_lf, IH. reflexivity.
Qed.

End LineFacts.

(* ================================================================== *)
(** * Searching a word across lines *)
(* ================================================================== *)

(** A word without whitespace is found in a text exactly when it is found
    in one of its lines, also after a character-wise mapping that leaves
    whitespace alone (such as upper-casing). *)
Module WordFacts.

Import Str Lines.

Section Word.
Variable g : codepoint -> pystr.
Variable w : pystr.
Hypothesis g_space : forall c, Unicode.isspace c = true -> g c = [c].
Hypothesis w_nonempty : w <> [].
Hypothesis w_nospace : forall c, In c w -> Unicode.isspace c = false.

Local Abbreviation hit := (Lines.hit g w).

Lemma starts_with_across (x y : pystr) (c : codepoint) :
  ~ In c w -> forall v, (forall a, In a v -> In a w) ->
  starts_with v (x ++ c :: y) = starts_with v x.
Proof.
  intros Hc. induction x as [|b x IH]; intros v Hv.
  - destruct v as [|a v]; [reflexivity|]. simpl.
    destruct (a =? c)%N eqn:E; [|reflexivity].
    apply N.eqb_eq in E. subst a. exfalso. apply Hc. apply Hv. left.
    reflexivity.
  - destruct v as [|a v]; [reflexivity|]. simpl.
    rewrite IH; [reflexivity|]. intros a' Ha. apply Hv. right. exact Ha.
Qed.

Lemma contains_across (x y : pystr) (c : codepoint) :
  ~ In c w -> contains w (x ++ c :: y) = contains w x || contains w y.
Proof.
  intros Hc. induction x as [|b x IH].
  - destruct w as [|a v] eqn:E; [contradiction|]. simpl.
    destruct (a =? c)%N eqn:Ea; [|reflexivity].
    apply N.eqb_eq in Ea. subst a. exfalso. apply Hc. left. reflexivity.
  - pose proof (starts_with_across (b :: x) y c Hc w (fun a H => H)) as S.
    simpl app in *. cbn [contains]. rewrite S, IH.
    rewrite orb_assoc. reflexivity.
Qed.

Lemma space_not_in_word (c : codepoint) :
  Unicode.isspace c = true -> ~ In c w.
Proof. intros H Hc. rewrite (w_nospace c Hc) in H. discriminate. Qed.

Lemma hit_nil : hit [] = false.
Proof. unfold Lines.hit. destruct w; [contradiction | reflexivity]. Qed.

Lemma hit_across (a b : pystr) (c : codepoint) :
  Unicode.isspace c = true -> hit (a ++ c :: b) = hit a || hit b.
Proof.
  intros H. unfold Lines.hit. rewrite flat_map_app. simpl.
  rewrite (g_space c H).
  simpl. apply contains_across. apply space_not_in_word. exact H.
Qed.

Lemma hit_cons_space (c : codepoint) (s : pystr) :
  Unicode.isspace c = true -> hit (c :: s) = hit s.
Proof.
  intros H. change (c :: s) with ([] ++ c :: s).
  rewrite (hit_across [] s c H), hit_nil. reflexivity.
Qed.

Lemma hit_blank (b : pystr) : blank b -> hit b = false.
Proof.
  induction b as [|c b IH]; intros H; [apply hit_nil|].
  simpl in H. apply andb_prop in H as [Hc H].
  rewrite (hit_cons_space c b Hc). apply IH. exact H.
Qed.

Lemma hit_leading (a s : pystr) : blank a -> hit (a ++ s) = hit s.
Proof.
  induction a as [|c a IH]; intros H; [reflexivity|].
  simpl in H. apply andb_prop in H as [Hc H]. simpl app.
  rewrite (hit_cons_space c _ Hc). apply IH. exact H.
Qed.

Lemma hit_trailing (s b : pystr) : blank b -> hit (s ++ b) = hit s.
Proof.
  destruct b as [|c b]; intros H; [rewrite app_nil_r; reflexivity|].
  simpl in H. apply andb_prop in H as [Hc H].
  rewrite (hit_across s b c Hc), (hit_blank b H). apply orb_false_r.
Qed.

Lemma hit_strip (s : pystr) : hit (strip s) = hit s.
Proof.
  destruct (StrFacts.strip_by_split Unicode.isspace s) as [a [b [E [Ha Hb]]]].
  fold (strip s) in E. rewrite E at 2.
  rewrite (hit_leading a _ Ha), (hit_trailing _ b Hb). reflexivity.
Qed.

Lemma existsb_app_head_nil (l : list pystr) :
  existsb hit (app_head [] l) = existsb hit l.
Proof.
  destruct l; simpl; [rewrite hit_nil|]; reflexivity.
Qed.

Lemma hit_after_break (c : codepoint) (tl : pystr) :
  hit (after_break c tl) = hit tl.
Proof.
  unfold after_break. destruct tl as [|n tl']; [reflexivity|].
  destruct ((c =? 13)%N && (n =? 10)%N) eqn:E; [|reflexivity].
  apply andb_prop in E as [_ E]. apply N.eqb_eq in E. subst n.
  symmetry. apply hit_cons_space. reflexivity.
Qed.

Lemma hit_splitlines (s : pystr) :
  forall pre, hit (pre ++ s) = existsb hit (app_head pre (splitlines s)).
Proof.
  pattern s. apply LineFacts.splitlines_ind; clear s.
  - intros pre. rewrite app_nil_r. simpl. rewrite orb_false_r. reflexivity.
  - intros c tl Hc IH pre.
    rewrite (hit_across pre tl c (StrFacts.linebreak_isspace c Hc)).
    rewrite (LineFacts.splitlines_break _ _ Hc). simpl.
    rewrite app_nil_r. f_equal.
    rewrite <- (hit_after_break c tl), <- existsb_app_head_nil.
    apply (IH []).
  - intros c tl Hc IH pre.
    rewrite (LineFacts.splitlines_nobreak _ _ Hc).
    replace (pre ++ c :: tl) with ((pre ++ [c]) ++ tl)
      by (rewrite <- app_assoc; reflexivity).
    rewrite IH. destruct (splitlines tl); simpl;
      rewrite <- ?app_assoc; reflexivity.
Qed.

(** The word is in the text exactly when it is in a normalized line. *)
Lemma hit_lines (s : pystr) : hit s = existsb hit (normalize_lines s).
Proof.
  change (hit s) with (hit ([] ++ s)).
  rewrite (hit_splitlines s []), existsb_app_head_nil.
  unfold normalize_lines.
  induction (splitlines s) as [|l ls IH]; [reflexivity|].
  simpl. rewrite IH, <- (hit_strip l).
  destruct (strip l) eqn:E; simpl.
  - rewrite hit_nil. reflexivity.
  - rewrite E. reflexivity.
Qed.

End Word.

End WordFacts.

(* ================================================================== *)
(** * Further properties of the extractor *)
(* ================================================================== *)

Section ExtractorMore.
Context {db : DB}.

Import Lines.

Lemma normalized_line (text ln : pystr) :
  In ln (normalize_lines text) ->
  trimmed ln /\
  (forall c, In c ln -> Unicode.islinebreak c = false /\ In c text) /\
  normalize_lines ln = [ln].
Proof.
  unfold normalize_lines at 1. intros H.
  apply in_map_iff in H as [l0 [E H]]. apply filter_In in H as [Hl T].
  assert (N : ln <> []) by (subst ln; apply StrFacts.truthy_true; exact T).
  assert (S : Str.strip ln = ln)
    by (subst ln; apply LineFacts.strip_by_idem).
  assert (C : forall c, In c ln ->
                        Unicode.islinebreak c = false /\ In c text).
  { intros c Hc. subst ln. apply StrFacts.strip_by_sub in Hc. split.
    - exact (LineFacts.splitlines_no_break _ _ _ Hl Hc).
    - exact (StrFacts.splitlines_sub _ _ _ Hl Hc). }
  split; [split; assumption|]. split; [exact C|].
  unfold normalize_lines.
  rewrite (LineFacts.splitlines_single ln N (fun c Hc => proj1 (C c Hc))).
  cbn [filter]. rewrite S. destruct ln as [|c l]; [contradiction|].
  cbn [truthy map]. rewrite S. reflexivity.
Qed.

(** X1.  Every line the extractor works on is non-empty and trimmed, has no
    line break, is made of characters of the text, and is its own
    normalization. *)
Theorem X1_lines_invariant (text ln : pystr) :
  In ln (normalize_lines text) ->
  ln <> [] /\ Str.strip ln = ln /\
  (forall c, In c ln -> Unicode.islinebreak c = false /\ In c text) /\
  normalize_lines ln = [ln].
Proof.
  intros H. destruct (normalized_line text ln H) as [[N S] [C E]]. auto.
Qed.

(** X2.  The lines do not depend on the trimming of the whole text; a line
    feed between two texts separates their lines; and joining the lines
    with line feeds and normalizing again gives the same lines. *)
Theorem X2_lines_of_text (raw : pystr) :
  normalize_lines (Str.strip raw) = normalize_lines raw /\
  (forall a b, normalize_lines (a ++ LF :: b)
               = normalize_lines a ++ normalize_lines b) /\
  normalize_lines (Str.join [LF] (normalize_lines raw)) = normalize_lines raw.
Proof.
  split; [apply LineFacts.normalize_lines_strip|].
  split; [apply LineFacts.normalize_lines_app_lf|].
  rewrite LineFacts.normalize_lines_join.
  assert (G : forall ls, (forall ln, In ln ls -> normalize_lines ln = [ln]) ->
                         flat_map normalize_lines ls = ls).
  { induction ls as [|l ls IH]; intros H; [reflexivity|]. simpl.
    rewrite (H l (or_introl eq_refl)). simpl. f_equal. apply IH.
    intros ln Hl. apply H. right. exact Hl. }
  apply G. intros ln Hl. apply (normalized_line raw ln Hl).
Qed.

Lemma upper_char_space (c : codepoint) :
  Unicode.isspace c = true -> Unicode.upper_char c = [c].
Proof.
  intros H. unfold Unicode.upper_char, Unicode.known. rewrite H.
  destruct (Unicode.is_ascii c) eqn:A; [|reflexivity].
  destruct (Unicode.in_range 97%N 122%N c) eqn:R; [|reflexivity].
  exfalso. unfold Unicode.isspace, Unicode.in_range in H, R.
  unfold Unicode.is_ascii in A.
  bool_to_prop; lia.
Qed.

Lemma flat_map_single (s : pystr) : flat_map (fun c => [c]) s = s.
Proof. induction s as [|c s IH]; simpl; congruence. Qed.

Lemma existsb_pointwise {A : Type} (f g : A -> bool) (l : list A) :
  (forall x, f x = g x) -> existsb f l = existsb g l.
Proof.
  intros H. induction l as [|x l IH]; [reflexivity|]. simpl.
  rewrite H, IH. reflexivity.
Qed.

Lemma existsb_orb {A : Type} (f g : A -> bool) (l : list A) :
  existsb (fun x => f x || g x) l = existsb f l || existsb g l.
Proof.
  induction l as [|x l IH]; [reflexivity|]. simpl. rewrite IH.
  destruct (f x), (g x), (existsb f l); reflexivity.
Qed.

(** The currency test sees the text through its lines. *)
Lemma currency_test_lines (text : pystr) :
  Str.contains (utf8 "$") text || Str.contains USD (Str.upper text)
  = existsb (fun ln => Str.contains (utf8 "$") ln
                       || Str.contains USD (Str.upper ln))
            (normalize_lines text).
Proof.
  rewrite existsb_orb. f_equal.
  - pose proof (WordFacts.hit_lines (fun c => [c]) (utf8 "$")) as H.
    unfold Lines.hit in H.
    rewrite <- (flat_map_single text) at 1. rewrite H.
    + apply existsb_pointwise. intros ln. rewrite flat_map_single. reflexivity.
    + reflexivity.
    + discriminate.
    + intros c [<-|[]]. reflexivity.
  - apply (WordFacts.hit_lines Unicode.upper_char USD).
    + apply upper_char_space.
    + discriminate.
    + intros c Hc. vm_compute in Hc.
      destruct Hc as [<-|[<-|[<-|[]]]]; reflexivity.
Qed.

(** X3.  The extractor sees its input through the normalized lines only:
    two inputs with the same lines give the same record, so trimming the
    input, or replacing it by its lines joined with line feeds, changes
    nothing. *)
Theorem X3_record_of_lines (raw : pystr) :
  (forall raw', normalize_lines raw' = normalize_lines raw ->
                extract raw' = extract raw) /\
  extract (Str.strip raw) = extract raw /\
  extract (Str.join [LF] (normalize_lines raw)) = extract raw.
Proof.
  assert (G : forall a b, normalize_lines a = normalize_lines b ->
                          extract a = extract b).
  { intros a b H. rewrite !extract_unfold. cbv zeta.
    rewrite !currency_test_lines, !LineFacts.normalize_lines_strip, H.
    destruct (normalize_lines b) as [|first rest] eqn:E; [|reflexivity].
    rewrite (normalize_lines_nil a), (normalize_lines_nil b);
      [reflexivity | |];
      rewrite LineFacts.normalize_lines_strip; congruence. }
  split; [intros raw'; apply G|]. split; apply G.
  - apply LineFacts.normalize_lines_strip.
  - rewrite LineFacts.normalize_lines_join.
    assert (F : forall ls, (forall ln, In ln ls -> normalize_lines ln = [ln]) ->
                           flat_map normalize_lines ls = ls).
    { induction ls as [|l ls IH]; intros H; [reflexivity|]. simpl.
      rewrite (H l (or_introl eq_refl)). simpl. f_equal. apply IH.
      intros ln Hl. apply H. right. exact Hl. }
    apply F. intros ln Hl. apply (normalized_line raw ln Hl).
Qed.

(** ** The source text *)

Lemma strip_by_ends (p : codepoint -> bool) (s tl r : pystr)
  (c y : codepoint) :
  s = c :: tl -> rev s = y :: r -> p c = false -> p y = false ->
  Str.strip_by p s = s.
Proof.
  intros Es Er Hc Hy. unfold Str.strip_by, Str.rstrip_by, Str.lstrip_by.
  rewrite Es at 1. rewrite (LineFacts.dropwhile_fixed p c tl Hc), <- Es, Er.
  rewrite (LineFacts.dropwhile_fixed p y r Hy), <- Er.
  apply rev_involutive.
Qed.

Lemma trimmed_ends (ln : pystr) :
  trimmed ln ->
  exists c tl y r, ln = c :: tl /\ rev ln = y :: r /\
                   Unicode.isspace c = false /\ Unicode.isspace y = false.
Proof.
  intros [N S]. destruct ln as [|c tl]; [contradiction|].
  destruct (@exists_last _ (c :: tl)) as [init [y E]]; [discriminate|].
  exists c, tl, y, (rev init). split; [reflexivity|]. split.
  - rewrite E, rev_app_distr. reflexivity.
  - split.
    + exact (StrFacts.strip_by_first _ _ _ _ S).
    + rewrite E in S. exact (StrFacts.strip_by_last _ _ _ _ S).
Qed.

Lemma join_head (sep l : pystr) (ls : list pystr) :
  exists r, Str.join sep (l :: ls) = l ++ r.
Proof.
  destruct ls as [|q ls].
  - exists []. simpl. symmetry. apply app_nil_r.
  - exists (sep ++ Str.join sep (q :: ls)). reflexivity.
Qed.

Lemma join_last (sep l : pystr) (ls : list pystr) :
  exists r, Str.join sep (ls ++ [l]) = r ++ l.
Proof.
  induction ls as [|q ls IH].
  - exists []. reflexivity.
  - destruct IH as [r E]. exists (q ++ sep ++ r).
    change ((q :: ls) ++ [l]) with (q :: (ls ++ [l])).
    destruct (ls ++ [l]) as [|x xs] eqn:El.
    + destruct ls; discriminate.
    + change (Str.join sep (q :: x :: xs))
        with (q ++ sep ++ Str.join sep (x :: xs)).
      rewrite E, !app_assoc. reflexivity.
Qed.

Lemma join_chars (sep : pystr) (ls : list pystr) (c : codepoint) :
  In c (Str.join sep ls) -> In c sep \/ exists l, In l ls /\ In c l.
Proof.
  induction ls as [|q ls IH]; [contradiction|].
  destruct ls as [|x xs].
  - simpl. intros H. right. exists q. auto.
  - change (Str.join sep (q :: x :: xs))
      with (q ++ sep ++ Str.join sep (x :: xs)).
    intros H. apply in_app_or in H as [H|H].
    + right. exists q. split; [left; reflexivity | exact H].
    + apply in_app_or in H as [H|H]; [left; exact H|].
      destruct (IH H) as [H'|[l [Hl Hc]]]; [left; exact H'|].
      right. exists l. split; [right; exact Hl | exact Hc].
Qed.

(** Lines joined with spaces are one trimmed line. *)
Lemma join_trimmed (l : pystr) (ls : list pystr) :
  (forall ln, In ln (l :: ls) -> trimmed ln) ->
  trimmed (Str.join (utf8 " ") (l :: ls)).
Proof.
  intros H. split.
  - apply StrFacts.join_nonempty. apply (H l). left. reflexivity.
  - destruct (trimmed_ends l (H l (or_introl eq_refl)))
      as [c [tl [_ [_ [El [_ [Hc _]]]]]]].
    destruct (@exists_last _ (l :: ls)) as [init [lst E]]; [discriminate|].
    assert (Hl : In lst (l :: ls)).
    { rewrite E. apply in_or_app. right. left. reflexivity. }
    destruct (trimmed_ends lst (H lst Hl)) as [_ [_ [y [r [_ [Er [_ Hy]]]]]]].
    destruct (join_head (utf8 " ") l ls) as [r1 E1].
    destruct (join_last (utf8 " ") lst init) as [r2 E2].
    rewrite <- E in E2.
    apply (strip_by_ends Unicode.isspace _ (tl ++ r1) (r ++ rev r2) c y).
    + rewrite E1, El. reflexivity.
    + rewrite E2, rev_app_distr, Er. reflexivity.
    + exact Hc.
    + exact Hy.
Qed.

(** X4.  The source text is trimmed and has no line break, its characters
    are characters of the input or the joining space, and it is kept as it is
    when it is extracted from again. *)
Theorem X4_source_text_line (raw : pystr) :
  let st := source_text (extract raw) in
  Str.strip st = st /\
  (forall c, In c st ->
             Unicode.islinebreak c = false /\ (In c raw \/ c = 32%N)) /\
  normalize_lines st = match st with [] => [] | _ :: _ => [st] end /\
  source_text (extract st) = st.
Proof.
  cbv zeta. rewrite (extract_unfold raw). cbv zeta.
  destruct (normalize_lines (Str.strip raw)) as [|first rest] eqn:El.
  - cbn [source_text]. rewrite (normalize_lines_nil raw El).
    split; [reflexivity|]. split; [intros c []|].
    split; reflexivity.
  - cbn [source_text].
    assert (T : forall ln, In ln (first :: rest) -> trimmed ln).
    { intros ln Hl. rewrite <- El in Hl.
      exact (proj1 (normalized_line _ _ Hl)). }
    destruct (join_trimmed first rest T) as [N S].
    assert (C : forall c, In c (Str.join (utf8 " ") (first :: rest)) ->
                Unicode.islinebreak c = false /\ (In c raw \/ c = 32%N)).
    { intros c Hc. apply join_chars in Hc as [Hc|[l [Hl Hc]]].
      - destruct Hc as [<-|[]]. split; [reflexivity | right; reflexivity].
      - rewrite <- El in Hl.
        destruct (proj1 (proj2 (normalized_line _ _ Hl)) c Hc) as [B I].
        split; [exact B|]. left. exact (StrFacts.strip_by_sub _ _ _ I). }
    assert (L : normalize_lines (Str.join (utf8 " ") (first :: rest))
                = [Str.join (utf8 " ") (first :: rest)]).
    { unfold normalize_lines.
      rewrite (LineFacts.splitlines_single _ N (fun c Hc => proj1 (C c Hc))).
      cbn [filter]. rewrite S.
      destruct (Str.join (utf8 " ") (first :: rest)) as [|x xs];
        [contradiction|].
      cbn [truthy map]. rewrite S. reflexivity. }
    split; [exact S|]. split; [exact C|]. split.
    + rewrite L.
      destruct (Str.join (utf8 " ") (first :: rest)); [contradiction|].
      reflexivity.
    + rewrite extract_unfold. cbv zeta. rewrite S, L. reflexivity.
Qed.

(** ** The quantity *)

(** What the two quantity patterns match: one of the two forms, ending on a
    word character. *)
Lemma qty_patterns_shape (pat : Re.regex) (w : pystr) :
  In pat qty_patterns -> Re.lang pat w ->
  qty_shape w /\ w <> [] /\
  exists c, Re.last_char w None = Some c /\ Unicode.isword c = true.
Proof.
  intros [<-|[<-|[]]] H.
  - unfold qty_unit_pattern in H. cbn [Re.seq Re.lang] in H.
    destruct H as [n [w2 [-> [Ln [sp [w4 [-> [Hs [u [w6 [-> [Hu ->]]]]]]]]]]]].
    apply ReFacts.lang_alts in Hu; [|discriminate].
    destruct (number_lang n Ln) as [ds [fs Hn]].
    rewrite app_nil_r. split; [|split].
    + exists n, ds, fs, sp. split; [exact Hn|]. split; [exact Hs|].
      left. exists u. auto.
    + destruct (numeral_last n ds fs None Hn) as [N _].
      destruct n; [contradiction | discriminate].
    + rewrite !ReFacts.last_char_app. vm_compute in Hu.
      repeat (destruct Hu as [<-|Hu]; [eexists; split; reflexivity|]).
      contradiction.
  - unfold qty_label_pattern, opt_colon in H. cbn [Re.seq Re.lang] in H.
    destruct H as [l [w2 [-> [-> [sp1 [w4 [-> [Hs1 [col [w6 [-> [Hcol
                  [sp [w8 [-> [Hs [n [w10 [-> [Ln ->]]]]]]]]]]]]]]]]]]]].
    destruct (number_lang n Ln) as [ds [fs Hn]].
    rewrite app_nil_r. split; [|split].
    + exists n, ds, fs, sp. split; [exact Hn|]. split; [exact Hs|].
      right. exists sp1, col. split; [exact Hs1|]. split; [|reflexivity].
      destruct Hcol as [[x [-> Hx]] | ->]; [right | left; reflexivity].
      exists x. split; [reflexivity|]. apply mem_in. exact Hx.
    + discriminate.
    + rewrite !ReFacts.last_char_app.
      destruct (numeral_last n ds fs
                  (Re.last_char sp (Re.last_char col (Re.last_char sp1
                     (Re.last_char (utf8 "数量") None)))) Hn)
        as [_ Hc]. exact Hc.
Qed.

Lemma qty_patterns_boundary (pat : Re.regex) :
  In pat qty_patterns -> Re.ends_with_boundary pat = true.
Proof. intros [<-|[<-|[]]]; reflexivity. Qed.

Lemma scan_qty_first_match (lines : list pystr) :
  scan_lines "qty" qty_patterns lines =
  match first_match qty_patterns lines with
  | Some m => captured_value "qty" m
  | None => None
  end.
Proof.
  apply scan_lines_first_match. intros pat ln m Hp Hs.
  destruct (group_is_numeral "qty" pat ln m (qty_patterns_group pat Hp) Hs)
    as [s [ds [fs [_ [_ E]]]]].
  rewrite E. discriminate.
Qed.

(** X5.  The quantity is decided by the first match in line-major,
    pattern-minor order over the two patterns; a match is a numeral and a
    countable unit, or the label, an optional colon and a numeral, and no
    word character follows it; the quantity is the captured numeral
    converted to the nearest float; and the quantity step sets the quantity
    and adds 0.10 to the confidence exactly when a quantity was found. *)
Theorem X5_quantity_extractor (raw : pystr) :
  let lines := normalize_lines (Str.strip raw) in
  let r := extract raw in
  quantity r =
    match first_match qty_patterns lines with
    | Some m => captured_value "qty" m
    | None => None
    end /\
  (forall m, first_match qty_patterns lines = Some m ->
     exists s ds fs,
       Re.group m "qty" = Some s /\ is_numeral s ds fs /\
       quantity r =
       Some (PyFloat.float_of_numeral (digit_values ds) (digit_values fs))) /\
  (forall pat ln m,
     In pat qty_patterns -> Re.search pat ln = Some m ->
     exists pre w suf,
       ln = pre ++ w ++ suf /\ qty_shape w /\
       match suf with [] => True | x :: _ => Unicode.isword x = false end) /\
  (forall res,
     qty_step lines res =
     match quantity r with
     | Some v => add_confidence (set_quantity res v) 0.10%float
     | None => res
     end).
Proof.
  cbv zeta. split; [|split; [|split]].
  - rewrite quantity_scan. apply scan_qty_first_match.
  - intros m Hm. rewrite quantity_scan, scan_qty_first_match, Hm.
    unfold first_match in Hm. apply first_some_in in Hm.
    apply in_flat_map in Hm as [ln [_ Hm]].
    apply in_map_iff in Hm as [pat [Hs Hp]].
    destruct (group_is_numeral "qty" pat ln m (qty_patterns_group pat Hp) Hs)
      as [s [ds [fs [G [Hn E]]]]].
    exists s, ds, fs. auto.
  - intros pat ln m Hp Hs.
    destruct (ReFacts.search_sound_boundary pat ln m
                (qty_patterns_boundary pat Hp) Hs)
      as [pre [w [suf [E [L B]]]]].
    destruct (qty_patterns_shape pat w Hp L) as [Sh [N [c [Lc Wc]]]].
    exists pre, w, suf. repeat split; auto. exact (B c Lc N Wc).
  - intros res. rewrite quantity_scan. reflexivity.
Qed.

(** ** The specification *)

Lemma in_rmatch_alts (units : list pystr) (st st' : Re.mstate) :
  units <> [] ->
  (In st' (Re.rmatch (Re.alts units) st) <->
   exists u, In u units /\ In st' (Re.rmatch (Re.Lit u) st)).
Proof.
  induction units as [|u units IH]; [contradiction|]. intros _.
  destruct units as [|v units'].
  - cbn [Re.alts]. split.
    + intros H. exists u. split; [left; reflexivity | exact H].
    + intros [u' [[<-|[]] H]]. exact H.
  - change (Re.alts (u :: v :: units'))
      with (Re.Alt (Re.Lit u) (Re.alts (v :: units'))).
    cbn [Re.rmatch]. rewrite in_app_iff, IH by discriminate. split.
    + intros [H|[u' [Hu H]]].
      * exists u. split; [left; reflexivity | exact H].
      * exists u'. split; [right; exact Hu | exact H].
    + intros [u' [[<-|Hu] H]]; [left; exact H|].
      right. exists u'. split; assumption.
Qed.

(** A match of a unit pattern is a match with one of its units. *)
Lemma unit_pattern_unit (units : list pystr) (st st' : Re.mstate) :
  units <> [] ->
  (In st' (Re.rmatch (unit_pattern units) st) <->
   exists u, In u units /\ In st' (Re.rmatch (unit_pattern [u]) st)).
Proof.
  intros N. unfold unit_pattern. cbn [Re.seq]. split.
  - intros H. apply ReFacts.rmatch_seq in H as [m1 [H1 H]].
    apply ReFacts.rmatch_seq in H as [m2 [H2 H]].
    apply ReFacts.rmatch_seq in H as [m3 [H3 H]].
    change (In m3 (Re.rmatch (Re.alts units) m2)) in H3.
    apply (in_rmatch_alts units m2 m3 N) in H3 as [u [Hu H3]].
    exists u. split; [exact Hu|].
    apply ReFacts.rmatch_seq. exists m1. split; [exact H1|].
    apply ReFacts.rmatch_seq. exists m2. split; [exact H2|].
    apply ReFacts.rmatch_seq. exists m3. split; [exact H3 | exact H].
  - intros [u [Hu H]]. apply ReFacts.rmatch_seq in H as [m1 [H1 H]].
    apply ReFacts.rmatch_seq in H as [m2 [H2 H]].
    apply ReFacts.rmatch_seq in H as [m3 [H3 H]].
    change (In m3 (Re.rmatch (Re.Lit u) m2)) in H3.
    apply ReFacts.rmatch_seq. exists m1. split; [exact H1|].
    apply ReFacts.rmatch_seq. exists m2. split; [exact H2|].
    apply ReFacts.rmatch_seq. exists m3. split; [|exact H].
    change (In m3 (Re.rmatch (Re.alts units) m2)).
    apply (in_rmatch_alts units m2 m3 N). exists u. split; assumption.
Qed.

Lemma unit_pattern_incl (U V : list pystr) (st st' : Re.mstate) :
  U <> [] -> incl U V ->
  In st' (Re.rmatch (unit_pattern U) st) ->
  In st' (Re.rmatch (unit_pattern V) st).
Proof.
  intros N I H. apply (unit_pattern_unit U st st' N) in H as [u [Hu H]].
  apply unit_pattern_unit.
  - intros E. specialize (I u Hu). rewrite E in I. contradiction.
  - exists u. split; [apply I; exact Hu | exact H].
Qed.

(** Where one pattern matches whenever another does, position by position,
    a subject the second matches somewhere is matched by the first. *)
Lemma search_from_covered (r1 : Re.regex) (R : list Re.regex) :
  (forall st, Re.rmatch r1 st <> [] ->
              exists r2, In r2 R /\ Re.rmatch r2 st <> []) ->
  forall s pv p,
    Re.search_from r1 pv s p <> None ->
    exists r2, In r2 R /\ Re.search_from r2 pv s p <> None.
Proof.
  intros C. induction s as [|c tl IH]; intros pv p H.
  - cbn [Re.search_from] in H. unfold Re.match_at in H.
    destruct (Re.rmatch r1 (Re.MState pv [] p [])) as [|x xs] eqn:E;
      [contradiction|].
    destruct (C (Re.MState pv [] p [])) as [r2 [Hr H2]];
      [rewrite E; discriminate|].
    exists r2. split; [exact Hr|]. cbn [Re.search_from]. unfold Re.match_at.
    destruct (Re.rmatch r2 (Re.MState pv [] p [])); [contradiction|].
    discriminate.
  - cbn [Re.search_from] in H. unfold Re.match_at in H.
    destruct (Re.rmatch r1 (Re.MState pv (c :: tl) p [])) as [|x xs] eqn:E.
    + destruct (IH (Some c) (S p) H) as [r2 [Hr H2]].
      exists r2. split; [exact Hr|]. cbn [Re.search_from].
      destruct (Re.match_at r2 pv (c :: tl) p); [discriminate | exact H2].
    + destruct (C (Re.MState pv (c :: tl) p [])) as [r2 [Hr H2]];
        [rewrite E; discriminate|].
      exists r2. split; [exact Hr|]. cbn [Re.search_from]. unfold Re.match_at.
      destruct (Re.rmatch r2 (Re.MState pv (c :: tl) p []));
        [contradiction | discriminate].
Qed.

Lemma first_line_units_split (u : pystr) :
  In u first_line_units ->
  In u metre_units \/ In u small_length_units \/ In u watt_units.
Proof.
  intros H. vm_compute in H.
  destruct H as [<-|[<-|[<-|[<-|[<-|[<-|[]]]]]]];
    [left | left | right; left | right; left | right; right | right; right];
    decide_in.
Qed.

(** The pattern of the first-line fallback matches no line the three unit
    patterns leave out. *)
Lemma fallback_covered (ln : pystr) :
  matches first_line_spec_pattern ln = true ->
  any_match spec_patterns ln = true.
Proof.
  unfold matches. intros H.
  destruct (Re.search first_line_spec_pattern ln) as [m|] eqn:E;
    [clear H | discriminate].
  destruct (search_from_covered first_line_spec_pattern
              [unit_pattern metre_units; unit_pattern small_length_units;
               unit_pattern watt_units]) with (s := ln) (pv := @None codepoint)
              (p := 0%nat) as [r2 [Hr H2]].
  - intros st Hst.
    destruct (Re.rmatch first_line_spec_pattern st) as [|x xs] eqn:Ex;
      [contradiction|].
    assert (Hx : In x (Re.rmatch (unit_pattern first_line_units) st))
      by (unfold first_line_spec_pattern in Ex; rewrite Ex; left; reflexivity).
    apply unit_pattern_unit in Hx as [u [Hu Hx]]; [|discriminate].
    assert (K : forall U, In u U ->
                          Re.rmatch (unit_pattern U) st <> []).
    { intros U HU E0.
      assert (Hin : In x (Re.rmatch (unit_pattern U) st)).
      { apply unit_pattern_unit; [intros ->; contradiction|].
        exists u. split; assumption. }
      rewrite E0 in Hin. contradiction. }
    destruct (first_line_units_split u Hu) as [M|[M|M]].
    + exists (unit_pattern metre_units). split; [left; reflexivity|].
      apply K. exact M.
    + exists (unit_pattern small_length_units).
      split; [right; left; reflexivity|]. apply K. exact M.
    + exists (unit_pattern watt_units).
      split; [right; right; left; reflexivity|]. apply K. exact M.
  - fold (Re.search first_line_spec_pattern ln). rewrite E. discriminate.
  - fold (Re.search r2 ln) in H2. unfold any_match.
    apply existsb_exists. exists r2. split.
    + destruct Hr as [<-|[<-|[<-|[]]]];
        [left | right; left | right; right; left]; reflexivity.
    + unfold matches. destruct (Re.search r2 ln); [reflexivity|].
      contradiction.
Qed.

(** The specification is the first line one of the four patterns matches:
    the fallback on the first line never decides. *)
Lemma find_spec_find (lines : list pystr) :
  find_spec lines = find (any_match spec_patterns) lines.
Proof.
  unfold find_spec.
  change (fun ln => existsb (fun pat => matches pat ln) spec_patterns)
    with (any_match spec_patterns).
  destruct (find (any_match spec_patterns) lines) as [ln|] eqn:F;
    [reflexivity|].
  destruct lines as [|first rest]; [reflexivity|].
  cbn [find] in F.
  destruct (any_match spec_patterns first) eqn:A; [discriminate|].
  destruct (matches first_line_spec_pattern first) eqn:M; [|reflexivity].
  rewrite (fallback_covered first M) in A. discriminate.
Qed.

Lemma find_first {A : Type} (f : A -> bool) (l : list A) (x : A) :
  find f l = Some x ->
  exists before after, l = before ++ x :: after /\ f x = true /\
                       forall y, In y before -> f y = false.
Proof.
  induction l as [|a l IH]; [discriminate|]. cbn [find].
  destruct (f a) eqn:Fa.
  - intros E. injection E as <-. exists [], l.
    split; [reflexivity|]. split; [exact Fa|]. intros y [].
  - intros H. destruct (IH H) as [before [after [E [Fx Hb]]]].
    exists (a :: before), after. split; [rewrite E; reflexivity|].
    split; [exact Fx|]. intros y [<-|Hy]; [exact Fa | apply Hb; exact Hy].
Qed.

Lemma find_none_iff {A : Type} (f : A -> bool) (l : list A) :
  find f l = None <-> forall y, In y l -> f y = false.
Proof.
  induction l as [|a l IH]; cbn [find].
  - split; [intros _ y [] | reflexivity].
  - destruct (f a) eqn:Fa.
    + split; [discriminate|]. intros H.
      rewrite (H a (or_introl eq_refl)) in Fa. discriminate.
    + rewrite IH. split.
      * intros H y [<-|Hy]; [exact Fa | apply H; exact Hy].
      * intros H y Hy. apply H. right. exact Hy.
Qed.

Lemma spec_units_last (u : pystr) (pv : option codepoint) :
  In u spec_units ->
  u <> [] /\ exists c, Re.last_char u pv = Some c /\ Unicode.isword c = true.
Proof.
  intros H. vm_compute in H.
  repeat (destruct H as [<-|H];
          [split; [discriminate | eexists; split; reflexivity]|]).
  contradiction.
Qed.

(** What the four specification patterns match. *)
Lemma spec_patterns_shape (pat : Re.regex) (ln : pystr) (m : Re.Match) :
  In pat spec_patterns -> Re.search pat ln = Some m ->
  exists pre w suf,
    ln = pre ++ w ++ suf /\
    ((spec_unit_shape w /\
      match suf with [] => True | x :: _ => Unicode.isword x = false end) \/
     spec_label_shape w).
Proof.
  intros Hp Hs.
  assert (U : forall units, incl units spec_units -> units <> [] ->
                pat = unit_pattern units ->
                exists pre w suf,
                  ln = pre ++ w ++ suf /\
                  ((spec_unit_shape w /\
                    match suf with
                    | [] => True
                    | x :: _ => Unicode.isword x = false
                    end) \/ spec_label_shape w)).
  { intros units I N ->.
    destruct (ReFacts.search_sound_boundary (unit_pattern units) ln m eq_refl Hs)
      as [pre [w [suf [E [L B]]]]].
    destruct (lang_unit_pattern units w N L) as [n [sp [u [-> [Ln [Hsp Hu]]]]]].
    destruct (number_lang n Ln) as [ds [fs Hn]].
    exists pre, (n ++ sp ++ u), suf. split; [exact E|]. left. split.
    - exists n, ds, fs, sp, u. split; [exact Hn|]. split; [exact Hsp|].
      split; [apply I; exact Hu | reflexivity].
    - destruct (spec_units_last u
                  (Re.last_char sp (Re.last_char n None)) (I u Hu))
        as [Nu [c [Lc Wc]]].
      apply (B c).
      + rewrite !ReFacts.last_char_app. exact Lc.
      + destruct n; [|discriminate]. destruct sp; [|discriminate].
        destruct u; [contradiction | discriminate].
      + exact Wc. }
  destruct Hp as [<-|[<-|[<-|[<-|[]]]]].
  - apply (U metre_units); [|discriminate | reflexivity].
    intros u Hu. unfold spec_units. apply in_or_app. left. exact Hu.
  - apply (U small_length_units); [|discriminate | reflexivity].
    intros u Hu. unfold spec_units. apply in_or_app. right.
    apply in_or_app. left. exact Hu.
  - apply (U watt_units); [|discriminate | reflexivity].
    intros u Hu. unfold spec_units. apply in_or_app. right.
    apply in_or_app. right. exact Hu.
  - clear U. apply ReFacts.search_sound in Hs
      as [pre [w [suf [st' [E [L _]]]]]].
    exists pre, w, suf. split; [exact E|]. right.
    unfold spec_label_pattern, opt_colon in L. cbn [Re.seq Re.lang] in L.
    destruct L as [lab [w2 [-> [Hlab [sp1 [w4 [-> [Hs1 [col [w6 [-> [Hcol
                  [sp2 [tok [-> [Hs2 [Nt Ht]]]]]]]]]]]]]]]]].
    apply ReFacts.lang_alts in Hlab; [|discriminate].
    exists lab, sp1, col, sp2, tok.
    split; [exact Hlab|]. split; [exact Hs1|]. split.
    { destruct Hcol as [[x [-> Hx]] | ->]; [right | left; reflexivity].
      exists x. split; [reflexivity|]. apply mem_in. exact Hx. }
    split; [exact Hs2|]. split; [exact Nt|]. split; [exact Ht | reflexivity].
Qed.

(** X6.  The specification is the first line, whole, that one of the four
    patterns matches; the fallback on the first line never decides, since
    its pattern matches no line the three unit patterns leave out; a match
    is a numeral and a unit of length or power that no word character
    follows, or a label and a token; and the specification step sets the
    field and adds 0.15 to the confidence exactly when a line was found. *)
Theorem X6_specification (raw : pystr) :
  let lines := normalize_lines (Str.strip raw) in
  let r := extract raw in
  specification r = find (any_match spec_patterns) lines /\
  (forall ln, matches first_line_spec_pattern ln = true ->
              any_match spec_patterns ln = true) /\
  (forall ln, specification r = Some ln ->
     exists before after,
       lines = before ++ ln :: after /\
       any_match spec_patterns ln = true /\
       forall l, In l before -> any_match spec_patterns l = false) /\
  (specification r = None <->
   forall ln, In ln lines -> any_match spec_patterns ln = false) /\
  (forall pat ln m,
     In pat spec_patterns -> Re.search pat ln = Some m ->
     exists pre w suf,
       ln = pre ++ w ++ suf /\
       ((spec_unit_shape w /\
         match suf with [] => True | x :: _ => Unicode.isword x = false end) \/
        spec_label_shape w)) /\
  (forall res,
     spec_step lines res =
     match specification r with
     | Some v => add_confidence (set_specification res v) 0.15%float
     | None => res
     end).
Proof.
  cbv zeta. rewrite specification_find_spec, find_spec_find.
  split; [reflexivity|]. split; [exact fallback_covered|].
  split; [intros ln; apply find_first|].
  split; [apply find_none_iff|].
  split; [exact spec_patterns_shape|].
  intros res. unfold spec_step. rewrite find_spec_find. reflexivity.
Qed.

(** ** Text appended after a line feed *)

Lemma scan_lines_app (name : string) (pats : list Re.regex)
  (la lb : list pystr) :
  scan_lines name pats (la ++ lb) =
  match scan_lines name pats la with
  | Some v => Some v
  | None => scan_lines name pats lb
  end.
Proof.
  induction la as [|ln la IH]; [reflexivity|].
  rewrite <- app_comm_cons. cbn [scan_lines].
  destruct (first_pattern name pats ln) as [[v|]|]; [reflexivity | |]; exact IH.
Qed.

Lemma find_app {A : Type} (f : A -> bool) (la lb : list A) :
  find f (la ++ lb) =
  match find f la with Some x => Some x | None => find f lb end.
Proof.
  induction la as [|a la IH]; [reflexivity|].
  rewrite <- app_comm_cons. cbn [find]. destruct (f a); [reflexivity | exact IH].
Qed.

(** The record, from the lines of the untrimmed input. *)
Lemma extract_lines (raw : pystr) :
  extract raw =
  let lines := normalize_lines raw in
  match lines with
  | [] => MkRecord None None None None CNY [] 0.0%float
  | first :: _ =>
      let price := scan_lines "price" price_patterns lines in
      let spec := find (any_match spec_patterns) lines in
      let qty := scan_lines "qty" qty_patterns lines in
      MkRecord (Some (name_of first)) spec qty price
        (if existsb (fun ln => Str.contains (utf8 "$") ln
                               || Str.contains USD (Str.upper ln)) lines
         then USD else CNY)
        (Str.join (utf8 " ") lines)
        (clamp_confidence
           (score (is_set price) (is_set spec) (is_set qty)
                  (truthy (clean_name first))))
  end.
Proof.
  rewrite extract_unfold. cbv zeta.
  rewrite currency_test_lines, !LineFacts.normalize_lines_strip.
  destruct (normalize_lines raw) as [|first rest] eqn:E.
  - rewrite (normalize_lines_nil raw); [reflexivity|].
    rewrite LineFacts.normalize_lines_strip. exact E.
  - rewrite find_spec_find. reflexivity.
Qed.

Lemma clamp_score_mono (a b c d a' b' c' : bool) :
  (a = true -> a' = true) -> (b = true -> b' = true) ->
  (c = true -> c' = true) ->
  (clamp_confidence (score a b c d)
   <=? clamp_confidence (score a' b' c' d))%float = true.
Proof.
  intros Ha Hb Hc.
  destruct a, a', b, b', c, c', d;
    first [ discriminate (Ha eq_refl) | discriminate (Hb eq_refl)
          | discriminate (Hc eq_refl) | vm_compute; reflexivity ].
Qed.

Lemma clamp_score_nonneg (a b c d : bool) :
  (0.0 <=? clamp_confidence (score a b c d))%float = true.
Proof. destruct a, b, c, d; vm_compute; reflexivity. Qed.

Lemma is_set_first {A : Type} (x y : option A) :
  is_set x = true ->
  is_set (match x with Some v => Some v | None => y end) = true.
Proof. destruct x; [reflexivity | discriminate]. Qed.

(** X7.  Text appended after a line feed changes no field that was set: the
    item name, the unit price, the quantity, the specification and a
    currency of USD stay as they were, and the confidence does not
    decrease. *)
Theorem X7_appended_text (a b : pystr) :
  let r := extract a in
  let r' := extract (a ++ LF :: b) in
  (forall v, item_name r = Some v -> item_name r' = Some v) /\
  (forall v, unit_price r = Some v -> unit_price r' = Some v) /\
  (forall v, quantity r = Some v -> quantity r' = Some v) /\
  (forall v, specification r = Some v -> specification r' = Some v) /\
  (currency r = USD -> currency r' = USD) /\
  (confidence r <=? confidence r')%float = true.
Proof.
  cbv zeta. rewrite !extract_lines. cbv zeta.
  rewrite LineFacts.normalize_lines_app_lf.
  destruct (normalize_lines a) as [|first rest] eqn:Ea.
  - cbn [item_name unit_price quantity specification currency confidence].
    repeat (split; [discriminate|]).
    cbn [app]. destruct (normalize_lines b) as [|fb rb].
    + reflexivity.
    + cbn [confidence]. apply clamp_score_nonneg.
  - rewrite <- app_comm_cons.
    cbn [item_name unit_price quantity specification currency confidence].
    rewrite app_comm_cons, !scan_lines_app, find_app, existsb_app.
    split; [auto|].
    split; [intros v ->; reflexivity|].
    split; [intros v ->; reflexivity|].
    split; [intros v ->; reflexivity|].
    split.
    + destruct (existsb _ (first :: rest)); [reflexivity | discriminate].
    + apply clamp_score_mono; apply is_set_first.
Qed.

(** ** The item name against the first line *)

Lemma subseq_refl (s : pystr) : Subseq s s.
Proof. induction s; constructor; assumption. Qed.

Lemma subseq_nil_l (s : pystr) : Subseq [] s.
Proof. induction s; constructor; assumption. Qed.

Lemma subseq_trans (a b c : pystr) : Subseq a b -> Subseq b c -> Subseq a c.
Proof.
  intros H1 H2. revert a H1.
  induction H2 as [|x b c H2 IH|x b c H2 IH]; intros a H1.
  - exact H1.
  - apply subseq_skip. apply IH. exact H1.
  - inversion H1 as [|y a' b' H|y a' b' H]; subst.
    + apply subseq_skip. apply IH. exact H.
    + apply subseq_keep. apply IH. exact H.
Qed.

Lemma subseq_in (a b : pystr) (c : codepoint) :
  Subseq a b -> In c a -> In c b.
Proof.
  induction 1 as [|x a b H IH|x a b H IH]; intros Hc.
  - exact Hc.
  - right. apply IH. exact Hc.
  - destruct Hc as [<-|Hc]; [left; reflexivity | right; apply IH; exact Hc].
Qed.

Lemma subseq_length (a b : pystr) :
  Subseq a b -> (List.length a <= List.length b)%nat.
Proof. induction 1; simpl; lia. Qed.

Lemma replace_go_subseq (w : pystr) (s : pystr) :
  forall skip, Subseq (Str.replace_go w [] skip s) s.
Proof.
  induction s as [|c tl IH]; intros skip; cbn [Str.replace_go].
  - constructor.
  - destruct skip as [|n]; [|apply subseq_skip; apply IH].
    destruct (Str.starts_with w (c :: tl)).
    + cbn [app]. apply subseq_skip. apply IH.
    + apply subseq_keep. apply IH.
Qed.

Lemma replace_subseq (w s : pystr) : Subseq (Str.replace w [] s) s.
Proof.
  unfold Str.replace. destruct w as [|x w].
  - cbn [app]. rewrite flat_map_single. apply subseq_refl.
  - apply replace_go_subseq.
Qed.

Lemma sub_go_subseq (r : Re.regex) (s : pystr) :
  forall skip pv p, Subseq (Re.sub_go r [] skip pv s p) s.
Proof.
  induction s as [|c tl IH]; intros skip pv p; cbn [Re.sub_go].
  - constructor.
  - destruct skip as [|n]; [|apply subseq_skip; apply IH].
    destruct (Re.match_at r pv (c :: tl) p) as [m|].
    + destruct (Re.m_end m - p)%nat.
      * apply subseq_keep. apply IH.
      * cbn [app]. apply subseq_skip. apply IH.
    + apply subseq_keep. apply IH.
Qed.

Lemma subseq_middle (a t b : pystr) : Subseq t (a ++ t ++ b).
Proof.
  induction a as [|x a IH]; cbn [app]; [|apply subseq_skip; exact IH].
  induction t as [|y t IH]; cbn [app];
    [apply subseq_nil_l | apply subseq_keep; exact IH].
Qed.

Lemma strip_by_subseq (p : codepoint -> bool) (s : pystr) :
  Subseq (Str.strip_by p s) s.
Proof.
  destruct (StrFacts.strip_by_split p s) as [a [b [E _]]].
  remember (Str.strip_by p s) as t. rewrite E. apply subseq_middle.
Qed.

Lemma fold_replace_subseq (ws : list pystr) (s : pystr) :
  Subseq (fold_left (fun acc w => Str.replace w [] acc) ws s) s.
Proof.
  revert s. induction ws as [|w ws IH]; intros s; cbn [fold_left].
  - apply subseq_refl.
  - apply subseq_trans with (Str.replace w [] s);
      [apply IH | apply replace_subseq].
Qed.

Lemma clean_name_subseq (first : pystr) : Subseq (clean_name first) first.
Proof.
  unfold clean_name. cbv zeta.
  eapply subseq_trans; [apply strip_by_subseq|].
  eapply subseq_trans; [apply sub_go_subseq|].
  apply fold_replace_subseq.
Qed.

(** X14.  The cleaning only leaves characters out: the item name is the
    first line with some characters left out, in the order of the line, so
    it is no longer than the line and each of its characters is a character
    of the input. *)
Theorem X14_item_name_from_line (raw : pystr) :
  (forall first, Subseq (clean_name first) first /\
                 Subseq (name_of first) first) /\
  (forall name, item_name (extract raw) = Some name ->
     exists first,
       hd_error (normalize_lines (Str.strip raw)) = Some first /\
       Subseq name first /\
       (List.length name <= List.length first)%nat /\
       forall c, In c name -> In c raw).
Proof.
  assert (N : forall first, Subseq (name_of first) first).
  { intros first. unfold name_of.
    destruct (truthy (clean_name first));
      [apply clean_name_subseq | apply subseq_refl]. }
  split; [intros first; split; [apply clean_name_subseq | apply N]|].
  intros name H. rewrite item_name_first in H.
  destruct (normalize_lines (Str.strip raw)) as [|first rest] eqn:E;
    [discriminate|].
  cbn [hd_error option_map] in H. injection H as <-.
  exists first. split; [reflexivity|]. split; [apply N|].
  split; [apply subseq_length; apply N|].
  intros c Hc. apply (subseq_in _ _ c (N first)) in Hc.
  assert (Hl : In first (normalize_lines (Str.strip raw)))
    by (rewrite E; left; reflexivity).
  apply (StrFacts.strip_by_sub Unicode.isspace raw).
  exact (proj2 (proj1 (proj2 (normalized_line _ _ Hl)) c Hc)).
Qed.

End ExtractorMore.

(* ================================================================== *)
(** * Facts about the driver *)
(* ================================================================== *)

Section OcrFacts.

Variable Box : Type.
Variable readtext : pystr -> list (Main.OcrResult Box).
Context {db : DB}.

(** The text of a result once [text or ""] is trimmed. *)
Local Abbreviation text_of r :=
  (Str.strip (match snd (fst r) with Some t => t | None => [] end)).

Lemma ocr_items_spec (results : list (Main.OcrResult Box)) :
  Main.ocr_items Box results =
  map (fun r => Main.MkItem (text_of r) (snd r))
      (filter (fun r => truthy (text_of r)) results).
Proof.
  induction results as [|[[box text] conf] results IH]; [reflexivity|].
  cbn [Main.ocr_items filter fst snd].
  destruct (truthy (Str.strip match text with Some t => t | None => [] end));
    cbn [map fst snd]; rewrite IH; reflexivity.
Qed.

Lemma ocr_items_in (results : list (Main.OcrResult Box)) (it : Main.OcrItem) :
  In it (Main.ocr_items Box results) ->
  trimmed (Main.item_text it) /\
  exists box text,
    In (box, text, Main.item_conf it) results /\
    Main.item_text it
    = Str.strip (match text with Some t => t | None => [] end).
Proof.
  rewrite ocr_items_spec. intros H.
  apply in_map_iff in H as [[[box text] conf] [<- H]].
  apply filter_In in H as [H T]. cbn [fst snd] in *.
  cbn [Main.item_text Main.item_conf]. split.
  - split; [apply StrFacts.truthy_true; exact T|].
    apply LineFacts.strip_by_idem.
  - exists box, text. split; [exact H | reflexivity].
Qed.

Lemma takewhile_split (p : codepoint -> bool) (s : pystr) :
  exists r, s = Main.takewhile p s ++ r /\
            forallb p (Main.takewhile p s) = true /\
            match r with [] => True | c :: _ => p c = false end.
Proof.
  induction s as [|c s IH]; cbn [Main.takewhile].
  - exists []. repeat split.
  - destruct (p c) eqn:Hc.
    + destruct IH as [r [E [F R]]]. exists r. split; [|split].
      * simpl. f_equal. exact E.
      * simpl. rewrite Hc. exact F.
      * exact R.
    + exists (c :: s). repeat split. exact Hc.
Qed.

Lemma basename_split (p : pystr) :
  exists dir, p = dir ++ Main.basename p /\
              ~ In 47%N (Main.basename p) /\
              (dir = [] \/ exists d, dir = d ++ [47%N]).
Proof.
  unfold Main.basename.
  destruct (takewhile_split (fun c => negb (c =? 47)%N) (rev p))
    as [r [E [F R]]].
  exists (rev r). split; [|split].
  - rewrite <- rev_app_distr, <- E. symmetry. apply rev_involutive.
  - intros H. apply in_rev in H.
    apply (proj1 (forallb_forall _ _) F) in H. discriminate.
  - destruct r as [|c r]; [left; reflexivity|]. right. exists (rev r).
    apply negb_false_iff in R. apply N.eqb_eq in R. subst c. reflexivity.
Qed.

Lemma join_nil_iff (sep : pystr) (ls : list pystr) :
  (forall l, In l ls -> l <> []) ->
  (Str.join sep ls = [] <-> ls = []).
Proof.
  intros H. split; [|intros ->; reflexivity].
  destruct ls as [|l ls]; [reflexivity|]. intros E. exfalso.
  revert E. apply StrFacts.join_nonempty. apply H. left. reflexivity.
Qed.

(** A line feed after a text without line break closes the line. *)
Lemma splitlines_line (a b : pystr) :
  (forall c, In c a -> Unicode.islinebreak c = false) ->
  Str.splitlines (a ++ LF :: b) = a :: Str.splitlines b.
Proof.
  induction a as [|c a IH]; intros H.
  - apply LineFacts.splitlines_lf.
  - rewrite <- app_comm_cons.
    rewrite LineFacts.splitlines_nobreak by (apply H; left; reflexivity).
    rewrite IH by (intros x Hx; apply H; right; exact Hx). reflexivity.
Qed.

Lemma splitlines_join (ls : list pystr) :
  (forall l, In l ls -> l <> [] /\
             forall c, In c l -> Unicode.islinebreak c = false) ->
  Str.splitlines (Str.join [LF] ls) = ls.
Proof.
  induction ls as [|l ls IH]; intros H; [reflexivity|].
  destruct ls as [|q ls'].
  - destruct (H l (or_introl eq_refl)) as [N C].
    apply LineFacts.splitlines_single; assumption.
  - change (Str.join [LF] (l :: q :: ls'))
      with (l ++ LF :: Str.join [LF] (q :: ls')).
    rewrite splitlines_line by (apply (H l); left; reflexivity).
    f_equal. apply IH. intros x Hx. apply H. right. exact Hx.
Qed.

(** X8.  The items of an image are the results of the reader whose text is
    not blank, in the order of the reader, each with its text trimmed and
    its confidence as it was; the raw text is empty exactly when there is
    no item, and splitting it into lines gives the texts back when none
    has a line break; the image name is what follows the last slash of the
    path. *)
Theorem X8_ocr_output (image_path : pystr) :
  let out := Main.ocr_one_image Box readtext image_path in
  let texts := map Main.item_text (Main.items out) in
  (forall it, In it (Main.items out) ->
     Main.item_text it <> [] /\
     Str.strip (Main.item_text it) = Main.item_text it /\
     exists box text,
       In (box, text, Main.item_conf it) (readtext image_path) /\
       Main.item_text it
       = Str.strip (match text with Some t => t | None => [] end)) /\
  Main.items out =
    map (fun r => Main.MkItem (text_of r) (snd r))
        (filter (fun r => truthy (text_of r)) (readtext image_path)) /\
  (List.length (Main.items out) <= List.length (readtext image_path))%nat /\
  (Main.raw_text out = [] <-> Main.items out = []) /\
  ((forall t c, In t texts -> In c t -> Unicode.islinebreak c = false) ->
   Str.splitlines (Main.raw_text out) = texts) /\
  Main.path out = image_path /\
  (exists dir, image_path = dir ++ Main.image out /\
               ~ In 47%N (Main.image out) /\
               (dir = [] \/ exists d, dir = d ++ [47%N])).
Proof.
  cbv zeta. unfold Main.ocr_one_image.
  cbn [Main.items Main.raw_text Main.path Main.image].
  assert (T : forall t, In t (map Main.item_text
                                  (Main.ocr_items Box (readtext image_path))) ->
                        t <> []).
  { intros t Ht. apply in_map_iff in Ht as [it [<- Hi]].
    exact (proj1 (proj1 (ocr_items_in _ _ Hi))). }
  split; [|split; [|split; [|split; [|split; [|split]]]]].
  - intros it Hi. destruct (ocr_items_in _ _ Hi) as [[N S] E]. auto.
  - apply ocr_items_spec.
  - rewrite ocr_items_spec, length_map. apply filter_length_le.
  - rewrite (join_nil_iff _ _ T). split.
    + intros E. apply map_eq_nil in E. exact E.
    + intros ->. reflexivity.
  - intros C. apply splitlines_join. intros l Hl. split.
    + apply T. exact Hl.
    + intros c. apply C. exact Hl.
  - reflexivity.
  - apply basename_split.
Qed.

(** ** From the image to the record *)

Lemma normalize_lines_trimmed (t : pystr) :
  trimmed t -> (forall c, In c t -> Unicode.islinebreak c = false) ->
  normalize_lines t = [t].
Proof.
  intros [N S] C. unfold normalize_lines.
  rewrite (LineFacts.splitlines_single t N C). cbn [filter]. rewrite S.
  destruct t as [|c l]; [contradiction|]. cbn [truthy map]. rewrite S.
  reflexivity.
Qed.

Lemma normalize_lines_trimmed_nonempty (t : pystr) :
  trimmed t -> normalize_lines t <> [].
Proof.
  intros [N S] E. rewrite <- LineFacts.normalize_lines_strip in E.
  apply normalize_lines_nil in E. rewrite S in E. contradiction.
Qed.

Lemma flat_map_singletons {A : Type} (f : A -> list A) (l : list A) :
  (forall x, In x l -> f x = [x]) -> flat_map f l = l.
Proof.
  induction l as [|a l IH]; intros H; [reflexivity|]. simpl.
  rewrite (H a (or_introl eq_refl)). simpl. f_equal. apply IH.
  intros x Hx. apply H. right. exact Hx.
Qed.

Lemma clamp_score_floor (a b c d : bool) :
  (0.55 <=? clamp_confidence (score a b c d))%float = true.
Proof. destruct a, b, c, d; vm_compute; reflexivity. Qed.

(** X9.  The loop of the driver extracts from the raw text of each image.
    The lines the extractor works on are the lines of the item texts, in
    the order of the reader; an image without items gives the default
    record with confidence 0.0, and an image with items gives an item name
    and a confidence of at least 0.55; when no text has a line break the
    lines are the item texts themselves, so the item name is read from the
    first item and the source text is the item texts joined with spaces. *)
Theorem X9_record_of_image (images : list pystr) (image_path : pystr) :
  let out := Main.ocr_one_image Box readtext image_path in
  let texts := map Main.item_text (Main.items out) in
  let r := extract (Main.raw_text out) in
  Main.process_images Box readtext images
  = (map (Main.ocr_one_image Box readtext) images,
     map (fun p => extract (Main.raw_text
                              (Main.ocr_one_image Box readtext p))) images) /\
  normalize_lines (Str.strip (Main.raw_text out))
  = flat_map normalize_lines texts /\
  (Main.items out = [] ->
   r = {| item_name := None; specification := None; quantity := None;
          unit_price := None; currency := CNY; source_text := [];
          confidence := 0.0%float |}) /\
  (Main.items out <> [] ->
   item_name r <> None /\ (0.55 <=? confidence r)%float = true) /\
  ((forall t c, In t texts -> In c t -> Unicode.islinebreak c = false) ->
   normalize_lines (Str.strip (Main.raw_text out)) = texts /\
   item_name r = option_map name_of (hd_error texts) /\
   source_text r = Str.join (utf8 " ") texts).
Proof.
  cbv zeta.
  assert (L : normalize_lines
                (Main.raw_text (Main.ocr_one_image Box readtext image_path))
              = flat_map normalize_lines
                  (map Main.item_text
                     (Main.items
                        (Main.ocr_one_image Box readtext image_path))))
    by apply LineFacts.normalize_lines_join.
  assert (T : forall t,
             In t (map Main.item_text
                     (Main.items
                        (Main.ocr_one_image Box readtext image_path))) ->
             trimmed t).
  { intros t Ht. apply in_map_iff in Ht as [it [<- Hi]].
    exact (proj1 (ocr_items_in _ _ Hi)). }
  split; [|split; [|split; [|split]]].
  - unfold Main.process_images. cbv zeta. rewrite map_map. reflexivity.
  - rewrite LineFacts.normalize_lines_strip. exact L.
  - intros E. rewrite extract_lines. cbv zeta. rewrite L, E. reflexivity.
  - intros N. rewrite extract_lines. cbv zeta. rewrite L.
    destruct (map Main.item_text
                (Main.items (Main.ocr_one_image Box readtext image_path)))
      as [|t ts] eqn:Et.
    + apply map_eq_nil in Et. contradiction.
    + cbn [flat_map].
      destruct (normalize_lines t) as [|first rest] eqn:El.
      * exfalso. revert El. apply normalize_lines_trimmed_nonempty.
        apply T. left. reflexivity.
      * rewrite <- app_comm_cons. cbn [item_name confidence].
        split; [discriminate | apply clamp_score_floor].
  - intros C.
    assert (F : flat_map normalize_lines
                  (map Main.item_text
                     (Main.items
                        (Main.ocr_one_image Box readtext image_path)))
                = map Main.item_text
                    (Main.items
                       (Main.ocr_one_image Box readtext image_path))).
    { apply flat_map_singletons. intros t Ht.
      apply normalize_lines_trimmed; [apply T; exact Ht|].
      intros c. apply C. exact Ht. }
    rewrite F in L. split; [|split].
    + rewrite LineFacts.normalize_lines_strip. exact L.
    + rewrite extract_lines. cbv zeta. rewrite L.
      destruct (map Main.item_text
                  (Main.items (Main.ocr_one_image Box readtext image_path)));
        reflexivity.
    + rewrite extract_lines. cbv zeta. rewrite L.
      destruct (map Main.item_text
                  (Main.items (Main.ocr_one_image Box readtext image_path)));
        reflexivity.
Qed.

End OcrFacts.

Section ImageFacts.

Variable lower_other : pystr -> codepoint -> pystr -> pystr.

Local Abbreviation lower := (Main.lower lower_other).
Local Abbreviation is_image_file := (Main.is_image_file lower_other).

Lemma lower_go_ascii (s before : pystr) :
  forallb Unicode.is_ascii s = true ->
  Main.lower_go lower_other before s = map Main.ascii_lower s.
Proof.
  revert before. induction s as [|c s IH]; intros before H; [reflexivity|].
  cbn [forallb] in H. apply andb_prop in H as [Hc H].
  cbn [Main.lower_go map]. unfold Main.lower_char. rewrite Hc.
  rewrite (IH _ H). reflexivity.
Qed.

(** An ASCII end of a name is lowered on its own, whatever comes before. *)
Lemma lower_go_end (pre suf before : pystr) :
  forallb Unicode.is_ascii suf = true ->
  exists x, Main.lower_go lower_other before (pre ++ suf)
            = x ++ map Main.ascii_lower suf.
Proof.
  intros H. revert before. induction pre as [|c pre IH]; intros before.
  - exists []. apply lower_go_ascii. exact H.
  - destruct (IH (before ++ [c])) as [x E].
    exists (Main.lower_char lower_other before c (pre ++ suf) ++ x).
    rewrite <- app_comm_cons. cbn [Main.lower_go]. rewrite E.
    apply app_assoc.
Qed.

Lemma ends_with_iff (suffix s : pystr) :
  Main.ends_with suffix s = true <-> exists stem, s = stem ++ suffix.
Proof.
  unfold Main.ends_with. split.
  - intros H. apply ReFacts.starts_with_split in H.
    exists (rev (skipn (List.length (rev suffix)) (rev s))).
    rewrite <- (rev_involutive suffix) at 2. rewrite <- rev_app_distr, <- H.
    symmetry. apply rev_involutive.
  - intros [stem ->]. rewrite rev_app_distr. apply StrFacts.starts_with_app.
Qed.

Lemma is_image_file_iff (name : pystr) :
  is_image_file name = true <->
  exists suffix stem, In suffix Main.image_suffixes /\
                      lower name = stem ++ suffix.
Proof.
  unfold Main.is_image_file. rewrite existsb_exists. split.
  - intros [suffix [Hs H]]. apply ends_with_iff in H as [stem E].
    exists suffix, stem. split; assumption.
  - intros [suffix [stem [Hs E]]]. exists suffix. split; [exact Hs|].
    apply ends_with_iff. exists stem. exact E.
Qed.

Lemma image_suffixes_length (suffix : pystr) :
  In suffix Main.image_suffixes -> (4 <= List.length suffix)%nat.
Proof.
  intros H. vm_compute in H.
  repeat (destruct H as [<-|H]; [simpl; lia|]). contradiction.
Qed.

(** X10.  A name made of ASCII characters is an image name exactly when it
    ends, whatever the case of its letters, with one of the six suffixes;
    such a name has at least four characters, and whatever is put before
    it, ASCII or not, leaves it an image name. *)
Theorem X10_image_names (name : pystr) :
  forallb Unicode.is_ascii name = true ->
  (is_image_file name = true <->
   exists stem ending,
     name = stem ++ ending /\
     In (map Main.ascii_lower ending) Main.image_suffixes) /\
  (is_image_file name = true -> (4 <= List.length name)%nat) /\
  (is_image_file name = true ->
   forall before, is_image_file (before ++ name) = true).
Proof.
  intros A.
  assert (L : lower name = map Main.ascii_lower name)
    by (apply lower_go_ascii; exact A).
  assert (E : is_image_file name = true <->
              exists stem ending,
                name = stem ++ ending /\
                In (map Main.ascii_lower ending) Main.image_suffixes).
  { rewrite is_image_file_iff, L. split.
    - intros [suffix [stem [Hs E]]]. apply map_eq_app in E
        as [l1 [l2 [E [E1 E2]]]].
      exists l1, l2. split; [exact E|]. rewrite E2. exact Hs.
    - intros [stem [ending [-> Hs]]].
      exists (map Main.ascii_lower ending), (map Main.ascii_lower stem).
      split; [exact Hs | apply map_app]. }
  split; [exact E|]. split.
  - intros H. apply E in H as [stem [ending [-> Hs]]].
    apply image_suffixes_length in Hs. rewrite length_map in Hs.
    rewrite length_app. lia.
  - intros H before. apply E in H as [stem [ending [-> Hs]]].
    apply is_image_file_iff.
    rewrite forallb_app in A. apply andb_prop in A as [_ A].
    destruct (lower_go_end (before ++ stem) ending [] A) as [x Ex].
    exists (map Main.ascii_lower ending), x. split; [exact Hs|].
    unfold Main.lower. rewrite app_assoc. exact Ex.
Qed.

End ImageFacts.

Section CollectFacts.

Variable lower_other : pystr -> codepoint -> pystr -> pystr.
Variable fs : Main.FileSystem.

Local Abbreviation str_le := (fun a b => Main.str_leb a b = true).














End CollectFacts.

(* ================================================================== *)
(** * Facts about the two services *)
(* ================================================================== *)

Section ServiceFacts.

Import Json.





Section FeishuFacts.

Variables APP_ID APP_SECRET BASE_APP_TOKEN TABLE_ID RAW_TEXT_FIELD
  : option pystr.
Variable str_other : json -> pystr.
Variable post : list Feishu.Request -> Feishu.Request -> outcome json.

Local Abbreviation token_request := (Feishu.token_request APP_ID APP_SECRET).
Local Abbreviation record_request :=
  (Feishu.record_request BASE_APP_TOKEN TABLE_ID RAW_TEXT_FIELD str_other).
Local Abbreviation get_tenant_access_token :=
  (Feishu.get_tenant_access_token APP_ID APP_SECRET post).
Local Abbreviation create_record :=
  (Feishu.create_record APP_ID APP_SECRET BASE_APP_TOKEN TABLE_ID
                        RAW_TEXT_FIELD str_other post).





End FeishuFacts.

End ServiceFacts.

(* ================================================================== *)
(** * More instances *)
(* ================================================================== *)

(** X1 at the sample of the source and its third line. *)
Lemma X1_lines_invariant_witness :
  In (utf8 "3.8元") (normalize_lines scenario1) /\
  (utf8 "3.8元" <> [] /\
   Str.strip (utf8 "3.8元") = utf8 "3.8元" /\
   (forall c, In c (utf8 "3.8元") ->
              Unicode.islinebreak c = false /\ In c scenario1) /\
   normalize_lines (utf8 "3.8元") = [utf8 "3.8元"]).
Proof.
  assert (H : In (utf8 "3.8元") (normalize_lines scenario1)) by decide_in.
  split; [exact H|].
  exact (X1_lines_invariant scenario1 (utf8 "3.8元") H).
Defined.

(** X10 at a camera file name in upper case, with the characters outside
    ASCII left as they are. *)
Lemma X10_image_names_witness :
  forallb Unicode.is_ascii (utf8 "IMG_01.JPG") = true /\
  ((Main.is_image_file (fun _ c _ => [c]) (utf8 "IMG_01.JPG") = true <->
    exists stem ending,
      utf8 "IMG_01.JPG" = stem ++ ending /\
      In (map Main.ascii_lower ending) Main.image_suffixes) /\
   (Main.is_image_file (fun _ c _ => [c]) (utf8 "IMG_01.JPG") = true ->
    (4 <= List.length (utf8 "IMG_01.JPG"))%nat) /\
   (Main.is_image_file (fun _ c _ => [c]) (utf8 "IMG_01.JPG") = true ->
    forall before,
      Main.is_image_file (fun _ c _ => [c]) (before ++ utf8 "IMG_01.JPG")
      = true)).
Proof.
  assert (H : forallb Unicode.is_ascii (utf8 "IMG_01.JPG") = true)
    by reflexivity.
  split; [exact H|].
  exact (X10_image_names (fun _ c _ => [c]) (utf8 "IMG_01.JPG") H).
Defined.

(** The driver on the sample of the source, read as four results of which
    two are blank: the raw text has the two texts, and the record is read
    from them. *)
Example ocr_sample :
  let readtext := fun _ : pystr =>
    [(tt, Some (utf8 "灯带3.4米"), 0.9%float);
     (tt, Some (utf8 "  "), 0.2%float);
     (tt, None, 0.1%float);
     (tt, Some (utf8 " 3.8元 "), 0.8%float)] in
  let out := Main.ocr_one_image unit readtext (utf8 "input_images/a.PNG") in
  Main.image out = utf8 "a.PNG" /\
  Main.raw_text out = utf8 "灯带3.4米" ++ [LF] ++ utf8 "3.8元" /\
  map Main.item_conf (Main.items out) = [0.9%float; 0.8%float] /\
  item_name (@extract Unicode.plain_db (Main.raw_text out))
  = Some (utf8 "灯带") /\
  unit_price (@extract Unicode.plain_db (Main.raw_text out))
  = Some 3.8%float.
Proof. vm_compute. repeat split; reflexivity. Qed.

(** A directory with two images, a text file and a sub-directory that has
    an image name. *)
Example collect_sample :
  let names := [utf8 "b.PNG"; utf8 "notes.txt"; utf8 "sub.png"; utf8 "a.jpg"] in
  let files := [utf8 "in/b.PNG"; utf8 "in/notes.txt"; utf8 "in/a.jpg"] in
  let fs :=
    {| Main.isdir := fun p => Json.str_eqb p (utf8 "in");
       Main.isfile := fun p => existsb (Json.str_eqb p) files;
       Main.listdir := fun _ => names |} in
  Main.collect_images (fun _ c _ => [c]) fs (utf8 "in")
  = [utf8 "in/a.jpg"; utf8 "in/b.PNG"] /\
  Main.collect_images (fun _ c _ => [c]) fs (utf8 "in/b.PNG")
  = [utf8 "in/b.PNG"] /\
  Main.collect_images (fun _ c _ => [c]) fs (utf8 "in/notes.txt") = [] /\
  Main.collect_images (fun _ c _ => [c]) fs (utf8 "missing.png") = [].
Proof. vm_compute. repeat split; reflexivity. Qed.

(** The upload against a service that gives a token and accepts the record,
    and against one that refuses the token. *)
Example upload_sample :
  let token_answer :=
    Json.JObj [(utf8 "code", Json.JInt 0);
               (utf8 "tenant_access_token", Json.JStr (utf8 "t-1"))] in
  let record_answer :=
    Json.JObj [(utf8 "code", Json.JInt 0); (utf8 "msg", Json.JStr (utf8 "success"))] in
  let refusal := Json.JObj [(utf8 "code", Json.JInt 99991663)] in
  let accepts := fun (log : list Feishu.Request) (_ : Feishu.Request) =>
    match log with
    | [] => Json.Returns token_answer
    | _ :: _ => Json.Returns record_answer
    end in
  let refuses := fun (_ : list Feishu.Request) (_ : Feishu.Request) =>
    Json.Returns refusal in
  let create := Feishu.create_record (Some (utf8 "id")) (Some (utf8 "secret"))
                  (Some (utf8 "base")) (Some (utf8 "tbl")) (Some (utf8 "原始文本"))
                  (fun _ => []) in
  fst (create accepts (utf8 "3.8元") []) = Json.Returns record_answer /\
  map Feishu.url (snd (create accepts (utf8 "3.8元") []))
  = [Feishu.token_url;
     utf8 "https://open.feishu.cn/open-apis/bitable/v1/apps/base/tables/tbl/records"] /\
  map Feishu.headers (snd (create accepts (utf8 "3.8元") []))
  = [[];
     [(utf8 "Authorization", utf8 "Bearer t-1");
      (utf8 "Content-Type", utf8 "application/json; charset=utf-8")]] /\
  fst (create refuses (utf8 "3.8元") [])
  = Json.Raises (Json.RuntimeError (utf8 "获取 tenant_access_token 失败：")
                                   refusal) /\
  map Feishu.url (snd (create refuses (utf8 "3.8元") [])) = [Feishu.token_url].
Proof. vm_compute. repeat split; reflexivity. Qed.
